(** * Verification of the dashboard pipeline of [app.py]

    The development embeds the data pipeline of [app.py]: the loader
    [load_and_preprocess_data], the statistics engine
    [get_descriptive_statistics], the chart builder [create_plotly_charts]
    and the serialization helpers [_sanitize] and [_fig_json]; and the
    routes that answer with JSON, [get_statistics_api], [get_charts] and
    [get_summary].

    Modelling conventions.
    - Python exceptions are the [Raise] branch of the [result] monad; every
      exception raised by the modelled code is a subclass of [Exception].
    - Python floats are the rationals extended with NaN and the two
      infinities ([pyfloat]); arithmetic on table cells is exact rational
      arithmetic, a missing cell (pandas NaN) is [None].  Rounding errors of
      binary floating point are not modelled.
    - [json.dumps] produces the token sequence of the emitted text: the
      spelling of a number or string literal is abstracted to its value.
    - The square root of the floating-point library and the random number
      generator of numpy are parameters of the definitions that use them.
    - The answer of a route is the document given to [jsonify] with the
      status code; the process-wide table [data] is an argument of the
      routes, as it is of the engine and of the builder. *)

From Stdlib Require Import QArith Qround Qminmax ZArith List String Ascii Lqa Lia Permutation.
From stdpp Require Import base option gmap strings list sorting pretty.

Set Warnings "-register-all,-clear-no-such-hyp".


(** ** Exceptions *)

Inductive exn : Type :=
  | KeyError (key : string)
  | TypeError
  | ValueError
  | IndexError
  | OSError.

Inductive result (A : Type) : Type :=
  | Ok (a : A)
  | Raise (e : exn).
Arguments Ok {A} a.
Arguments Raise {A} e.

Global Instance result_ret : MRet result := λ A a, Ok a.
Global Instance result_bind : MBind result := λ A B k m,
  match m with
  | Ok a => k a
  | Raise e => Raise e
  end.

Fixpoint mapM_result {A B} (f : A → result B) (l : list A) : result (list B) :=
  match l with
  | [] => Ok []
  | x :: l' =>
      match f x with
      | Raise e => Raise e
      | Ok y =>
          match mapM_result f l' with
          | Raise e => Raise e
          | Ok ys => Ok (y :: ys)
          end
      end
  end.

(** ** Python values *)

Inductive pyfloat : Type :=
  | FNaN
  | FInf
  | FNegInf
  | FFin (q : Q).

(** The element of a numpy array, a pandas Series or Index with a scalar
    dtype: a [float64], an [int64], a [bool_], or a Python [str] (the
    columns of strings that [read_csv] makes). *)
Inductive npscalar : Type :=
  | NpFloat (f : pyfloat)
  | NpInt (z : Z)
  | NpBool (b : bool)
  | NpStr (s : string).

(** An n-dimensional array: a scalar (dimension 0) or a sequence of
    sub-arrays along the first axis. *)
Inductive ndarray : Type :=
  | Nd0 (c : npscalar)
  | NdAxis (sub : list ndarray).

(** A dict key: a string, or a number (the labels of a numeric column). *)
Inductive pykey : Type :=
  | KeyStr (s : string)
  | KeyNum (q : Q).
Coercion KeyStr : string >-> pykey.

Inductive pyval : Type :=
  | PNone
  | PBool (b : bool)
  | PInt (z : Z)
  | PFloat (f : pyfloat)
  | PStr (s : string)
  | PNpScalar (c : npscalar)
  | PList (l : list pyval)
  | PTuple (l : list pyval)
  | PDict (d : list (pykey * pyval))
  | PNdarray (a : ndarray)
  | PSeries (l : list npscalar)
  | PIndex (l : list npscalar)
  | PObjArray (l : list pyval).

(** [PObjArray l] is a one-dimensional array, Series or Index of dtype
    [object] whose entries are the arbitrary Python objects [l]; its
    [tolist()] returns the entries as they are. *)

(** [c.item()]: the Python scalar of an array element. *)
Definition item (c : npscalar) : pyval :=
  match c with
  | NpFloat f => PFloat f
  | NpInt z => PInt z
  | NpBool b => PBool b
  | NpStr s => PStr s
  end.

(** [ndarray.tolist()] *)
Fixpoint tolist (a : ndarray) : pyval :=
  match a with
  | Nd0 c => item c
  | NdAxis sub => PList (map tolist sub)
  end.

(** [Series.tolist()], [Index.tolist()] *)
Definition series_tolist (l : list npscalar) : pyval := PList (map item l).

(** ** The serialization layer *)

Fixpoint _sanitize (obj : pyval) : pyval :=
  match obj with
  | PNdarray a => tolist a
  | PSeries l => series_tolist l
  | PIndex l => series_tolist l
  | PObjArray l => PList l
  | PDict d => PDict (map (λ kv, (fst kv, _sanitize (snd kv))) d)
  | PList l => PList (map _sanitize l)
  | PTuple l => PList (map _sanitize l)
  | _ => obj
  end.

(** Tokens of the text written by [json.dumps]. [TNaN], [TInfinity] and
    [TNegInfinity] are the bare words [NaN], [Infinity] and [-Infinity]
    that the encoder writes when [allow_nan] has its default [True];
    [TNumStr q] is the string literal that spells the number [q], written
    for a numeric dict key. *)
Inductive token : Type :=
  | TNull | TTrue | TFalse
  | TInt (z : Z)
  | TFloat (q : Q)
  | TNaN | TInfinity | TNegInfinity
  | TStr (s : string)
  | TNumStr (q : Q)
  | TLBracket | TRBracket | TLBrace | TRBrace | TComma | TColon.

Definition key_token (k : pykey) : token :=
  match k with
  | KeyStr s => TStr s
  | KeyNum q => TNumStr q
  end.

(** [floatstr] of [json.encoder] *)
Definition floatstr (f : pyfloat) : token :=
  match f with
  | FNaN => TNaN
  | FInf => TInfinity
  | FNegInf => TNegInfinity
  | FFin q => TFloat q
  end.

Fixpoint join_comma (parts : list (list token)) : list token :=
  match parts with
  | [] => []
  | [p] => p
  | p :: ps => p ++ TComma :: join_comma ps
  end.

Definition array_tokens (parts : list (list token)) : list token :=
  TLBracket :: join_comma parts ++ [TRBracket].

Definition object_tokens (parts : list (list token)) : list token :=
  TLBrace :: join_comma parts ++ [TRBrace].

(** [json.dumps(obj)] with the default encoder: an object that is neither a
    dict, list, tuple, str, int, float, bool nor None raises [TypeError].
    [numpy.float64] subclasses [float] and [numpy.str_] subclasses [str];
    [numpy.int64] and [numpy.bool_] subclass neither [int] nor [bool]. *)
Fixpoint json_dumps (obj : pyval) : result (list token) :=
  match obj with
  | PNone => Ok [TNull]
  | PBool true => Ok [TTrue]
  | PBool false => Ok [TFalse]
  | PInt z => Ok [TInt z]
  | PFloat f => Ok [floatstr f]
  | PStr s => Ok [TStr s]
  | PNpScalar (NpFloat f) => Ok [floatstr f]
  | PNpScalar (NpStr s) => Ok [TStr s]
  | PNpScalar (NpInt _) => Raise TypeError
  | PNpScalar (NpBool _) => Raise TypeError
  | PList l => parts ← mapM_result json_dumps l ; Ok (array_tokens parts)
  | PTuple l => parts ← mapM_result json_dumps l ; Ok (array_tokens parts)
  | PDict d =>
      parts ← mapM_result (λ kv, ts ← json_dumps (snd kv) ;
                          Ok (key_token (fst kv) :: TColon :: ts)) d ;
      Ok (object_tokens parts)
  | PNdarray _ => Raise TypeError
  | PSeries _ => Raise TypeError
  | PIndex _ => Raise TypeError
  | PObjArray _ => Raise TypeError
  end.

(** A figure holds its traces and its layout as given to the constructors;
    [to_plotly_json] returns them as a dict. *)
Record Figure : Type := mkFigure {
  fig_data : list pyval;
  fig_layout : list (pykey * pyval)
}.

Definition go_Figure : Figure := mkFigure [] [].

Definition add_trace (fig : Figure) (trace : pyval) : Figure :=
  mkFigure (fig_data fig ++ [trace]) (fig_layout fig).

Definition update_layout (fig : Figure) (kw : list (pykey * pyval)) : Figure :=
  mkFigure (fig_data fig) (fig_layout fig ++ kw).

Definition to_plotly_json (fig : Figure) : pyval :=
  PDict [(KeyStr "data", PList (fig_data fig));
         (KeyStr "layout", PDict (fig_layout fig))].

Definition _fig_json (fig : Figure) : result (list token) :=
  let obj := to_plotly_json fig in
  let obj := _sanitize obj in
  json_dumps obj.

(** ** Numbers *)

Definition Qsum (l : list Q) : Q := foldr Qplus 0%Q l.

Definition Qnat (n : nat) : Q := inject_Z (Z.of_nat n).

(** Round half to even, as [numpy.rint] and the [.0f] format do. *)
Definition round_half_even (q : Q) : Z :=
  let f := Qfloor q in
  match Qcompare (q - inject_Z f) (1 # 2) with
  | Lt => f
  | Gt => (f + 1)%Z
  | Eq => if Z.even f then f else (f + 1)%Z
  end.

(** [numpy.round(q, decimals)] *)
Definition round_dp (decimals : nat) (q : Q) : Q :=
  let scale := inject_Z (10 ^ Z.of_nat decimals) in
  (inject_Z (round_half_even (q * scale)) / scale)%Q.

Global Instance Q_eq_dec : EqDecision Q.
Proof. solve_decision. Defined.

(** ** Sorting and first-occurrence deduplication *)

Section Sort.
Context {A : Type} (leb : A → A → bool).

Fixpoint insert_sorted (x : A) (l : list A) : list A :=
  match l with
  | [] => [x]
  | y :: l' => if leb x y then x :: l else y :: insert_sorted x l'
  end.

(** Stable insertion sort: of two elements that compare equal, the one
    that comes first in the input comes first in the output. *)
Definition sort_by (l : list A) : list A := foldr insert_sorted [] l.
End Sort.

(** [pandas.unique]: the distinct values in order of first appearance. *)
Fixpoint unique {A} `{EqDecision A} (l : list A) : list A :=
  match l with
  | [] => []
  | x :: l' => x :: filter (λ y, y ≠ x) (unique l')
  end.

(** ** The pandas model *)

(** A column has a numeric dtype (int64 or float64, embedded in the
    rationals, [None] for NaN) or holds Python strings (object dtype,
    [None] for NaN). *)
Inductive column : Type :=
  | NumCol (l : list (option Q))
  | StrCol (l : list (option string)).

Definition col_length (c : column) : nat :=
  match c with
  | NumCol l => length l
  | StrCol l => length l
  end.

Record DataFrame : Type := mkDataFrame {
  nrows : nat;
  cols : gmap string column
}.

Definition wf_DataFrame (df : DataFrame) : Prop :=
  ∀ name c, cols df !! name = Some c → col_length c = nrows df.

(** [len(df)] *)
Definition df_len (df : DataFrame) : nat := nrows df.

(** [df[name]] *)
Definition getitem (df : DataFrame) (name : string) : result column :=
  match cols df !! name with
  | Some c => Ok c
  | None => Raise (KeyError name)
  end.

(** [name in df.columns] *)
Definition has_column (df : DataFrame) (name : string) : bool :=
  bool_decide (is_Some (cols df !! name)).

(** [df[name] = c] *)
Definition setitem (df : DataFrame) (name : string) (c : column) : DataFrame :=
  mkDataFrame (nrows df) (<[name := c]> (cols df)).

(** [df.drop(names, axis=1, inplace=True)] for names that exist *)
Definition drop (df : DataFrame) (names : list string) : DataFrame :=
  mkDataFrame (nrows df) (foldr delete (cols df) names).

Definition float_of_cell (x : option Q) : pyfloat :=
  match x with
  | Some q => FFin q
  | None => FNaN
  end.

Definition cells (c : column) : list npscalar :=
  match c with
  | NumCol l => map (λ x, NpFloat (float_of_cell x)) l
  | StrCol l => map (λ x, match x with
                          | Some s => NpStr s
                          | None => NpFloat FNaN
                          end) l
  end.

(** [series.tolist()] *)
Definition Series_tolist (c : column) : pyval := series_tolist (cells c).

(** *** Elementwise arithmetic of Series

    Arithmetic with a column of strings raises [TypeError]. *)

Definition lift2 (op : Q → Q → Q) (x y : option Q) : option Q :=
  match x, y with
  | Some a, Some b => Some (op a b)
  | _, _ => None
  end.

Definition series_binop (op : Q → Q → Q) (a b : column) : result column :=
  match a, b with
  | NumCol la, NumCol lb => Ok (NumCol (zip_with (lift2 op) la lb))
  | _, _ => Raise TypeError
  end.

Definition series_add := series_binop Qplus.
Definition series_mul := series_binop Qmult.

(** [series / k] for a number [k] *)
Definition series_div_scalar (a : column) (k : Q) : result column :=
  match a with
  | NumCol la => Ok (NumCol (map (fmap (λ x, x / k)%Q) la))
  | StrCol _ => Raise TypeError
  end.

(** *** Labels: the values of a column used as group keys

    A numeric label is kept in lowest terms, so that two labels are equal
    exactly when their values are. *)

Inductive label : Type :=
  | LNum (q : Q)
  | LStr (s : string).

Global Instance label_eq_dec : EqDecision label.
Proof. solve_decision. Defined.

Definition labels (c : column) : list (option label) :=
  match c with
  | NumCol l => map (fmap (λ q, LNum (Qred q))) l
  | StrCol l => map (fmap LStr) l
  end.

Definition label_py (k : label) : pyval :=
  match k with
  | LNum q => PFloat (FFin q)
  | LStr s => PStr s
  end.

Definition label_key (k : label) : pykey :=
  match k with
  | LNum q => KeyNum q
  | LStr s => KeyStr s
  end.

(** The order in which [groupby] arranges its keys. *)
Definition label_leb (a b : label) : bool :=
  match a, b with
  | LNum x, LNum y => Qle_bool x y
  | LStr x, LStr y => String.leb x y
  | LNum _, LStr _ => true
  | LStr _, LNum _ => false
  end.

(** [series == v] for a scalar [v] *)
Definition series_eq (c : column) (v : label) : list bool :=
  match c, v with
  | NumCol l, LNum q =>
      map (λ x, match x with Some y => Qeq_bool y q | None => false end) l
  | StrCol l, LStr s =>
      map (λ x, match x with Some y => bool_decide (y = s) | None => false end) l
  | NumCol l, LStr _ => map (λ _, false) l
  | StrCol l, LNum _ => map (λ _, false) l
  end.

(** [series.isin(vs)] *)
Definition isin (c : column) (vs : list label) : list bool :=
  foldr (λ v acc, zip_with orb (series_eq c v) acc)
        (replicate (col_length c) false) vs.

(** [mask1 & mask2] *)
Definition mask_and (m1 m2 : list bool) : list bool := zip_with andb m1 m2.

(** The entries of [l] at which the mask is [True]. *)
Fixpoint select {A} (mask : list bool) (l : list A) : list A :=
  match mask, l with
  | b :: mask', x :: l' => if b then x :: select mask' l' else select mask' l'
  | _, _ => []
  end.

Definition col_select (mask : list bool) (c : column) : column :=
  match c with
  | NumCol l => NumCol (select mask l)
  | StrCol l => StrCol (select mask l)
  end.

(** [df[mask]] *)
Definition df_select (df : DataFrame) (mask : list bool) : DataFrame :=
  mkDataFrame (length (select mask (replicate (nrows df) ())))
              (col_select mask <$> cols df).

(** The rows of [l] at the given positions, in that order ([take]). *)
Definition take_rows {A} (idx : list nat) (l : list A) : list A :=
  omap (λ i, l !! i) idx.

Definition col_take (idx : list nat) (c : column) : column :=
  match c with
  | NumCol l => NumCol (take_rows idx l)
  | StrCol l => StrCol (take_rows idx l)
  end.

(** *** Reductions *)

(** [dropna] *)
Definition dropna {A} (l : list (option A)) : list A := omap id l.

(** [series.mean()]: the mean of the entries that are not missing, NaN when
    there is none. *)
Definition mean (l : list (option Q)) : option Q :=
  let xs := dropna l in
  match xs with
  | [] => None
  | _ => Some (Qsum xs / Qnat (length xs))%Q
  end.

(** [series.count()]: the number of entries that are not missing. *)
Definition count {A} (l : list (option A)) : nat := length (dropna l).

(** [series.value_counts()]: the distinct values that are not missing with
    their number of occurrences, most frequent first, ties in order of first
    appearance. *)
Definition occurrences (k : label) (ks : list label) : nat :=
  length (filter (λ x, x = k) ks).

Definition value_counts (c : column) : list (label * nat) :=
  let ks := dropna (labels c) in
  sort_by (λ a b, Nat.leb (snd b) (snd a))
          (map (λ k, (k, occurrences k ks)) (unique ks)).

(** [numpy]'s linear interpolation between two neighbours *)
Definition lerp (a b t : Q) : Q :=
  if Qle_bool (1 # 2) t then (b - (b - a) * (1 - t))%Q else (a + (b - a) * t)%Q.

(** The [q]-quantile of an ascending array by linear interpolation between
    the closest ranks: the virtual index is [(n - 1) * q]. *)
Definition quantile_sorted (arr : list Q) (q : Q) : option Q :=
  match length arr with
  | O => None
  | S n1 =>
      let virtual := (Qnat n1 * q)%Q in
      let previous := Qfloor virtual in
      let gamma := (virtual - inject_Z previous)%Q in
      let previous_index := Z.to_nat previous in
      let next_index := Nat.min (previous_index + 1) n1 in
      a ← arr !! previous_index;
      b ← arr !! next_index;
      Some (lerp a b gamma)
  end.

(** [series.quantile(q)] *)
Definition quantile (c : column) (q : Q) : result (option Q) :=
  match c with
  | NumCol l => Ok (quantile_sorted (sort_by Qle_bool (dropna l)) q)
  | StrCol _ => Raise TypeError
  end.

(** The values of [vs] in the rows whose key is [k]. *)
Definition group_values {A} (k : label) (ks : list (option label)) (vs : list A) : list A :=
  select (map (λ x, bool_decide (x = Some k)) ks) vs.

(** The keys of [df.groupby(name)]: the distinct values that are not
    missing, ascending. *)
Definition group_keys (kc : column) : list label :=
  sort_by label_leb (unique (dropna (labels kc))).

(** [df.groupby(key)[value].mean()] *)
Definition groupby_mean (kc vc : column) : result (list (label * option Q)) :=
  match vc with
  | NumCol vs =>
      let ks := labels kc in
      Ok (map (λ k, (k, mean (group_values k ks vs))) (group_keys kc))
  | StrCol _ => Raise TypeError
  end.

(** [series.sort_values(ascending=False)]: descending, NaN last. *)
Definition sort_values_desc (s : list (label * option Q)) : list (label * option Q) :=
  let present := omap (λ kv, match snd kv with
                              | Some v => Some (fst kv, v)
                              | None => None
                              end) s in
  let missing := filter (λ kv, snd kv = None) s in
  map (λ kv, (fst kv, Some (snd kv)))
      (sort_by (λ a b, Qle_bool (snd b) (snd a)) present) ++ missing.

(** The format [f'${val:.0f}'] *)
Definition format_dollar (v : option Q) : string :=
  match v with
  | None => "$nan"
  | Some q =>
      let z := round_half_even q in
      if bool_decide (z = 0%Z) && negb (Qle_bool 0 q) then "$-0"
      else "$" +:+ pretty.pretty z
  end.

(** ** The loader *)

Definition columns_to_drop : list string :=
  ["battery_wh"; "charger_watts"; "psu_watts"].

Definition performance_score (data : DataFrame) : result column :=
  cpu_tier ← getitem data "cpu_tier";
  gpu_tier ← getitem data "gpu_tier";
  s1 ← series_add cpu_tier gpu_tier;
  cpu_cores ← getitem data "cpu_cores";
  t1 ← series_div_scalar cpu_cores 4;
  s2 ← series_add s1 t1;
  vram_gb ← getitem data "vram_gb";
  t2 ← series_div_scalar vram_gb 2;
  s3 ← series_add s2 t2;
  ram_gb ← getitem data "ram_gb";
  t3 ← series_div_scalar ram_gb 8;
  s4 ← series_add s3 t3;
  cpu_boost_ghz ← getitem data "cpu_boost_ghz";
  series_mul s4 cpu_boost_ghz.

(** [read_csv] is the outcome of [pd.read_csv('computer_prices_all.csv')]:
    the parsed table, or the exception it raised. *)
Definition load_and_preprocess_data (read_csv : result DataFrame) : option DataFrame :=
  let body :=
    data ← read_csv;
    let existing_columns := filter (λ col, has_column data col = true) columns_to_drop in
    let data := match existing_columns with
                | [] => data
                | _ => drop data existing_columns
                end in
    score ← performance_score data;
    Ok (setitem data "performance_score" score) in
  match body with
  | Ok data => Some data
  | Raise _ => None
  end.

(** ** The statistics engine *)

Definition categorical_cols : list string :=
  ["device_type"; "brand"; "model"; "os"; "form_factor"; "cpu_brand";
   "cpu_model"; "gpu_brand"; "gpu_model"; "storage_type"; "display_type";
   "resolution"; "wifi"].

Definition numerical_cols : list string :=
  ["release_year"; "cpu_tier"; "cpu_cores"; "cpu_threads"; "cpu_base_ghz";
   "cpu_boost_ghz"; "gpu_tier"; "vram_gb"; "ram_gb"; "storage_gb";
   "storage_drive_count"; "display_size_in"; "refresh_hz"; "bluetooth";
   "weight_kg"; "warranty_months"; "price"; "performance_score"].

(** A [for] loop whose body may raise. *)
Fixpoint for_in {S A} (l : list A) (body : A → S → result S) (s : S) : result S :=
  match l with
  | [] => Ok s
  | x :: l' => s' ← body x s; for_in l' body s'
  end.

Definition Qmin_list (l : list Q) : option Q :=
  match l with
  | [] => None
  | x :: l' => Some (foldl Qmin x l')
  end.

Definition Qmax_list (l : list Q) : option Q :=
  match l with
  | [] => None
  | x :: l' => Some (foldl Qmax x l')
  end.

Definition py_float (x : option Q) : pyval := PFloat (float_of_cell x).

Definition np_float (x : option Q) : pyval := PNpScalar (NpFloat (float_of_cell x)).

Section Engine.
(** The square root of the floating-point library. *)
Variable sqrt : Q → Q.

(** [series.std()]: the sample standard deviation, NaN below two values. *)
Definition std (l : list (option Q)) : option Q :=
  let xs := dropna l in
  match xs with
  | [] | [_] => None
  | _ =>
      let m := (Qsum xs / Qnat (length xs))%Q in
      Some (sqrt (Qsum (map (λ x, (x - m) * (x - m))%Q xs)
                  / Qnat (length xs - 1)))%Q
  end.

(** [series.describe().to_dict()] *)
Definition describe (c : column) : list (pykey * pyval) :=
  match c with
  | NumCol l =>
      let sorted := sort_by Qle_bool (dropna l) in
      [(KeyStr "count", py_float (Some (Qnat (count l))));
       (KeyStr "mean", py_float (mean l));
       (KeyStr "std", py_float (std l));
       (KeyStr "min", py_float (Qmin_list (dropna l)));
       (KeyStr "25%", py_float (quantile_sorted sorted 0.25));
       (KeyStr "50%", py_float (quantile_sorted sorted 0.5));
       (KeyStr "75%", py_float (quantile_sorted sorted 0.75));
       (KeyStr "max", py_float (Qmax_list (dropna l)))]
  | StrCol l =>
      let counts := value_counts c in
      [(KeyStr "count", PInt (Z.of_nat (count l)));
       (KeyStr "unique", PInt (Z.of_nat (length counts)));
       (KeyStr "top", match counts with
                      | [] => PFloat FNaN
                      | kv :: _ => label_py (fst kv)
                      end);
       (KeyStr "freq", match counts with
                       | [] => PFloat FNaN
                       | kv :: _ => PInt (Z.of_nat (snd kv))
                       end)]
  end.

Definition categorical_entry (data : DataFrame) (col : string)
    (stats : gmap string pyval) : result (gmap string pyval) :=
  if has_column data col then
    c ← getitem data col;
    let desc := describe c in
    let counts := value_counts c in
    Ok (<[col := PDict
            [(KeyStr "type", PStr "categorical");
             (KeyStr "describe", PDict desc);
             (KeyStr "value_counts",
               PDict (map (λ kv, (label_key (fst kv), PInt (Z.of_nat (snd kv))))
                          (take 10 counts)));
             (KeyStr "total_unique", PInt (Z.of_nat (length counts)))]]> stats)
  else Ok stats.

Definition numerical_record (desc : list (pykey * pyval)) (q1 q2 q3 : option Q) : pyval :=
  PDict [(KeyStr "type", PStr "numerical");
         (KeyStr "describe", PDict desc);
         (KeyStr "quartiles",
           PDict [(KeyStr "Q1", np_float q1);
                  (KeyStr "Q2", np_float q2);
                  (KeyStr "Q3", np_float q3)])].

Definition numerical_entry (data : DataFrame) (col : string)
    (stats : gmap string pyval) : result (gmap string pyval) :=
  if has_column data col then
    c ← getitem data col;
    let desc := describe c in
    q1 ← quantile c 0.25;
    q2 ← quantile c 0.5;
    q3 ← quantile c 0.75;
    Ok (<[col := numerical_record desc q1 q2 q3]> stats)
  else Ok stats.

Definition get_descriptive_statistics (data : option DataFrame)
    : result (gmap string pyval) :=
  match data with
  | None => Ok ∅
  | Some data =>
      let stats : gmap string pyval := ∅ in
      stats ← for_in categorical_cols (categorical_entry data) stats;
      stats ← for_in numerical_cols (numerical_entry data) stats;
      Ok stats
  end.
End Engine.

(** ** The chart builder *)

(** *** Traces and layout *)

Definition trace (type : string) (kw : list (pykey * pyval)) : pyval :=
  PDict (kw ++ [(KeyStr "type", PStr type)]).

Definition go_Scatter := trace "scatter".
Definition go_Bar := trace "bar".
Definition go_Box := trace "box".
Definition go_Histogram := trace "histogram".
Definition go_Pie := trace "pie".
Definition go_Heatmap := trace "heatmap".

Definition num (q : Q) : pyval := PFloat (FFin q).

Definition title (text : string) : pykey * pyval :=
  (KeyStr "title",
   PDict [(KeyStr "text", PStr text);
          (KeyStr "x", num 0.5);
          (KeyStr "xanchor", PStr "center");
          (KeyStr "font", PDict [(KeyStr "size", PInt 18);
                                 (KeyStr "color", PStr "#2c3e50");
                                 (KeyStr "family", PStr "Arial, sans-serif");
                                 (KeyStr "weight", PInt 700)])]).

Definition margin (l r t b : Z) : pykey * pyval :=
  (KeyStr "margin",
   PDict [(KeyStr "l", PInt l); (KeyStr "r", PInt r);
          (KeyStr "t", PInt t); (KeyStr "b", PInt b)]).

Definition font (size : Z) : pykey * pyval :=
  (KeyStr "font",
   PDict [(KeyStr "size", PInt size); (KeyStr "family", PStr "Arial, sans-serif")]).

Definition marker_color (c : string) : pykey * pyval :=
  (KeyStr "marker", PDict [(KeyStr "color", PStr c)]).

Definition light_bg : string := "rgba(248, 249, 250, 0.5)".

(** *** Chart data *)

(** Chart 8: per release year, the mean price rounded to two decimals and
    the number of prices, for the years with at least ten of them. *)
Definition yearly_stats (kc vc : column) : result (list (label * option Q * nat)) :=
  match vc with
  | NumCol vs =>
      let ks := labels kc in
      let stats :=
        map (λ k, let g := group_values k ks vs in
                  (k, round_dp 2 <$> mean g, count g)) (group_keys kc) in
      Ok (filter (λ r, 10 ≤ snd r) stats)
  | StrCol _ => Raise TypeError
  end.

(** [(count / total_device * 100) if total_device > 0 else 0] *)
Definition percentage (count total_device : nat) : pyval :=
  if bool_decide (0 < total_device)
  then num (Qnat count / Qnat total_device * 100)
  else PInt 0.

(** Chart 9: for each of the five most frequent GPU brands, the percentage
    of every device type's rows that have this brand. *)
Definition gpu_data (data : DataFrame) (device_types : list label) (gpu : label)
    : result (list pyval) :=
  mapM_result (λ device,
    dt ← getitem data "device_type";
    gb ← getitem data "gpu_brand";
    let count := df_len (df_select data (mask_and (series_eq dt device) (series_eq gb gpu))) in
    dt' ← getitem data "device_type";
    let total_device := df_len (df_select data (series_eq dt' device)) in
    Ok (percentage count total_device)) device_types.

Definition stacked_gpu_device (data : DataFrame)
    : result (list label * list label * list (list pyval)) :=
  gb ← getitem data "gpu_brand";
  let gpu_brands := map fst (take 5 (value_counts gb)) in
  dt ← getitem data "device_type";
  let device_types := map fst (value_counts dt) in
  rows ← mapM_result (gpu_data data device_types) gpu_brands;
  Ok (gpu_brands, device_types, rows).

Definition numeric_cols : list string :=
  ["price"; "performance_score"; "cpu_cores"; "cpu_threads"; "ram_gb";
   "storage_gb"; "vram_gb"; "cpu_base_ghz"; "cpu_boost_ghz"; "release_year"].

Definition colors : list string :=
  ["#667eea"; "#764ba2"; "#f093fb"; "#f5576c"; "#4facfe"; "#00f2fe"].

Definition colors_gpu : list string :=
  ["#667eea"; "#764ba2"; "#f093fb"; "#f5576c"; "#4facfe"].

Definition chart_names : list string :=
  ["scatter_price_performance"; "bar_top_brands"; "box_price_os"; "hist_price";
   "pie_device_type"; "heatmap_correlation"; "bar_cpu_brand";
   "line_price_trend"; "stacked_gpu_device"].

Section Charts.
(** The square root of the floating-point library. *)
Variable sqrt : Q → Q.

(** The random number generator of numpy: [RandomState seed] is the state
    of a generator freshly seeded with [seed], [permutation s n] the
    shuffle of [range(n)] that a generator in state [s] returns. *)
Context {rng_state : Type}.
Variable RandomState : Z → rng_state.
Variable permutation : rng_state → nat → list nat.

(** [df.sample(n=n, random_state=random_state)]: the first [n] rows of a
    random permutation of the rows; [global_rng] is the state of the
    process-wide generator, used when no seed is given. *)
Definition sample (global_rng : rng_state) (df : DataFrame) (n : nat)
    (random_state : option Z) : result DataFrame :=
  if bool_decide (nrows df < n) then Raise ValueError
  else
    let rs := match random_state with
              | Some seed => RandomState seed
              | None => global_rng
              end in
    let sampled_indices := take n (permutation rs (nrows df)) in
    Ok (mkDataFrame (length sampled_indices)
                    (col_take sampled_indices <$> cols df)).

(** Pearson correlation of two columns over the rows where both are
    present. *)
Definition corr_pair (x y : list (option Q)) : option Q :=
  let pairs := omap (λ p, match p with
                          | (Some a, Some b) => Some (a, b)
                          | _ => None
                          end) (zip x y) in
  match pairs with
  | [] => None
  | _ =>
      let n := Qnat (length pairs) in
      let mx := (Qsum (map fst pairs) / n)%Q in
      let my := (Qsum (map snd pairs) / n)%Q in
      let ssx := Qsum (map (λ p, (fst p - mx) * (fst p - mx))%Q pairs) in
      let ssy := Qsum (map (λ p, (snd p - my) * (snd p - my))%Q pairs) in
      let cov := Qsum (map (λ p, (fst p - mx) * (snd p - my))%Q pairs) in
      let divisor := sqrt (ssx * ssy) in
      if Qeq_bool divisor 0 then None
      else Some (Qmax (-1) (Qmin 1 (cov / divisor)))
  end.

(** [df[names].corr()]; a column of strings raises [ValueError]. *)
Definition corr (cs : list column) : result (list (list (option Q))) :=
  nums ← mapM_result (λ c, match c with
                           | NumCol l => Ok l
                           | StrCol _ => Raise ValueError
                           end) cs;
  Ok (map (λ x, map (λ y, corr_pair x y) nums) nums).

Definition fig1 (global_rng : rng_state) (data : DataFrame) : result Figure :=
  sample_data ← sample global_rng data (Nat.min 2000 (df_len data)) (Some 42%Z);
  xs ← getitem sample_data "performance_score";
  ys ← getitem sample_data "price";
  let fig := go_Figure in
  let fig := add_trace fig (go_Scatter
    [(KeyStr "x", Series_tolist xs);
     (KeyStr "y", Series_tolist ys);
     (KeyStr "mode", PStr "markers");
     (KeyStr "marker", PDict [(KeyStr "color", PStr "#667eea");
                              (KeyStr "size", PInt 6);
                              (KeyStr "opacity", num 0.6)]);
     (KeyStr "name", PStr "Price vs Performance")]) in
  Ok (update_layout fig
    [title "Price vs Performance Score";
     (KeyStr "xaxis_title", PStr "Performance Score");
     (KeyStr "yaxis_title", PStr "Price ($)");
     (KeyStr "template", PStr "plotly_white");
     (KeyStr "autosize", PBool true);
     (KeyStr "height", PInt 500);
     (KeyStr "width", PNone);
     margin 90 60 120 90;
     font 12;
     (KeyStr "showlegend", PBool false);
     (KeyStr "plot_bgcolor", PStr light_bg);
     (KeyStr "paper_bgcolor", PStr "white")]).

(** The bar trace of charts 2 and 7. *)
Definition price_bar (color : string) (s : list (label * option Q)) : pyval :=
  go_Bar [(KeyStr "x", PList (map (λ kv, label_py (fst kv)) s));
          (KeyStr "y", PList (map (λ kv, py_float (snd kv)) s));
          marker_color color;
          (KeyStr "text", PList (map (λ kv, PStr (format_dollar (snd kv))) s));
          (KeyStr "textposition", PStr "outside")].

Definition fig2 (data : DataFrame) : result Figure :=
  kc ← getitem data "brand";
  vc ← getitem data "price";
  means ← groupby_mean kc vc;
  let avg_price_by_brand := take 10 (sort_values_desc means) in
  let fig := add_trace go_Figure (price_bar "#667eea" avg_price_by_brand) in
  let fig := update_layout fig
    [title "Top 10 Brands with Highest Average Price";
     (KeyStr "xaxis_title", PStr "Brand");
     (KeyStr "yaxis_title", PStr "Average Price ($)");
     (KeyStr "template", PStr "plotly_white");
     (KeyStr "autosize", PBool true);
     (KeyStr "height", PInt 500);
     margin 90 60 120 120;
     (KeyStr "showlegend", PBool false);
     (KeyStr "plot_bgcolor", PStr light_bg);
     (KeyStr "paper_bgcolor", PStr "white");
     font 12] in
  (* update_xaxes(tickangle=-35, tickfont=dict(size=11)) *)
  Ok (update_layout fig
    [(KeyStr "xaxis", PDict [(KeyStr "tickangle", PInt (-35));
                             (KeyStr "tickfont", PDict [(KeyStr "size", PInt 11)])])]).

Definition fig3 (data : DataFrame) : result Figure :=
  os ← getitem data "os";
  let os_list := map fst (take 8 (value_counts os)) in
  os' ← getitem data "os";
  let filtered_data := df_select data (isin os' os_list) in
  fig ← for_in os_list (λ os_name fig,
    fos ← getitem filtered_data "os";
    let selected := df_select filtered_data (series_eq fos os_name) in
    os_data ← getitem selected "price";
    Ok (add_trace fig (go_Box [(KeyStr "y", Series_tolist os_data);
                               (KeyStr "name", label_py os_name);
                               (KeyStr "boxpoints", PStr "outliers")])))
    go_Figure;
  Ok (update_layout fig
    [title "Price Distribution by Operating System";
     (KeyStr "xaxis_title", PStr "Operating System");
     (KeyStr "yaxis_title", PStr "Price ($)");
     (KeyStr "template", PStr "plotly_white");
     (KeyStr "autosize", PBool true);
     (KeyStr "height", PInt 500);
     margin 90 60 120 100;
     (KeyStr "plot_bgcolor", PStr light_bg);
     (KeyStr "paper_bgcolor", PStr "white");
     font 12]).

Definition fig4 (data : DataFrame) : result Figure :=
  price ← getitem data "price";
  let fig := add_trace go_Figure (go_Histogram
    [(KeyStr "x", Series_tolist price);
     (KeyStr "nbinsx", PInt 50);
     marker_color "#667eea";
     (KeyStr "name", PStr "Price Distribution")]) in
  Ok (update_layout fig
    [title "Price Distribution";
     (KeyStr "xaxis_title", PStr "Price ($)");
     (KeyStr "yaxis_title", PStr "Frequency");
     (KeyStr "template", PStr "plotly_white");
     (KeyStr "autosize", PBool true);
     (KeyStr "height", PInt 500);
     margin 90 60 120 90;
     (KeyStr "showlegend", PBool false);
     (KeyStr "plot_bgcolor", PStr light_bg);
     (KeyStr "paper_bgcolor", PStr "white");
     font 12]).

Definition fig5 (data : DataFrame) : result Figure :=
  dt ← getitem data "device_type";
  let device_counts := value_counts dt in
  let fig := add_trace go_Figure (go_Pie
    [(KeyStr "labels", PList (map (λ kv, label_py (fst kv)) device_counts));
     (KeyStr "values", PList (map (λ kv, PInt (Z.of_nat (snd kv))) device_counts));
     (KeyStr "hole", num 0.35);
     (KeyStr "marker",
       PDict [(KeyStr "colors",
               PList (map PStr (take (length device_counts) colors)))]);
     (KeyStr "textinfo", PStr "label+percent+value");
     (KeyStr "hovertemplate",
       PStr "%{label}<br>Count: %{value}<br>% of total: %{percent}<extra></extra>")]) in
  Ok (update_layout fig
    [title "Distribution of Device Types";
     (KeyStr "template", PStr "plotly_white");
     (KeyStr "autosize", PBool true);
     (KeyStr "height", PInt 500);
     margin 60 60 120 80;
     (KeyStr "plot_bgcolor", PStr "white");
     (KeyStr "paper_bgcolor", PStr "white");
     font 12]).

Definition fig6 (data : DataFrame) : result Figure :=
  let available_cols := filter (λ col, has_column data col = true) numeric_cols in
  selected ← mapM_result (getitem data) available_cols;
  m ← corr selected;
  let corr_matrix := map (map (fmap (round_dp 3))) m in
  let columns := PList (map PStr available_cols) in
  let fig := add_trace go_Figure (go_Heatmap
    [(KeyStr "z", PList (map (λ row, PList (map py_float row)) corr_matrix));
     (KeyStr "x", columns);
     (KeyStr "y", columns);
     (KeyStr "colorscale", PStr "RdBu");
     (KeyStr "zmid", PInt 0);
     (KeyStr "text",
       PNdarray (NdAxis (map (λ row,
         NdAxis (map (λ v, Nd0 (NpFloat (float_of_cell v))) row)) corr_matrix)));
     (KeyStr "texttemplate", PStr "%{text:.2f}");
     (KeyStr "textfont", PDict [(KeyStr "size", PInt 10)]);
     (KeyStr "hoverongaps", PBool false)]) in
  Ok (update_layout fig
    [title "Correlation Matrix of Numeric Variables";
     (KeyStr "template", PStr "plotly_white");
     (KeyStr "autosize", PBool true);
     (KeyStr "height", PInt 600);
     margin 100 60 120 100;
     (KeyStr "plot_bgcolor", PStr "white");
     (KeyStr "paper_bgcolor", PStr "white");
     font 11]).

Definition fig7 (data : DataFrame) : result Figure :=
  kc ← getitem data "cpu_brand";
  vc ← getitem data "price";
  means ← groupby_mean kc vc;
  let cpu_brand_data := sort_values_desc means in
  let fig := add_trace go_Figure (price_bar "#764ba2" cpu_brand_data) in
  Ok (update_layout fig
    [title "Average Price by CPU Brand";
     (KeyStr "xaxis_title", PStr "CPU Brand");
     (KeyStr "yaxis_title", PStr "Average Price ($)");
     (KeyStr "template", PStr "plotly_white");
     (KeyStr "autosize", PBool true);
     (KeyStr "height", PInt 500);
     margin 90 60 120 90;
     (KeyStr "showlegend", PBool false);
     (KeyStr "plot_bgcolor", PStr light_bg);
     (KeyStr "paper_bgcolor", PStr "white");
     font 12]).

(** The x and y arrays of chart 8. *)
Definition line_price_trend (data : DataFrame)
    : result (list label * list (option Q)) :=
  kc ← getitem data "release_year";
  vc ← getitem data "price";
  stats ← yearly_stats kc vc;
  Ok (map (λ r, fst (fst r)) stats, map (λ r, snd (fst r)) stats).

Definition fig8 (data : DataFrame) : result Figure :=
  xy ← line_price_trend data;
  let fig := add_trace go_Figure (go_Scatter
    [(KeyStr "x", PList (map label_py (fst xy)));
     (KeyStr "y", PList (map py_float (snd xy)));
     (KeyStr "mode", PStr "lines+markers");
     (KeyStr "line", PDict [(KeyStr "color", PStr "#667eea");
                            (KeyStr "width", PInt 3)]);
     (KeyStr "marker", PDict [(KeyStr "color", PStr "#667eea");
                              (KeyStr "size", PInt 8)]);
     (KeyStr "name", PStr "Average Price")]) in
  Ok (update_layout fig
    [title "Average Price Trend by Release Year";
     (KeyStr "xaxis_title", PStr "Release Year");
     (KeyStr "yaxis_title", PStr "Average Price ($)");
     (KeyStr "template", PStr "plotly_white");
     (KeyStr "autosize", PBool true);
     (KeyStr "height", PInt 500);
     margin 90 60 120 90;
     (KeyStr "showlegend", PBool false);
     (KeyStr "plot_bgcolor", PStr light_bg);
     (KeyStr "paper_bgcolor", PStr "white");
     font 12]).

Definition fig9 (data : DataFrame) : result Figure :=
  '(gpu_brands, device_types, rows) ← stacked_gpu_device data;
  fig ← for_in (zip (seq 0 (length gpu_brands)) (zip gpu_brands rows))
    (λ '(i, (gpu, gpu_data)) fig,
      color ← match colors_gpu !! i with
              | Some c => Ok c
              | None => Raise IndexError
              end;
      Ok (add_trace fig (go_Bar
        [(KeyStr "name", label_py gpu);
         (KeyStr "x", PList (map label_py device_types));
         (KeyStr "y", PList gpu_data);
         marker_color color])))
    go_Figure;
  Ok (update_layout fig
    [title "GPU Brand Composition by Device Type (%)";
     (KeyStr "xaxis_title", PStr "Device Type");
     (KeyStr "yaxis_title", PStr "Percentage (%)");
     (KeyStr "barmode", PStr "stack");
     (KeyStr "template", PStr "plotly_white");
     (KeyStr "autosize", PBool true);
     (KeyStr "height", PInt 500);
     margin 90 60 120 90;
     (KeyStr "plot_bgcolor", PStr light_bg);
     (KeyStr "paper_bgcolor", PStr "white");
     font 12;
     (KeyStr "legend", PDict [(KeyStr "orientation", PStr "h");
                              (KeyStr "yanchor", PStr "bottom");
                              (KeyStr "y", num 1.02);
                              (KeyStr "xanchor", PStr "center");
                              (KeyStr "x", num 0.5)])]).

(** *** The builder

    The statements of the [try] block run in order on the dict [charts];
    a statement that raises stops the block and leaves in [charts] what
    the statements before it stored. *)

Definition store_chart (name : string) (fig : result Figure)
    (rest : gmap string (list token) → gmap string (list token) * option exn)
    (charts : gmap string (list token))
    : gmap string (list token) * option exn :=
  match f ← fig; _fig_json f with
  | Ok js => rest (<[name := js]> charts)
  | Raise e => (charts, Some e)
  end.

Definition try_block (global_rng : rng_state) (data : DataFrame)
    : gmap string (list token) → gmap string (list token) * option exn :=
  store_chart "scatter_price_performance" (fig1 global_rng data) $
  store_chart "bar_top_brands" (fig2 data) $
  store_chart "box_price_os" (fig3 data) $
  store_chart "hist_price" (fig4 data) $
  store_chart "pie_device_type" (fig5 data) $
  store_chart "heatmap_correlation" (fig6 data) $
  store_chart "bar_cpu_brand" (fig7 data) $
  store_chart "line_price_trend" (fig8 data) $
  store_chart "stacked_gpu_device" (fig9 data) $
  λ charts, (charts, None).

Definition create_plotly_charts (global_rng : rng_state) (data : option DataFrame)
    : result (gmap string (list token)) :=
  match data with
  | None => Ok ∅
  | Some data =>
      let charts : gmap string (list token) := ∅ in
      match try_block global_rng data charts with
      | (charts, None) => Ok charts
      | (_, Some e) => Ok ∅
      end
  end.
End Charts.

(** * Vocabulary of the properties *)

(** ** Structural induction through the nested lists *)

Section Induction.
Variable P : ndarray → Prop.
Hypothesis P_scalar : ∀ c, P (Nd0 c).
Hypothesis P_axis : ∀ sub, Forall P sub → P (NdAxis sub).

Fixpoint ndarray_nested_ind (a : ndarray) : P a :=
  match a with
  | Nd0 c => P_scalar c
  | NdAxis sub =>
      P_axis sub
        ((fix all (l : list ndarray) : Forall P l :=
            match l with
            | [] => @List.Forall_nil _ P
            | x :: l' => @List.Forall_cons _ P x l' (ndarray_nested_ind x) (all l')
            end) sub)
  end.
End Induction.

Definition is_container (v : pyval) : bool :=
  match v with
  | PList _ | PTuple _ | PDict _ => true
  | _ => false
  end.

Section Induction.
Variable P : pyval → Prop.
Hypothesis P_leaf : ∀ v, is_container v = false → P v.
Hypothesis P_list : ∀ l, Forall P l → P (PList l).
Hypothesis P_tuple : ∀ l, Forall P l → P (PTuple l).
Hypothesis P_dict : ∀ d, Forall (λ kv, P (snd kv)) d → P (PDict d).

Fixpoint pyval_nested_ind (v : pyval) : P v :=
  let all := fix all (l : list pyval) : Forall P l :=
    match l with
    | [] => @List.Forall_nil _ P
    | x :: l' => @List.Forall_cons _ P x l' (pyval_nested_ind x) (all l')
    end in
  match v with
  | PList l => P_list l (all l)
  | PTuple l => P_tuple l (all l)
  | PDict d =>
      P_dict d
        ((fix all_values (l : list (pykey * pyval)) : Forall (λ kv, P (snd kv)) l :=
            match l with
            | [] => @List.Forall_nil _ _
            | kv :: l' =>
                @List.Forall_cons _ (λ kv, P (snd kv)) kv l'
                  (pyval_nested_ind (snd kv)) (all_values l')
            end) d)
  | PNone => P_leaf PNone eq_refl
  | PBool b => P_leaf (PBool b) eq_refl
  | PInt z => P_leaf (PInt z) eq_refl
  | PFloat f => P_leaf (PFloat f) eq_refl
  | PStr s => P_leaf (PStr s) eq_refl
  | PNpScalar c => P_leaf (PNpScalar c) eq_refl
  | PNdarray a => P_leaf (PNdarray a) eq_refl
  | PSeries l => P_leaf (PSeries l) eq_refl
  | PIndex l => P_leaf (PIndex l) eq_refl
  | PObjArray l => P_leaf (PObjArray l) eq_refl
  end.
End Induction.

(** ** Shapes of values *)

(** A value made of dicts, lists and Python scalars only: no tuple, no
    numpy scalar, array, Series or Index at any depth. *)
Fixpoint json_plain (v : pyval) : bool :=
  match v with
  | PNone | PBool _ | PInt _ | PFloat _ | PStr _ => true
  | PList l => forallb json_plain l
  | PDict d => forallb (λ kv, json_plain (snd kv)) d
  | PTuple _ | PNpScalar _ | PNdarray _ | PSeries _ | PIndex _ | PObjArray _ => false
  end.

(** The values that the sanitizer turns into plain ones: no numpy scalar
    stands for itself (the elements of an array of scalars do not count,
    they are converted with their array), and the entries of an array of
    objects, which are not converted, are plain already. *)
Fixpoint sanitizes_plain (v : pyval) : bool :=
  match v with
  | PNpScalar _ => false
  | PList l => forallb sanitizes_plain l
  | PTuple l => forallb sanitizes_plain l
  | PDict d => forallb (λ kv, sanitizes_plain (snd kv)) d
  | PObjArray l => forallb json_plain l
  | _ => true
  end.

(** A Python scalar, as opposed to a container or an array. *)
Definition is_python_scalar (v : pyval) : bool :=
  match v with
  | PNone | PBool _ | PInt _ | PFloat _ | PStr _ => true
  | _ => false
  end.

(** Every array of objects in the value holds scalars only. *)
Fixpoint object_entries_scalar (v : pyval) : bool :=
  match v with
  | PObjArray l => forallb is_python_scalar l
  | PList l => forallb object_entries_scalar l
  | PTuple l => forallb object_entries_scalar l
  | PDict d => forallb (λ kv, object_entries_scalar (snd kv)) d
  | _ => true
  end.

(** ** Example inputs *)

(** [pd.Series([np.array([1, 2])])] *)
Definition array_series : pyval :=
  PObjArray [PNdarray (NdAxis [Nd0 (NpInt 1); Nd0 (NpInt 2)])].

(** A dict that holds a tuple, a two-dimensional array and a Series of
    objects. *)
Definition mixed_value : pyval :=
  PDict [(KeyStr "point", PTuple [PInt 1; PFloat FNaN]);
         (KeyStr "z", PNdarray (NdAxis [NdAxis [Nd0 (NpInt 1); Nd0 (NpInt 2)]]));
         (KeyStr "names", PObjArray [PStr "a"; PNone])].



(** ** The chart builder as a list of steps *)

(** The columns that some chart reads without testing that they exist. *)
Definition required_columns : list string :=
  ["performance_score"; "price"; "brand"; "os"; "device_type"; "cpu_brand";
   "release_year"; "gpu_brand"].

Section Steps.
Variable sqrt : Q → Q.
Context {rng_state : Type}.
Variable RandomState : Z → rng_state.
Variable permutation : rng_state → nat → list nat.

(** The nine figures in the order of the [try] block. *)
Definition figures (global_rng : rng_state) (data : DataFrame)
    : list (string * result Figure) :=
  [("scatter_price_performance", fig1 RandomState permutation global_rng data);
   ("bar_top_brands", fig2 data);
   ("box_price_os", fig3 data);
   ("hist_price", fig4 data);
   ("pie_device_type", fig5 data);
   ("heatmap_correlation", fig6 sqrt data);
   ("bar_cpu_brand", fig7 data);
   ("line_price_trend", fig8 data);
   ("stacked_gpu_device", fig9 data)].

Definition run_steps (steps : list (string * result Figure))
    : gmap string (list token) → gmap string (list token) * option exn :=
  foldr (λ step, store_chart (fst step) (snd step)) (λ charts, (charts, None)) steps.
End Steps.

(** A rational approximation of the square root, to six decimals. *)
Definition approx_sqrt (q : Q) : Q :=
  Z.sqrt (Qnum q * Z.pos (Qden q) * 10 ^ 12) # (Qden q * 10 ^ 6).

(** A generator whose shuffle of [range(n)] is its reversal. *)
Definition reversing_permutation (s : Z) (n : nat) : list nat := rev (seq 0 n).

(** A table of three devices. *)
Definition three_devices : DataFrame :=
  mkDataFrame 3 (list_to_map [
    ("cpu_tier", NumCol [Some 1; Some 2; None]%Q);
    ("gpu_tier", NumCol [Some 1; Some 2; Some 3]%Q);
    ("cpu_cores", NumCol [Some 4; Some 8; Some 6]%Q);
    ("vram_gb", NumCol [Some 4; Some 8; Some 6]%Q);
    ("ram_gb", NumCol [Some 8; Some 16; Some 32]%Q);
    ("cpu_boost_ghz", NumCol [Some 4; Some 3.5; Some 3]%Q);
    ("performance_score", NumCol [Some 24; Some 42; None]%Q);
    ("price", NumCol [Some 1000; Some 2000; Some 3000]%Q);
    ("brand", StrCol [Some "A"; Some "A"; Some "B"]);
    ("os", StrCol [Some "X"; Some "X"; Some "Y"]);
    ("device_type", StrCol [Some "Laptop"; Some "Desktop"; Some "Laptop"]);
    ("cpu_brand", StrCol [Some "Intel"; Some "AMD"; Some "Intel"]);
    ("gpu_brand", StrCol [Some "NVIDIA"; Some "AMD"; Some "AMD"]);
    ("release_year", NumCol [Some 2020; Some 2021; Some 2020]%Q)]).

(** The same table without the column [gpu_brand]. *)
Definition no_gpu_brand : DataFrame := drop three_devices ["gpu_brand"].

(** ** The median by full sort *)




(** Every listed numerical column that the table has holds numbers. *)
Definition numerical_columns_numeric (data : DataFrame) : Prop :=
  ∀ col c, col ∈ numerical_cols → cols data !! col = Some c → ∃ l, c = NumCol l.

(** What the loop over the numerical columns stores for a numeric column. *)
Definition numerical_record_of (sqrt : Q → Q) (l : list (option Q)) : pyval :=
  numerical_record (describe sqrt (NumCol l))
    (quantile_sorted (sort_by Qle_bool (dropna l)) 0.25)
    (quantile_sorted (sort_by Qle_bool (dropna l)) 0.5)
    (quantile_sorted (sort_by Qle_bool (dropna l)) 0.75).

(** The table that the loader makes of the three devices. *)
Definition three_devices_loaded : DataFrame :=
  default three_devices (load_and_preprocess_data (Ok three_devices)).

(** ** Groups of rows *)

(** The number of rows whose key is [k]. *)
Definition rows_with (k : label) (kc : column) : nat :=
  length (filter (λ x, x = Some k) (labels kc)).

(** [a] comes strictly before [b] in the order of the group keys. *)
Definition label_lt (a b : label) : Prop := label_leb a b = true ∧ a ≠ b.

(** Twenty devices: ten of 2020, one of them without a price, and ten of
    2021, whose mean price is 1000.001. *)
Definition sparse_years_release_year : column :=
  NumCol (replicate 10 (Some 2020%Q) ++ replicate 10 (Some 2021%Q)).

Definition sparse_years_price : list (option Q) :=
  (None :: replicate 9 (Some 1000%Q)) ++ (Some 1000.01%Q :: replicate 9 (Some 1000%Q)).

Definition sparse_years : DataFrame :=
  mkDataFrame 20 (list_to_map [
    ("release_year", sparse_years_release_year);
    ("price", NumCol sparse_years_price)]).

(** ** The stacked percentages *)

(** A label in the form in which [labels] yields it. *)
Definition canonical (k : label) : Prop :=
  match k with
  | LNum q => Qred q = q
  | LStr _ => True
  end.






(** ** Reading a figure *)

Global Instance pykey_eq_dec : EqDecision pykey.
Proof. solve_decision. Defined.

Fixpoint assoc_get (k : pykey) (d : list (pykey * pyval)) : option pyval :=
  match d with
  | [] => None
  | kv :: d' => if decide (fst kv = k) then Some (snd kv) else assoc_get k d'
  end.

(** [d[k]] for a dict [d] *)
Definition dict_get (k : string) (v : pyval) : option pyval :=
  match v with
  | PDict d => assoc_get (KeyStr k) d
  | _ => None
  end.

(** The array stored under [k] in the trace at position [i] of a figure. *)
Definition trace_array (fig : Figure) (i : nat) (k : string) : option (list pyval) :=
  t ← fig_data fig !! i;
  v ← dict_get k t;
  match v with
  | PList l => Some l
  | _ => None
  end.


(** The traces and the layout are values that the sanitizer turns into
    plain ones. *)
Definition figure_plain (fig : Figure) : Prop :=
  forallb sanitizes_plain (fig_data fig) = true
  ∧ forallb (λ kv, sanitizes_plain (snd kv)) (fig_layout fig) = true.

(** The charts of the three devices, and the histogram among them. *)
Definition three_devices_charts : gmap string (list token) :=
  match create_plotly_charts approx_sqrt id reversing_permutation 0%Z (Some three_devices) with
  | Ok charts => charts
  | Raise _ => ∅
  end.


(** ** Inputs, records and orders of the further properties *)



(** The values that [json.dumps] accepts: no array, Series or Index, and no
    numpy integer or boolean scalar, at any depth. *)
Fixpoint json_encodable (v : pyval) : bool :=
  match v with
  | PNone | PBool _ | PInt _ | PFloat _ | PStr _ => true
  | PNpScalar (NpFloat _) | PNpScalar (NpStr _) => true
  | PNpScalar (NpInt _) | PNpScalar (NpBool _) => false
  | PList l => forallb json_encodable l
  | PTuple l => forallb json_encodable l
  | PDict d => forallb (λ kv, json_encodable (snd kv)) d
  | PNdarray _ | PSeries _ | PIndex _ | PObjArray _ => false
  end.


(** The three devices with the rated power of their supplies, a column
    that the loader drops. *)
Definition three_devices_psu : DataFrame :=
  setitem three_devices "psu_watts" (NumCol [Some 65; None; Some 500]%Q).


(** What the loop over the categorical columns stores for a column. *)
Definition categorical_record_of (sqrt : Q → Q) (c : column) : pyval :=
  PDict [(KeyStr "type", PStr "categorical");
         (KeyStr "describe", PDict (describe sqrt c));
         (KeyStr "value_counts",
           PDict (map (λ kv, (label_key (fst kv), PInt (Z.of_nat (snd kv))))
                      (take 10 (value_counts c))));
         (KeyStr "total_unique", PInt (Z.of_nat (length (value_counts c))))].

(** The record that the statistics engine stores for a column of the
    table, if it stores one. *)
Definition statistics_record (sqrt : Q → Q) (data : DataFrame) (col : string)
    : option pyval :=
  match cols data !! col with
  | None => None
  | Some c =>
      if bool_decide (col ∈ categorical_cols) then Some (categorical_record_of sqrt c)
      else if bool_decide (col ∈ numerical_cols) then
        match c with
        | NumCol l => Some (numerical_record_of sqrt l)
        | StrCol _ => None
        end
      else None
  end.

(** The dict of counts written for the pairs [top]. *)
Definition counts_dict (top : list (label * nat)) : pyval :=
  PDict (map (λ kv, (label_key (fst kv), PInt (Z.of_nat (snd kv)))) top).

(** The tables on which every chart can be computed: the columns that the
    charts read without a test exist, and none of the columns of the
    correlation matrix that the table has holds strings. *)
Definition charts_computable (data : DataFrame) : bool :=
  forallb (has_column data) required_columns
  && forallb (λ name, match cols data !! name with
                      | Some (StrCol _) => false
                      | _ => true
                      end) numeric_cols.

(** The order of [sort_values(ascending=False)]: a value comes before the
    values that are not larger and before the missing ones. *)
Definition price_desc (a b : option Q) : Prop :=
  match a, b with
  | Some x, Some y => (y <= x)%Q
  | _, None => True
  | None, Some _ => False
  end.

(** The mean price of the rows whose key is [k]. *)
Definition group_mean (k : label) (kc : column) (vs : list (option Q)) : option Q :=
  mean (group_values k (labels kc) vs).

(** A correlation coefficient as reported: missing, or between -1 and 1. *)
Definition coefficient (v : option Q) : Prop :=
  match v with
  | None => True
  | Some r => (-1 <= r)%Q ∧ (r <= 1)%Q
  end.

(** ** The HTTP routes

    A response is the JSON document written by [jsonify] and the status
    code. A document is identified with the object it encodes: [jsonify]
    writes the keys of every dict in sorted order. *)

(** The text of an error document: a fixed message, or [str(e)] for the
    exception caught. *)
Inductive error_message : Type :=
  | Message (text : string)
  | StrOf (e : exn).

Inductive document : Type :=
  | DocValue (v : pyval)
  | DocStats (stats : gmap string pyval)
  | DocCharts (charts : gmap string (list token))
  | DocError (error : error_message).

Definition response : Type := document * Z.












Section Routes.
Variable sqrt : Q → Q.
Context {rng_state : Type}.
Variable RandomState : Z → rng_state.
Variable permutation : rng_state → nat → list nat.


Definition get_charts (global_rng : rng_state) (data : option DataFrame) : response :=
  let body :=
    charts ← create_plotly_charts sqrt RandomState permutation global_rng data;
    if bool_decide (size charts = 0)
    then Ok (DocError (Message "No charts available"), 500%Z)
    else Ok (DocCharts charts, 200%Z) in
  match body with
  | Ok r => r
  | Raise e => (DocError (StrOf e), 500%Z)
  end.
End Routes.





(** * Properties *)

(** ** The sanitizer *)

Lemma python_scalar_plain v : is_python_scalar v = true → json_plain v = true.
Proof. by destruct v. Qed.

Lemma item_plain c : json_plain (item c) = true.
Proof. by destruct c. Qed.

Lemma series_tolist_plain l : json_plain (series_tolist l) = true.
Proof.
  unfold series_tolist. simpl. apply forallb_forall.
  intros v [c [<- _]]%in_map_iff. apply item_plain.
Qed.

Lemma tolist_plain a : json_plain (tolist a) = true.
Proof.
  induction a as [c | sub IH] using ndarray_nested_ind; simpl.
  - apply item_plain.
  - apply forallb_forall. intros v [a [<- Ha]]%in_map_iff.
    rewrite Forall_forall in IH. apply IH. by apply list_elem_of_In.
Qed.

(** A plain value is left as it is. *)
Lemma sanitize_plain v : json_plain v = true → _sanitize v = v.
Proof.
  induction v as [v Hv | l IH | l IH | d IH] using pyval_nested_ind; simpl; intros Hp.
  - by destruct v.
  - f_equal. rewrite <- (map_id l) at 2. apply map_ext_in. intros v Hin.
    rewrite Forall_forall in IH. apply IH; [by apply list_elem_of_In |].
    rewrite forallb_forall in Hp. by apply Hp.
  - discriminate.
  - f_equal. rewrite <- (map_id d) at 2. apply map_ext_in. intros [k v] Hin. simpl.
    f_equal. rewrite Forall_forall in IH.
    apply (IH (k, v)); [by apply list_elem_of_In |].
    rewrite forallb_forall in Hp. by apply (Hp (k, v)).
Qed.

(** The sanitizer yields a plain value exactly when no numpy scalar stands
    for itself in its argument. *)
Lemma sanitize_json_plain v : json_plain (_sanitize v) = sanitizes_plain v.
Proof.
  induction v as [v Hv | l IH | l IH | d IH] using pyval_nested_ind; simpl.
  - destruct v; try done; simpl.
    + apply tolist_plain.
    + apply series_tolist_plain.
    + apply series_tolist_plain.
  - induction IH as [| v l Hv _ IHl]; simpl; [done | by rewrite Hv, IHl].
  - induction IH as [| v l Hv _ IHl]; simpl; [done | by rewrite Hv, IHl].
  - induction IH as [| kv d Hv _ IHd]; simpl; [done | by rewrite Hv, IHd].
Qed.

(** A plain value is encoded without error. *)
Lemma json_dumps_plain v : json_plain v = true → ∃ toks, json_dumps v = Ok toks.
Proof.
  induction v as [v Hv | l IH | l IH | d IH] using pyval_nested_ind; simpl; intros Hp.
  - destruct v as [| [] | | | | | | | | | | |]; try discriminate; eauto.
  - assert (∃ parts, mapM_result json_dumps l = Ok parts) as [parts ->].
    { induction IH as [| v l Hv _ IHl]; simpl in *; [eauto |].
      apply andb_prop in Hp as [Hp1 Hp2].
      destruct (Hv Hp1) as [t ->]. destruct (IHl Hp2) as [ts ->]. eauto. }
    simpl. eauto.
  - discriminate.
  - assert (∃ parts, mapM_result
        (λ kv, ts ← json_dumps (snd kv); Ok (key_token (fst kv) :: TColon :: ts)) d
        = Ok parts) as [parts ->].
    { induction IH as [| kv d Hv _ IHd]; simpl in *; [eauto |].
      apply andb_prop in Hp as [Hp1 Hp2].
      destruct (Hv Hp1) as [t ->]. destruct (IHd Hp2) as [ts ->]. simpl. eauto. }
    simpl. eauto.
Qed.

(** The sanitizer is idempotent on every value whose arrays of objects
    hold scalars only: sanitizing a sanitized value changes nothing, for
    every such value made of arrays, Series, Index objects, dicts, lists,
    tuples and scalars. *)
Lemma sanitize_idempotent_scalar_entries (v : pyval) :
  object_entries_scalar v = true → _sanitize (_sanitize v) = _sanitize v.
Proof.
  induction v as [v Hv | l IH | l IH | d IH] using pyval_nested_ind;
    cbn [_sanitize object_entries_scalar]; intros Hobj.
  - destruct v; try done.
    + apply sanitize_plain, tolist_plain.
    + apply sanitize_plain, series_tolist_plain.
    + apply sanitize_plain, series_tolist_plain.
    + change (_sanitize (PList l) = PList l). apply sanitize_plain. simpl in *.
      rewrite forallb_forall in Hobj.
      apply forallb_forall. intros x Hx. by apply python_scalar_plain, Hobj.
  - f_equal. rewrite map_map. apply map_ext_in. intros v Hin.
    rewrite Forall_forall in IH. rewrite forallb_forall in Hobj.
    apply IH; [by apply list_elem_of_In | by apply Hobj].
  - f_equal. rewrite map_map. apply map_ext_in. intros v Hin.
    rewrite Forall_forall in IH. rewrite forallb_forall in Hobj.
    apply IH; [by apply list_elem_of_In | by apply Hobj].
  - f_equal. rewrite map_map. apply map_ext_in. intros [k v] Hin. simpl. f_equal.
    rewrite Forall_forall in IH. rewrite forallb_forall in Hobj.
    apply (IH (k, v)); [by apply list_elem_of_In | by apply (Hobj (k, v))].
Qed.

Example sanitize_idempotent_mixed_value :
  _sanitize (_sanitize mixed_value) = _sanitize mixed_value.
Proof. apply sanitize_idempotent_scalar_entries. reflexivity. Qed.

(** C10. The sanitizer is not idempotent on a Series of objects that holds
    an array: the first pass returns the list of the entries with the
    array left in it, which is not a plain value, and the second pass
    turns the array into a list. *)
Theorem sanitize_twice_differs :
  _sanitize array_series
  = PList [PNdarray (NdAxis [Nd0 (NpInt 1); Nd0 (NpInt 2)])]
  ∧ json_plain (_sanitize array_series) = false
  ∧ _sanitize (_sanitize array_series) = PList [PList [PInt 1; PInt 2]]
  ∧ _sanitize (_sanitize array_series) ≠ _sanitize array_series.
Proof. repeat split; try reflexivity. discriminate. Qed.

(** ** Serialization of missing entries *)





(** ** All or nothing *)

Section AllOrNothing.
Variable sqrt : Q → Q.
Context {rng_state : Type}.
Variable RandomState : Z → rng_state.
Variable permutation : rng_state → nat → list nat.

Abbreviation try_block := (try_block sqrt RandomState permutation).
Abbreviation figures := (figures sqrt RandomState permutation).
Abbreviation fig1 := (fig1 RandomState permutation).

Lemma try_block_steps g data : try_block g data = run_steps (figures g data).
Proof. unfold try_block, run_steps, figures. cbn [foldr fst snd]. reflexivity. Qed.

(** A block that ends normally has stored every chart. *)
Lemma run_steps_dom steps (charts0 charts : gmap string (list token)) :
  run_steps steps charts0 = (charts, None) →
  dom charts = dom charts0 ∪ list_to_set (map fst steps).
Proof.
  revert charts0. induction steps as [| [name fig] steps IH]; simpl; intros charts0 H.
  - inversion H. set_solver.
  - unfold store_chart in H. simpl in H.
    destruct (fig ≫= _fig_json) as [js | e]; [| discriminate].
    apply IH in H. rewrite H, dom_insert_L. set_solver.
Qed.

(** A step that raises stops the block with an exception. *)
Lemma run_steps_raise steps name e (charts0 : gmap string (list token)) :
  (name, Raise e) ∈ steps → ∃ e', snd (run_steps steps charts0) = Some e'.
Proof.
  revert charts0. induction steps as [| [name' fig] steps IH]; simpl; intros charts0 Hin.
  - by apply elem_of_nil in Hin.
  - unfold store_chart. simpl.
    apply elem_of_cons in Hin as [Heq | Hin].
    + inversion Heq; subst. simpl. eauto.
    + destruct (fig ≫= _fig_json) as [js | e1]; simpl; eauto.
Qed.

Lemma getitem_missing df name : cols df !! name = None → getitem df name = Raise (KeyError name).
Proof. unfold getitem. by intros ->. Qed.

Lemma sample_within g df n rs :
  n ≤ nrows df → ∃ idx, sample RandomState permutation g df n rs
                        = Ok (mkDataFrame (length idx) (col_take idx <$> cols df))
                      ∧ idx = take n (permutation
                                (match rs with Some seed => RandomState seed | None => g end)
                                (nrows df)).
Proof.
  intros Hn. unfold sample. rewrite bool_decide_eq_false_2 by lia. eauto.
Qed.

Lemma getitem_fmap (f : column → column) n df name :
  getitem (mkDataFrame n (f <$> cols df)) name = c ← getitem df name; Ok (f c).
Proof.
  unfold getitem. simpl. rewrite lookup_fmap. by destruct (cols df !! name).
Qed.

Lemma fig1_missing g data :
  cols data !! "performance_score" = None ∨ cols data !! "price" = None →
  ∃ e, fig1 g data = Raise e.
Proof.
  intros H. unfold fig1.
  destruct (sample_within g data (Nat.min 2000 (df_len data)) (Some 42%Z))
    as (idx & -> & _); [unfold df_len; lia |].
  cbn [mbind result_bind]. rewrite !getitem_fmap.
  destruct (cols data !! "performance_score") as [c |] eqn:Hc.
  - destruct H as [H | H]; [discriminate |].
    unfold getitem. rewrite Hc, H. simpl. eauto.
  - unfold getitem. rewrite Hc. simpl. eauto.
Qed.

Lemma figures_missing g data name :
  name ∈ required_columns → cols data !! name = None →
  ∃ chart e, (chart, Raise e) ∈ figures g data.
Proof.
  unfold required_columns. rewrite !elem_of_cons, elem_of_nil.
  intros H Hmiss. unfold figures.
  destruct H as [-> | [-> | [-> | [-> | [-> | [-> | [-> | [-> | []]]]]]]]].
  - destruct (fig1_missing g data) as [e ->]; [by left |].
    eexists _, _. apply list_elem_of_here.
  - destruct (fig1_missing g data) as [e ->]; [by right |].
    eexists _, _. apply list_elem_of_here.
  - exists "bar_top_brands", (KeyError "brand").
    unfold fig2. rewrite (getitem_missing _ _ Hmiss). simpl.
    do 1 apply list_elem_of_further. apply list_elem_of_here.
  - exists "box_price_os", (KeyError "os").
    unfold fig3. rewrite (getitem_missing _ _ Hmiss). simpl.
    do 2 apply list_elem_of_further. apply list_elem_of_here.
  - exists "pie_device_type", (KeyError "device_type").
    unfold fig5. rewrite (getitem_missing _ _ Hmiss). simpl.
    do 4 apply list_elem_of_further. apply list_elem_of_here.
  - exists "bar_cpu_brand", (KeyError "cpu_brand").
    unfold fig7. rewrite (getitem_missing _ _ Hmiss). simpl.
    do 6 apply list_elem_of_further. apply list_elem_of_here.
  - exists "line_price_trend", (KeyError "release_year").
    unfold fig8, line_price_trend. rewrite (getitem_missing _ _ Hmiss). simpl.
    do 7 apply list_elem_of_further. apply list_elem_of_here.
  - exists "stacked_gpu_device", (KeyError "gpu_brand").
    unfold fig9, stacked_gpu_device. rewrite (getitem_missing _ _ Hmiss). simpl.
    do 8 apply list_elem_of_further. apply list_elem_of_here.
Qed.

(** C1. The chart builder always returns, and what it returns is the
    empty mapping or a mapping whose keys are exactly the nine chart
    names. It returns the empty mapping when the table is unavailable,
    when a statement of the block raises (whatever the block had stored
    by then), and in particular when a required column is missing. *)
Theorem create_plotly_charts_all_or_nothing (g : rng_state) (data : option DataFrame) :
  ∃ charts,
    create_plotly_charts sqrt RandomState permutation g data = Ok charts
    ∧ (charts = ∅ ∨ dom charts = list_to_set chart_names)
    ∧ (data = None → charts = ∅)
    ∧ (∀ d e, data = Some d → snd (try_block g d ∅) = Some e → charts = ∅)
    ∧ (∀ d name, data = Some d → name ∈ required_columns →
                 cols d !! name = None → charts = ∅).
Proof.
  destruct data as [d |]; simpl.
  - destruct (try_block g d ∅) as [charts [e |]] eqn:Hrun.
    + exists ∅. repeat split; auto.
    + exists charts. split; [done |]. split; [| split; [| split]].
      * right. rewrite try_block_steps in Hrun.
        apply run_steps_dom in Hrun. rewrite Hrun. set_solver.
      * discriminate.
      * intros d' e [= <-] He. rewrite Hrun in He. discriminate.
      * intros d' name [= <-] Hin Hmiss.
        destruct (figures_missing g d name Hin Hmiss) as (chart & e & Hstep).
        destruct (run_steps_raise _ _ _ ∅ Hstep) as [e' He'].
        rewrite <- try_block_steps, Hrun in He'. discriminate.
  - exists ∅. repeat split; auto; discriminate.
Qed.
End AllOrNothing.

(** C1, witness: without the column [gpu_brand] the block stores eight
    charts before the ninth raises, and the builder returns nothing. *)
Lemma create_plotly_charts_all_or_nothing_witness :
  create_plotly_charts approx_sqrt id reversing_permutation 0%Z (Some no_gpu_brand)
  = Ok ∅.
Proof.
  destruct (create_plotly_charts_all_or_nothing approx_sqrt id reversing_permutation
              0%Z (Some no_gpu_brand)) as (charts & Hrun & _ & _ & _ & Hmiss).
  rewrite Hrun. f_equal. apply (Hmiss no_gpu_brand "gpu_brand").
  - reflexivity.
  - do 7 apply list_elem_of_further. apply list_elem_of_here.
  - reflexivity.
Defined.


(** ** The derived column *)

Lemma lookup_foldr_delete (m : gmap string column) (names : list string) (k : string) :
  k ∉ names → foldr delete m names !! k = m !! k.
Proof.
  induction names as [| n names IH]; simpl; [done |].
  intros Hk. apply not_elem_of_cons in Hk as [Hne Hk].
  rewrite lookup_delete_ne by done. by apply IH.
Qed.

Lemma getitem_NumCol_inv df name c : getitem df name = Ok c → cols df !! name = Some c.
Proof. unfold getitem. destruct (cols df !! name); by intros [= ->]. Qed.

Lemma series_binop_inv op a b c :
  series_binop op a b = Ok c →
  ∃ la lb, a = NumCol la ∧ b = NumCol lb ∧ c = NumCol (zip_with (lift2 op) la lb).
Proof. destruct a, b; simpl; intros [= <-]; eauto. Qed.

Lemma series_div_scalar_inv a k c :
  series_div_scalar a k = Ok c →
  ∃ la, a = NumCol la ∧ c = NumCol (map (fmap (λ x, x / k)%Q) la).
Proof. destruct a; simpl; intros [= <-]; eauto. Qed.

Lemma bind_Ok_inv {A B} (m : result A) (k : A → result B) b :
  m ≫= k = Ok b → ∃ a, m = Ok a ∧ k a = Ok b.
Proof. destruct m; simpl; [eauto | discriminate]. Qed.

(** The columns that the score is computed from, and the score. *)
Lemma performance_score_inv data score :
  performance_score data = Ok score →
  ∃ ct gt cc vr rg cb,
    cols data !! "cpu_tier" = Some (NumCol ct)
    ∧ cols data !! "gpu_tier" = Some (NumCol gt)
    ∧ cols data !! "cpu_cores" = Some (NumCol cc)
    ∧ cols data !! "vram_gb" = Some (NumCol vr)
    ∧ cols data !! "ram_gb" = Some (NumCol rg)
    ∧ cols data !! "cpu_boost_ghz" = Some (NumCol cb)
    ∧ score = NumCol
        (zip_with (lift2 Qmult)
          (zip_with (lift2 Qplus)
            (zip_with (lift2 Qplus)
              (zip_with (lift2 Qplus)
                (zip_with (lift2 Qplus) ct gt)
                (map (fmap (λ x, x / 4)%Q) cc))
              (map (fmap (λ x, x / 2)%Q) vr))
            (map (fmap (λ x, x / 8)%Q) rg))
          cb).
Proof.
  unfold performance_score. intros H.
  apply bind_Ok_inv in H as (c1 & H1%getitem_NumCol_inv & H).
  apply bind_Ok_inv in H as (c2 & H2%getitem_NumCol_inv & H).
  apply bind_Ok_inv in H as (s1 & (ct & gt & -> & -> & ->)%series_binop_inv & H).
  apply bind_Ok_inv in H as (c3 & H3%getitem_NumCol_inv & H).
  apply bind_Ok_inv in H as (t1 & (cc & -> & ->)%series_div_scalar_inv & H).
  apply bind_Ok_inv in H as (s2 & (? & ? & [= <-] & [= <-] & ->)%series_binop_inv & H).
  apply bind_Ok_inv in H as (c4 & H4%getitem_NumCol_inv & H).
  apply bind_Ok_inv in H as (t2 & (vr & -> & ->)%series_div_scalar_inv & H).
  apply bind_Ok_inv in H as (s3 & (? & ? & [= <-] & [= <-] & ->)%series_binop_inv & H).
  apply bind_Ok_inv in H as (c5 & H5%getitem_NumCol_inv & H).
  apply bind_Ok_inv in H as (t3 & (rg & -> & ->)%series_div_scalar_inv & H).
  apply bind_Ok_inv in H as (s4 & (? & ? & [= <-] & [= <-] & ->)%series_binop_inv & H).
  apply bind_Ok_inv in H as (c6 & H6%getitem_NumCol_inv & H).
  apply series_binop_inv in H as (? & cb & [= <-] & -> & ->).
  by exists ct, gt, cc, vr, rg, cb.
Qed.

(** Dropping the unused columns leaves every other column in place. *)
Lemma drop_existing_lookup (raw : DataFrame) (k : string) :
  k ∉ columns_to_drop →
  cols (match filter (λ col, has_column raw col = true) columns_to_drop with
        | [] => raw
        | _ => drop raw (filter (λ col, has_column raw col = true) columns_to_drop)
        end) !! k = cols raw !! k.
Proof.
  intros Hk.
  destruct (filter _ columns_to_drop) as [| n names] eqn:Hf; [done |].
  unfold drop. cbn [cols]. apply lookup_foldr_delete.
  intros Hin. apply Hk. rewrite <- Hf in Hin.
  by apply list_elem_of_filter in Hin as [_ Hin].
Qed.

Lemma drop_existing_nrows (raw : DataFrame) :
  nrows (match filter (λ col, has_column raw col = true) columns_to_drop with
         | [] => raw
         | _ => drop raw (filter (λ col, has_column raw col = true) columns_to_drop)
         end) = nrows raw.
Proof. by destruct (filter _ columns_to_drop). Qed.

Ltac not_dropped :=
  unfold columns_to_drop; rewrite !not_elem_of_cons; repeat split;
  try discriminate; apply not_elem_of_nil.

(** C2. In the loaded table the six input columns are numeric and the
    derived column [performance_score] has one entry per row; in a row
    where the six inputs are present it is exactly
    [(cpu_tier + gpu_tier + cpu_cores/4 + vram_gb/2 + ram_gb/8) * cpu_boost_ghz],
    and in a row where one of them is missing it is missing. *)
Theorem performance_score_formula (raw data : DataFrame) :
  wf_DataFrame raw →
  load_and_preprocess_data (Ok raw) = Some data →
  ∃ cpu_tier gpu_tier cpu_cores vram_gb ram_gb cpu_boost_ghz score,
    cols data !! "cpu_tier" = Some (NumCol cpu_tier)
    ∧ cols data !! "gpu_tier" = Some (NumCol gpu_tier)
    ∧ cols data !! "cpu_cores" = Some (NumCol cpu_cores)
    ∧ cols data !! "vram_gb" = Some (NumCol vram_gb)
    ∧ cols data !! "ram_gb" = Some (NumCol ram_gb)
    ∧ cols data !! "cpu_boost_ghz" = Some (NumCol cpu_boost_ghz)
    ∧ cols data !! "performance_score" = Some (NumCol score)
    ∧ length score = nrows data
    ∧ (∀ i a b c d e f,
         cpu_tier !! i = Some (Some a) → gpu_tier !! i = Some (Some b) →
         cpu_cores !! i = Some (Some c) → vram_gb !! i = Some (Some d) →
         ram_gb !! i = Some (Some e) → cpu_boost_ghz !! i = Some (Some f) →
         score !! i = Some (Some ((a + b + c / 4 + d / 2 + e / 8) * f)%Q))
    ∧ (∀ i, i < nrows data →
         cpu_tier !! i = Some None ∨ gpu_tier !! i = Some None
         ∨ cpu_cores !! i = Some None ∨ vram_gb !! i = Some None
         ∨ ram_gb !! i = Some None ∨ cpu_boost_ghz !! i = Some None →
         score !! i = Some None).
Proof.
  intros Hwf Hload. unfold load_and_preprocess_data in Hload. cbn [mbind result_bind] in Hload.
  set (kept := match filter (λ col, has_column raw col = true) columns_to_drop with
               | [] => raw
               | _ => drop raw (filter (λ col, has_column raw col = true) columns_to_drop)
               end) in *.
  destruct (performance_score kept) as [score |] eqn:Hscore; [| discriminate].
  simpl in Hload. injection Hload as <-.
  apply performance_score_inv in Hscore
    as (ct & gt & cc & vr & rg & cb & H1 & H2 & H3 & H4 & H5 & H6 & ->).
  assert (Hn : nrows kept = nrows raw) by apply drop_existing_nrows.
  assert (Hlen : ∀ name l, cols kept !! name = Some (NumCol l) →
                           name ∉ columns_to_drop → length l = nrows raw).
  { intros name l Hl Hk. unfold kept in Hl. rewrite drop_existing_lookup in Hl by done.
    apply (Hwf name (NumCol l) Hl). }
  apply Hlen in H1 as L1; [| not_dropped]. apply Hlen in H2 as L2; [| not_dropped].
  apply Hlen in H3 as L3; [| not_dropped]. apply Hlen in H4 as L4; [| not_dropped].
  apply Hlen in H5 as L5; [| not_dropped]. apply Hlen in H6 as L6; [| not_dropped].
  exists ct, gt, cc, vr, rg, cb. eexists.
  unfold setitem. cbn [cols nrows].
  rewrite !lookup_insert_ne by discriminate. rewrite lookup_insert_eq.
  do 6 (split; [done |]). split; [reflexivity |].
  split; [| split].
  - rewrite !length_zip_with, !length_map. lia.
  - intros i a b c d e f Ha Hb Hc Hd He Hf.
    rewrite !lookup_zip_with, !list_lookup_fmap, Ha, Hb, Hc, Hd, He, Hf. reflexivity.
  - intros i Hi Hmiss. rewrite Hn in Hi.
    destruct (lookup_lt_is_Some_2 ct i) as [a Ha]; [lia |].
    destruct (lookup_lt_is_Some_2 gt i) as [b Hb]; [lia |].
    destruct (lookup_lt_is_Some_2 cc i) as [c Hc]; [lia |].
    destruct (lookup_lt_is_Some_2 vr i) as [d Hd]; [lia |].
    destruct (lookup_lt_is_Some_2 rg i) as [e He]; [lia |].
    destruct (lookup_lt_is_Some_2 cb i) as [f Hf]; [lia |].
    rewrite !lookup_zip_with, !list_lookup_fmap, Ha, Hb, Hc, Hd, He, Hf.
    rewrite Ha, Hb, Hc, Hd, He, Hf in Hmiss.
    destruct a, b, c, d, e, f; simpl; try reflexivity;
      exfalso; intuition discriminate.
Qed.


(** ** Quartiles *)







(** ** The statistics engine *)

Section Statistics.
Variable sqrt : Q → Q.

Lemma has_column_true data col c : cols data !! col = Some c → has_column data col = true.
Proof. intros H. unfold has_column. apply bool_decide_eq_true_2. by rewrite H. Qed.

Lemma has_column_false data col : cols data !! col = None → has_column data col = false.
Proof.
  intros H. unfold has_column. apply bool_decide_eq_false_2. rewrite H. by intros [? ?].
Qed.

Lemma categorical_entry_Ok data col stats :
  ∃ stats', categorical_entry sqrt data col stats = Ok stats'.
Proof.
  unfold categorical_entry, getitem.
  destruct (cols data !! col) as [c |] eqn:Hc.
  - rewrite (has_column_true _ _ _ Hc). simpl. eauto.
  - rewrite (has_column_false _ _ Hc). eauto.
Qed.

Lemma for_in_categorical data l stats :
  ∃ stats', for_in l (categorical_entry sqrt data) stats = Ok stats'.
Proof.
  revert stats. induction l as [| col l IH]; simpl; intros stats; [eauto |].
  destruct (categorical_entry_Ok data col stats) as [stats1 ->]. simpl. apply IH.
Qed.

Lemma numerical_entry_missing data col stats :
  cols data !! col = None → numerical_entry sqrt data col stats = Ok stats.
Proof. intros H. unfold numerical_entry. by rewrite (has_column_false _ _ H). Qed.

Lemma numerical_entry_NumCol data col l stats :
  cols data !! col = Some (NumCol l) →
  numerical_entry sqrt data col stats
  = Ok (<[col := numerical_record_of sqrt l]> stats).
Proof.
  intros H. unfold numerical_entry, getitem.
  by rewrite (has_column_true _ _ _ H), H.
Qed.

(** The loop over numeric columns ends normally; it stores the record of
    every column of the list that the table has and touches no other key. *)
Lemma for_in_numerical data l stats :
  NoDup l →
  (∀ col c, col ∈ l → cols data !! col = Some c → ∃ v, c = NumCol v) →
  ∃ stats',
    for_in l (numerical_entry sqrt data) stats = Ok stats'
    ∧ (∀ col v, col ∈ l → cols data !! col = Some (NumCol v) →
                stats' !! col = Some (numerical_record_of sqrt v))
    ∧ (∀ col, col ∉ l → stats' !! col = stats !! col).
Proof.
  intros Hnd. revert stats. induction Hnd as [| col l Hnotin Hnd IH]; intros stats Hnum.
  - exists stats. split; [done |]. split; [| done].
    intros col v Hin. by apply elem_of_nil in Hin.
  - simpl. destruct (cols data !! col) as [c |] eqn:Hc.
    + destruct (Hnum col c) as [v ->]; [apply list_elem_of_here | done |].
      rewrite (numerical_entry_NumCol _ _ _ _ Hc). simpl.
      destruct (IH (<[col := numerical_record_of sqrt v]> stats))
        as (stats' & Hrun & Hget & Hkeep).
      { intros col' c' Hin. apply Hnum. by apply list_elem_of_further. }
      exists stats'. split; [done |]. split.
      * intros col' v' [-> | Hin]%elem_of_cons Hc'; [| by apply Hget].
        rewrite Hc in Hc'. injection Hc' as <-.
        rewrite Hkeep by done. apply lookup_insert_eq.
      * intros col' [Hne Hnotin']%not_elem_of_cons.
        rewrite Hkeep by done. by apply lookup_insert_ne.
    + rewrite (numerical_entry_missing _ _ _ Hc). simpl.
      destruct (IH stats) as (stats' & Hrun & Hget & Hkeep).
      { intros col' c' Hin. apply Hnum. by apply list_elem_of_further. }
      exists stats'. split; [done |]. split.
      * intros col' v' [-> | Hin]%elem_of_cons Hc'; [congruence | by apply Hget].
      * intros col' [Hne Hnotin']%not_elem_of_cons. by apply Hkeep.
Qed.

Lemma NoDup_numerical_cols : NoDup numerical_cols.
Proof. apply (bool_decide_unpack _). by vm_compute. Qed.

(** On a table whose numerical columns hold numbers the engine returns, and
    the record of every numerical column is in the result. *)
Lemma get_descriptive_statistics_numeric (data : DataFrame) :
  numerical_columns_numeric data →
  ∃ stats,
    get_descriptive_statistics sqrt (Some data) = Ok stats
    ∧ ∀ col l, col ∈ numerical_cols → cols data !! col = Some (NumCol l) →
               stats !! col = Some (numerical_record_of sqrt l).
Proof.
  intros Hnum. unfold get_descriptive_statistics.
  destruct (for_in_categorical data categorical_cols ∅) as [stats1 ->].
  cbn [mbind result_bind].
  destruct (for_in_numerical data numerical_cols stats1 NoDup_numerical_cols Hnum)
    as (stats & -> & Hget & _).
  exists stats. split; [done |]. apply Hget.
Qed.


End Statistics.

Lemma three_devices_numeric : numerical_columns_numeric three_devices.
Proof.
  intros col c Hin Hc. unfold numerical_cols in Hin.
  repeat (apply elem_of_cons in Hin as [-> | Hin]);
    try (vm_compute in Hc; first [discriminate | injection Hc as <-; eauto]).
  by apply elem_of_nil in Hin.
Qed.




Lemma wf_three_devices : wf_DataFrame three_devices.
Proof.
  change (map_Forall (λ _ c, col_length c = 3) (cols three_devices)).
  apply (bool_decide_unpack _). by vm_compute.
Qed.

(** C2, witness: the first of the three devices has the score
    [(1 + 1 + 4/4 + 4/2 + 8/8) * 4]; the third, whose [cpu_tier] is missing,
    has none. *)
Lemma performance_score_formula_witness :
  ∃ score,
    cols three_devices_loaded !! "performance_score" = Some (NumCol score)
    ∧ score !! 0 = Some (Some ((1 + 1 + 4 / 4 + 4 / 2 + 8 / 8) * 4)%Q)
    ∧ score !! 2 = Some None.
Proof.
  destruct (performance_score_formula three_devices three_devices_loaded
              wf_three_devices eq_refl)
    as (ct & gt & cc & vr & rg & cb & score
        & H1 & H2 & H3 & H4 & H5 & H6 & Hs & _ & Hrow & Hmiss).
  exists score. split; [exact Hs |].
  vm_compute in H1, H2, H3, H4, H5, H6.
  injection H1 as <-. injection H2 as <-. injection H3 as <-.
  injection H4 as <-. injection H5 as <-. injection H6 as <-.
  split.
  - by apply Hrow.
  - apply Hmiss; [vm_compute; lia | by left].
Defined.


(** ** Sorting, grouping and the price trend *)

Section SortFacts.
Context {A : Type} (leb : A → A → bool).

Lemma insert_sorted_Permutation x l : insert_sorted leb x l ≡ₚ x :: l.
Proof.
  induction l as [| y l IH]; simpl; [done |].
  destruct (leb x y); [done |]. rewrite IH. apply Permutation_swap.
Qed.

Lemma sort_by_Permutation l : sort_by leb l ≡ₚ l.
Proof.
  induction l as [| x l IH]; simpl; [done |].
  by rewrite insert_sorted_Permutation, IH.
Qed.

Hypothesis leb_total : ∀ x y, leb x y = true ∨ leb y x = true.
Hypothesis leb_trans : ∀ x y z, leb x y = true → leb y z = true → leb x z = true.

Lemma insert_sorted_StronglySorted x l :
  StronglySorted (λ a b, leb a b = true) l →
  StronglySorted (λ a b, leb a b = true) (insert_sorted leb x l).
Proof.
  induction 1 as [| y l Hl IH Hy]; simpl.
  - repeat constructor.
  - destruct (leb x y) eqn:Hxy.
    + constructor; [by constructor |]. constructor; [done |].
      eapply Forall_impl; [exact Hy |]. intros z Hz. simpl in Hz. eauto.
    + constructor; [done |].
      rewrite insert_sorted_Permutation. constructor; [| done].
      destruct (leb_total x y); congruence.
Qed.

Lemma sort_by_StronglySorted l : StronglySorted (λ a b, leb a b = true) (sort_by leb l).
Proof.
  induction l as [| x l IH]; simpl; [constructor | by apply insert_sorted_StronglySorted].
Qed.
End SortFacts.

(** Sorting numbers: the result is ascending and holds the same values. *)
Lemma sort_by_Qle_sorted (l : list Q) :
  StronglySorted Qle (sort_by Qle_bool l) ∧ sort_by Qle_bool l ≡ₚ l.
Proof.
  split; [| apply sort_by_Permutation].
  assert (H : StronglySorted (λ a b, Qle_bool a b = true) (sort_by Qle_bool l)).
  { apply sort_by_StronglySorted.
    - intros x y. destruct (Qlt_le_dec y x) as [H | H].
      + right. apply Qle_bool_iff. lra.
      + left. by apply Qle_bool_iff.
    - intros x y z. rewrite !Qle_bool_iff. lra. }
  induction H as [| x k Hk IH Hx]; constructor; [done |].
  eapply Forall_impl; [exact Hx |]. intros y Hy. by apply Qle_bool_iff.
Qed.

Lemma StronglySorted_filter_keep {A} (R : relation A) (P : A → Prop) `{∀ x, Decision (P x)} l :
  StronglySorted R l → StronglySorted R (filter P l).
Proof.
  induction 1 as [| x l Hl IH Hx]; [constructor |].
  rewrite filter_cons. destruct (decide (P x)); [| done].
  constructor; [done |]. apply Forall_forall. intros y [_ Hy]%list_elem_of_filter.
  rewrite Forall_forall in Hx. by apply Hx.
Qed.

Lemma StronglySorted_lookup {A} (R : relation A) l i j a b :
  StronglySorted R l → i < j → l !! i = Some a → l !! j = Some b → R a b.
Proof.
  intros Hs. revert i j. induction Hs as [| x l Hl IH Hx]; intros i j Hij Hi Hj.
  - by rewrite lookup_nil in Hi.
  - destruct j as [| j]; [lia |]. simpl in Hj. destruct i as [| i]; simpl in Hi.
    + injection Hi as ->. rewrite Forall_forall in Hx. apply Hx.
      by eapply list_elem_of_lookup_2.
    + apply (IH i j); [lia | done | done].
Qed.

Lemma string_leb_trans s1 s2 s3 :
  String.leb s1 s2 = true → String.leb s2 s3 = true → String.leb s1 s3 = true.
Proof.
  unfold String.leb. revert s2 s3.
  induction s1 as [| c1 s1 IH]; intros [| c2 s2] [| c3 s3]; simpl; try done.
  unfold Ascii.compare.
  destruct (N.compare_spec (N_of_ascii c1) (N_of_ascii c2)) as [E12 | L12 | G12]; try done;
  destruct (N.compare_spec (N_of_ascii c2) (N_of_ascii c3)) as [E23 | L23 | G23]; try done;
  destruct (N.compare_spec (N_of_ascii c1) (N_of_ascii c3)) as [E13 | L13 | G13]; try done;
  try lia.
  apply IH.
Qed.

Lemma label_leb_total a b : label_leb a b = true ∨ label_leb b a = true.
Proof.
  destruct a as [x | s], b as [y | t]; simpl; auto.
  - destruct (Qlt_le_dec y x) as [H | H].
    + right. apply Qle_bool_iff. lra.
    + left. by apply Qle_bool_iff.
  - apply String.leb_total.
Qed.

Lemma label_leb_trans a b c :
  label_leb a b = true → label_leb b c = true → label_leb a c = true.
Proof.
  destruct a as [x | s], b as [y | t], c as [z | u]; simpl; try done.
  - rewrite !Qle_bool_iff. lra.
  - apply string_leb_trans.
Qed.

Section Unique.
Context {A : Type} `{EqDecision A}.

Lemma elem_of_unique (l : list A) x : x ∈ unique l ↔ x ∈ l.
Proof.
  induction l as [| y l IH]; simpl; [done |].
  rewrite !elem_of_cons, list_elem_of_filter, IH.
  destruct (decide (x = y)); naive_solver.
Qed.

Lemma NoDup_unique (l : list A) : NoDup (unique l).
Proof.
  induction l as [| y l IH]; simpl; [constructor |].
  constructor; [| by apply NoDup_filter].
  rewrite list_elem_of_filter. naive_solver.
Qed.
End Unique.

Lemma elem_of_dropna {A} (l : list (option A)) x : x ∈ dropna l ↔ Some x ∈ l.
Proof.
  unfold dropna. rewrite list_elem_of_omap. split.
  - intros (y & Hy & Heq). simpl in Heq. by subst.
  - intros H. by exists (Some x).
Qed.

Lemma elem_of_group_keys kc k : k ∈ group_keys kc ↔ Some k ∈ labels kc.
Proof.
  unfold group_keys. by rewrite sort_by_Permutation, elem_of_unique, elem_of_dropna.
Qed.

Lemma NoDup_group_keys kc : NoDup (group_keys kc).
Proof. unfold group_keys. rewrite sort_by_Permutation. apply NoDup_unique. Qed.

Lemma group_keys_sorted kc :
  StronglySorted (λ a b, label_leb a b = true) (group_keys kc).
Proof.
  apply sort_by_StronglySorted; [apply label_leb_total | apply label_leb_trans].
Qed.

Lemma length_select_le {A} (mask : list bool) (l : list A) :
  length (select mask l) ≤ length (filter (λ b, b = true) mask).
Proof.
  revert l. induction mask as [| b mask IH]; intros l; [destruct l; simpl; lia |].
  destruct l as [| x l]; [simpl; lia |]. simpl. rewrite filter_cons.
  specialize (IH l). destruct b.
  - rewrite decide_True by done. simpl. lia.
  - rewrite decide_False by done. lia.
Qed.

Lemma elem_of_select {A} (mask : list bool) (l : list A) x :
  x ∈ select mask l → ∃ i, mask !! i = Some true ∧ l !! i = Some x.
Proof.
  revert l. induction mask as [| b mask IH]; intros [| y l]; simpl;
    try (intros H; by apply elem_of_nil in H).
  destruct b.
  - intros [-> | H]%elem_of_cons; [by exists 0 |].
    destruct (IH l H) as (i & ? & ?). by exists (S i).
  - intros H. destruct (IH l H) as (i & ? & ?). by exists (S i).
Qed.

Lemma length_filter_mask {A} (P : A → Prop) `{∀ x, Decision (P x)} (l : list A) :
  length (filter (λ b, b = true) (map (λ x, bool_decide (P x)) l)) = length (filter P l).
Proof.
  induction l as [| x l IH]; simpl; [done |].
  rewrite !filter_cons. destruct (decide (P x)) as [Hp | Hp].
  - rewrite (bool_decide_eq_true_2 _ Hp). rewrite decide_True by done. simpl. by rewrite IH.
  - rewrite (bool_decide_eq_false_2 _ Hp). rewrite decide_False by done. done.
Qed.

Lemma length_dropna_le {A} (l : list (option A)) : length (dropna l) ≤ length l.
Proof. induction l as [| [x |] l IH]; simpl; lia. Qed.

Lemma count_group_le_rows k kc (vs : list (option Q)) :
  count (group_values k (labels kc) vs) ≤ rows_with k kc.
Proof.
  unfold count, group_values, rows_with.
  etrans; [apply length_dropna_le |]. etrans; [apply length_select_le |].
  by rewrite length_filter_mask.
Qed.

Lemma count_group_pos_key k kc (vs : list (option Q)) :
  0 < count (group_values k (labels kc) vs) → k ∈ group_keys kc.
Proof.
  unfold count, group_values. intros Hpos. apply elem_of_group_keys.
  destruct (dropna _) as [| v l] eqn:Hd; [simpl in Hpos; lia |].
  assert (Hv : v ∈ dropna (select (map (λ x, bool_decide (x = Some k)) (labels kc)) vs))
    by (rewrite Hd; apply list_elem_of_here).
  apply elem_of_dropna, elem_of_select in Hv as (i & Hi & _).
  rewrite list_lookup_fmap in Hi.
  destruct (labels kc !! i) as [x |] eqn:Hx; [| done]. simpl in Hi.
  injection Hi as Hi. apply bool_decide_eq_true_1 in Hi. subst.
  by eapply list_elem_of_lookup_2.
Qed.

Lemma yearly_stats_NumCol kc vs :
  yearly_stats kc (NumCol vs)
  = Ok (map (λ k, (k, round_dp 2 <$> mean (group_values k (labels kc) vs),
                   count (group_values k (labels kc) vs)))
            (filter (λ k, 10 ≤ count (group_values k (labels kc) vs)) (group_keys kc))).
Proof.
  unfold yearly_stats. f_equal.
  induction (group_keys kc) as [| k l IH]; simpl; [done |].
  rewrite !filter_cons. simpl. destruct (decide _); simpl; by rewrite IH.
Qed.

(** C6, amended. In the line_price_trend chart a release year is among the
    x-values exactly when at least ten of its rows have a price (so a year
    with fewer than ten rows never appears, and a year with exactly ten
    rows appears when all ten have a price); the y-value of a year is the
    mean of the prices of that year, rounded to two decimals; and the years
    are in ascending order. *)
Theorem line_price_trend_years (data : DataFrame) (kc : column) (vs : list (option Q)) :
  cols data !! "release_year" = Some kc →
  cols data !! "price" = Some (NumCol vs) →
  ∃ xs ys,
    line_price_trend data = Ok (xs, ys)
    ∧ length ys = length xs
    ∧ (∀ k, k ∈ xs ↔ 10 ≤ count (group_values k (labels kc) vs))
    ∧ (∀ k, rows_with k kc < 10 → k ∉ xs)
    ∧ (∀ i k, xs !! i = Some k →
              ys !! i = Some (round_dp 2 <$> mean (group_values k (labels kc) vs)))
    ∧ (∀ i j a b, i < j → xs !! i = Some a → xs !! j = Some b → label_lt a b).
Proof.
  intros Hk Hv. unfold line_price_trend, getitem. rewrite Hk, Hv.
  cbn [mbind result_bind]. rewrite yearly_stats_NumCol. cbn [mbind result_bind].
  rewrite !map_map. cbn [fst snd].
  set (keep := filter (λ k, 10 ≤ count (group_values k (labels kc) vs)) (group_keys kc)).
  rewrite map_id.
  eexists _, _. split; [reflexivity |]. split; [by rewrite length_map |].
  split; [| split; [| split]].
  - intros k. unfold keep. rewrite list_elem_of_filter. split; [by intros [? _] |].
    intros Hc. split; [done |]. apply (count_group_pos_key k kc vs). lia.
  - intros k Hrows Hin. unfold keep in Hin. apply list_elem_of_filter in Hin as [Hc _].
    pose proof (count_group_le_rows k kc vs). lia.
  - intros i k Hi. change (map ?f keep) with (f <$> keep).
    by rewrite list_lookup_fmap, Hi.
  - intros i j a b Hij Hi Hj. split.
    + apply (StronglySorted_lookup (λ a b, label_leb a b = true) keep i j);
        [| done | done | done].
      apply StronglySorted_filter_keep, group_keys_sorted.
    + intros ->.
      assert (NoDup keep) as Hnd by apply NoDup_filter, NoDup_group_keys.
      pose proof (NoDup_lookup _ _ _ _ Hnd Hi Hj). lia.
Qed.

(** C6, counterexample. In the table [sparse_years] the year 2020 has
    exactly ten rows and is not among the x-values, because one of its
    prices is missing; and the y-value of 2021 is 1000.00 while the mean
    price of that year is 1000.001. *)
Lemma line_price_trend_counterexample :
  line_price_trend sparse_years = Ok ([LNum 2021], [Some 1000.00%Q])
  ∧ rows_with (LNum 2020) sparse_years_release_year = 10
  ∧ mean (group_values (LNum 2021) (labels sparse_years_release_year) sparse_years_price)
    = Some 1000.001%Q
  ∧ ¬ (1000.00 == 1000.001)%Q.
Proof.
  split; [by vm_compute |]. split; [by vm_compute |]. split; [by vm_compute |].
  intros H. vm_compute in H. discriminate.
Qed.

(** C6, witness: in [sparse_years] the year 2021, with ten prices, is
    among the x-values and the year 2020, with nine, is not. *)
Lemma line_price_trend_years_witness :
  ∃ xs ys,
    line_price_trend sparse_years = Ok (xs, ys)
    ∧ LNum 2021 ∈ xs ∧ LNum 2020 ∉ xs.
Proof.
  destruct (line_price_trend_years sparse_years sparse_years_release_year
              sparse_years_price eq_refl eq_refl)
    as (xs & ys & Hrun & _ & Hin & _).
  exists xs, ys. split; [exact Hrun |]. split.
  - apply Hin. vm_compute. lia.
  - intros H%Hin. vm_compute in H. lia.
Defined.


(** ** The stacked percentages *)

Lemma labels_canonical c k : Some k ∈ labels c → canonical k.
Proof.
  destruct c as [l | l]; simpl; intros Hin.
  - apply list_elem_of_fmap in Hin as ([q |] & Heq & _); [| done].
    injection Heq as ->. simpl. apply Qred_complete, Qred_correct.
  - apply list_elem_of_fmap in Hin as ([s |] & Heq & _); [| done].
    by injection Heq as ->.
Qed.

Lemma series_eq_labels c v :
  canonical v → series_eq c v = map (λ x, bool_decide (x = Some v)) (labels c).
Proof.
  intros Hv. destruct c as [l | l], v as [q | s]; simpl in *; rewrite map_map;
    apply map_ext; intros [y |]; simpl; try done.
  - destruct (Qeq_bool y q) eqn:E.
    + symmetry. apply bool_decide_eq_true_2. do 2 f_equal.
      rewrite <- Hv. apply Qred_eq_iff. by apply Qeq_bool_iff.
    + symmetry. apply bool_decide_eq_false_2. intros [= H].
      apply Qeq_bool_neq in E. apply E. apply Qred_eq_iff. by rewrite H, Hv.
  - apply bool_decide_ext. split; [by intros -> | by intros [= ->]].
Qed.

Lemma length_labels c : length (labels c) = col_length c.
Proof. destruct c; simpl; by rewrite length_map. Qed.





Lemma sum_list_with_plus {A} (f g : A → nat) (l : list A) :
  sum_list_with (λ x, f x + g x) l = sum_list_with f l + sum_list_with g l.
Proof. induction l as [| x l IH]; simpl; lia. Qed.

Lemma sum_list_with_ext {A} (f g : A → nat) (l : list A) :
  (∀ x, f x = g x) → sum_list_with f l = sum_list_with g l.
Proof. intros H. induction l as [| x l IH]; simpl; [done | by rewrite H, IH]. Qed.


Lemma sum_list_with_zero {A} (f : A → nat) (l : list A) :
  (∀ x, x ∈ l → f x = 0) → sum_list_with f l = 0.
Proof.
  induction l as [| x l IH]; simpl; intros H; [done |].
  rewrite (H x) by apply list_elem_of_here. rewrite IH; [done |].
  intros z Hz. apply H. by apply list_elem_of_further.
Qed.



Lemma Qnat_plus a b : (Qnat (a + b) == Qnat a + Qnat b)%Q.
Proof. unfold Qnat. by rewrite Nat2Z.inj_add, inject_Z_plus. Qed.

Lemma Qnat_le a b : a ≤ b ↔ (Qnat a <= Qnat b)%Q.
Proof.
  unfold Qnat. split; intros H.
  - rewrite <- Zle_Qle. lia.
  - rewrite <- Zle_Qle in H. lia.
Qed.






Lemma mapM_result_Ok {A B} (f : A → result B) (g : A → B) (l : list A) :
  (∀ x, x ∈ l → f x = Ok (g x)) → mapM_result f l = Ok (map g l).
Proof.
  induction l as [| x l IH]; simpl; intros H; [done |].
  rewrite (H x) by apply list_elem_of_here.
  rewrite IH; [done |]. intros z Hz. apply H. by apply list_elem_of_further.
Qed.

Lemma value_counts_keys c : map fst (value_counts c) ≡ₚ unique (dropna (labels c)).
Proof.
  unfold value_counts. rewrite sort_by_Permutation, map_map. simpl. by rewrite map_id.
Qed.

Lemma NoDup_value_counts c n : NoDup (map fst (take n (value_counts c))).
Proof.
  change (map fst (take n (value_counts c))) with (fst <$> take n (value_counts c)).
  rewrite fmap_take. eapply sublist_NoDup; [| apply sublist_take].
  change (fst <$> value_counts c) with (map fst (value_counts c)).
  rewrite value_counts_keys. apply NoDup_unique.
Qed.

Lemma elem_of_value_counts c n k :
  k ∈ map fst (take n (value_counts c)) → Some k ∈ labels c.
Proof.
  change (map fst (take n (value_counts c))) with (fst <$> take n (value_counts c)).
  rewrite fmap_take. intros H.
  assert (k ∈ map fst (value_counts c)) as Hk.
  { eapply elem_of_sublist; [exact H | apply sublist_take]. }
  rewrite value_counts_keys in Hk. by apply elem_of_unique, elem_of_dropna in Hk.
Qed.

Lemma rows_with_pos k c : Some k ∈ labels c → 0 < rows_with k c.
Proof.
  intros H. unfold rows_with.
  assert (Some k ∈ filter (λ x, x = Some k) (labels c)) as Hin
    by (by apply list_elem_of_filter).
  destruct (filter _ (labels c)); [by apply elem_of_nil in Hin | simpl; lia].
Qed.

Section Counts.
Variables (data : DataFrame) (dt gb : column).
Hypothesis wf : wf_DataFrame data.
Hypothesis Hdt : cols data !! "device_type" = Some dt.
Hypothesis Hgb : cols data !! "gpu_brand" = Some gb.



End Counts.





(** ** The sample of the scatter chart *)




Section Sampling.
Variable sqrt : Q → Q.
Context {rng_state : Type}.
Variable RandomState : Z → rng_state.
Variable permutation : rng_state → nat → list nat.
Hypothesis permutation_shuffles : ∀ s n, permutation s n ≡ₚ seq 0 n.

Lemma sampled_indices s n m :
  n ≤ m →
  let idx := take n (permutation s m) in
  NoDup idx ∧ Forall (λ i, i < m) idx ∧ length idx = n.
Proof.
  intros Hn idx. pose proof (permutation_shuffles s m) as Hp.
  split; [| split].
  - eapply sublist_NoDup; [| apply sublist_take]. rewrite Hp. apply NoDup_seq.
  - apply Forall_forall. intros i Hi.
    assert (i ∈ permutation s m) as Hi'
      by (eapply elem_of_sublist; [exact Hi | apply sublist_take]).
    rewrite Hp in Hi'. apply elem_of_seq in Hi'. lia.
  - unfold idx. rewrite length_take. apply Permutation_length in Hp.
    rewrite length_seq in Hp. lia.
Qed.



End Sampling.

(** ** Plain data arrays *)

Lemma plain_sanitizes_plain v : json_plain v = true → sanitizes_plain v = true.
Proof.
  intros H. rewrite <- sanitize_json_plain. by rewrite (sanitize_plain v H).
Qed.

Lemma forallb_map_true {A B} (p : B → bool) (f : A → B) (l : list A) :
  (∀ x, p (f x) = true) → forallb p (map f l) = true.
Proof. intros H. induction l as [| x l IH]; simpl; [done | by rewrite H, IH]. Qed.

Lemma sanitizes_plain_Series_tolist c : sanitizes_plain (Series_tolist c) = true.
Proof. apply plain_sanitizes_plain, series_tolist_plain. Qed.

Lemma sanitizes_plain_label_py k : sanitizes_plain (label_py k) = true.
Proof. by destruct k. Qed.

Lemma sanitizes_plain_percentage c t : sanitizes_plain (percentage c t) = true.
Proof. unfold percentage. by destruct (bool_decide _). Qed.

Lemma figure_plain_sanitized fig :
  figure_plain fig → json_plain (_sanitize (to_plotly_json fig)) = true.
Proof.
  intros [Hd Hl]. rewrite sanitize_json_plain. unfold to_plotly_json.
  cbn [sanitizes_plain forallb snd]. by rewrite Hd, Hl.
Qed.

Lemma figure_plain_add_trace fig t :
  figure_plain fig → sanitizes_plain t = true → figure_plain (add_trace fig t).
Proof.
  intros [Hd Hl] Ht. split; [| done]. simpl.
  rewrite forallb_app, Hd. simpl. by rewrite Ht.
Qed.

Lemma figure_plain_update_layout fig kw :
  figure_plain fig → forallb (λ kv, sanitizes_plain (snd kv)) kw = true →
  figure_plain (update_layout fig kw).
Proof.
  intros [Hd Hl] Hkw. split; [done |]. simpl. by rewrite forallb_app, Hl, Hkw.
Qed.

Lemma sanitizes_plain_trace type kw :
  forallb (λ kv, sanitizes_plain (snd kv)) kw = true →
  sanitizes_plain (trace type kw) = true.
Proof. intros H. unfold trace. simpl. by rewrite forallb_app, H. Qed.

Lemma for_in_invariant {S A} (P : S → Prop) (l : list A) (body : A → S → result S) s s' :
  (∀ x t t', x ∈ l → P t → body x t = Ok t' → P t') →
  P s → for_in l body s = Ok s' → P s'.
Proof.
  revert s. induction l as [| x l IH]; simpl; intros s Hbody Hs Hrun.
  - by injection Hrun as <-.
  - apply bind_Ok_inv in Hrun as (t & Ht & Hrun).
    apply (IH t); [| | done].
    + intros y u u' Hy. apply Hbody. by apply list_elem_of_further.
    + apply (Hbody x s t); [apply list_elem_of_here | done | done].
Qed.

Lemma mapM_result_Forall {A B} (P : B → Prop) (f : A → result B) l ys :
  (∀ x y, f x = Ok y → P y) → mapM_result f l = Ok ys → Forall P ys.
Proof.
  intros Hf. revert ys. induction l as [| x l IH]; simpl; intros ys H.
  - injection H as <-. constructor.
  - destruct (f x) as [y |] eqn:Hy; [| discriminate].
    destruct (mapM_result f l) as [ys' |]; [| discriminate].
    injection H as <-. constructor; eauto.
Qed.

Ltac plain_layout :=
  cbn [forallb snd sanitizes_plain title margin font marker_color num andb];
  reflexivity.

Lemma sanitizes_plain_price_bar color s : sanitizes_plain (price_bar color s) = true.
Proof.
  unfold price_bar, go_Bar. apply sanitizes_plain_trace.
  cbn [forallb snd sanitizes_plain marker_color].
  rewrite !forallb_map_true; [done | done | done | intros; apply sanitizes_plain_label_py].
Qed.

Section PlainFigures.
Variable sqrt : Q → Q.
Context {rng_state : Type}.
Variable RandomState : Z → rng_state.
Variable permutation : rng_state → nat → list nat.

Lemma fig1_plain g data fig :
  fig1 RandomState permutation g data = Ok fig → figure_plain fig.
Proof.
  unfold fig1. intros H.
  apply bind_Ok_inv in H as (sample_data & _ & H).
  apply bind_Ok_inv in H as (xs & _ & H).
  apply bind_Ok_inv in H as (ys & _ & H). injection H as <-.
  apply figure_plain_update_layout; [| plain_layout].
  apply figure_plain_add_trace; [done |]. apply sanitizes_plain_trace.
  cbn [forallb snd]. by rewrite !sanitizes_plain_Series_tolist.
Qed.

Lemma fig2_plain data fig : fig2 data = Ok fig → figure_plain fig.
Proof.
  unfold fig2. intros H.
  apply bind_Ok_inv in H as (kc & _ & H).
  apply bind_Ok_inv in H as (vc & _ & H).
  apply bind_Ok_inv in H as (means & _ & H). injection H as <-.
  apply figure_plain_update_layout; [| plain_layout].
  apply figure_plain_update_layout; [| plain_layout].
  apply figure_plain_add_trace; [done | apply sanitizes_plain_price_bar].
Qed.

Lemma fig3_plain data fig : fig3 data = Ok fig → figure_plain fig.
Proof.
  unfold fig3. intros H.
  apply bind_Ok_inv in H as (os & _ & H).
  apply bind_Ok_inv in H as (os' & _ & H).
  apply bind_Ok_inv in H as (fig0 & Hloop & H). injection H as <-.
  apply figure_plain_update_layout; [| plain_layout].
  revert Hloop. apply for_in_invariant; [| done].
  intros os_name t t' _ Ht Hbody.
  apply bind_Ok_inv in Hbody as (fos & _ & Hbody).
  apply bind_Ok_inv in Hbody as (os_data & _ & Hbody). injection Hbody as <-.
  apply figure_plain_add_trace; [done |]. apply sanitizes_plain_trace.
  cbn [forallb snd]. by rewrite sanitizes_plain_Series_tolist, sanitizes_plain_label_py.
Qed.

Lemma fig4_plain data fig : fig4 data = Ok fig → figure_plain fig.
Proof.
  unfold fig4. intros H.
  apply bind_Ok_inv in H as (price & _ & H). injection H as <-.
  apply figure_plain_update_layout; [| plain_layout].
  apply figure_plain_add_trace; [done |]. apply sanitizes_plain_trace.
  cbn [forallb snd]. by rewrite sanitizes_plain_Series_tolist.
Qed.

Lemma fig5_plain data fig : fig5 data = Ok fig → figure_plain fig.
Proof.
  unfold fig5. intros H.
  apply bind_Ok_inv in H as (dt & _ & H). injection H as <-.
  apply figure_plain_update_layout; [| plain_layout].
  apply figure_plain_add_trace; [done |]. apply sanitizes_plain_trace.
  cbn [forallb snd sanitizes_plain num].
  rewrite !forallb_map_true; [done | done | done | intros; apply sanitizes_plain_label_py].
Qed.

Lemma fig6_plain data fig : fig6 sqrt data = Ok fig → figure_plain fig.
Proof.
  unfold fig6. intros H.
  apply bind_Ok_inv in H as (selected & _ & H).
  apply bind_Ok_inv in H as (m & _ & H). injection H as <-.
  apply figure_plain_update_layout; [| plain_layout].
  apply figure_plain_add_trace; [done |]. apply sanitizes_plain_trace.
  cbn [forallb snd sanitizes_plain].
  rewrite !forallb_map_true; [done | done |].
  intros row. cbn [sanitizes_plain]. by apply forallb_map_true.
Qed.

Lemma fig7_plain data fig : fig7 data = Ok fig → figure_plain fig.
Proof.
  unfold fig7. intros H.
  apply bind_Ok_inv in H as (kc & _ & H).
  apply bind_Ok_inv in H as (vc & _ & H).
  apply bind_Ok_inv in H as (means & _ & H). injection H as <-.
  apply figure_plain_update_layout; [| plain_layout].
  apply figure_plain_add_trace; [done | apply sanitizes_plain_price_bar].
Qed.

Lemma fig8_plain data fig : fig8 data = Ok fig → figure_plain fig.
Proof.
  unfold fig8. intros H.
  apply bind_Ok_inv in H as (xy & _ & H). injection H as <-.
  apply figure_plain_update_layout; [| plain_layout].
  apply figure_plain_add_trace; [done |]. apply sanitizes_plain_trace.
  cbn [forallb snd sanitizes_plain].
  rewrite !forallb_map_true; [done | done | intros; apply sanitizes_plain_label_py].
Qed.

Lemma stacked_gpu_device_plain data gpu_brands device_types rows :
  stacked_gpu_device data = Ok (gpu_brands, device_types, rows) →
  Forall (λ row, forallb sanitizes_plain row = true) rows.
Proof.
  unfold stacked_gpu_device. intros H.
  apply bind_Ok_inv in H as (gb & _ & H).
  apply bind_Ok_inv in H as (dt & _ & H).
  apply bind_Ok_inv in H as (rows' & Hrows & H). injection H as _ _ <-.
  revert Hrows. apply mapM_result_Forall. intros gpu row Hrow.
  apply forallb_forall. intros v Hv%list_elem_of_In. revert v Hv. apply Forall_forall.
  revert Hrow. unfold gpu_data. apply mapM_result_Forall. intros device v Hv.
  apply bind_Ok_inv in Hv as (? & _ & Hv).
  apply bind_Ok_inv in Hv as (? & _ & Hv).
  apply bind_Ok_inv in Hv as (? & _ & Hv). injection Hv as <-.
  apply sanitizes_plain_percentage.
Qed.

Lemma fig9_plain data fig : fig9 data = Ok fig → figure_plain fig.
Proof.
  unfold fig9. intros H.
  apply bind_Ok_inv in H as ([[gpu_brands device_types] rows] & Hdata & H).
  apply stacked_gpu_device_plain in Hdata.
  apply bind_Ok_inv in H as (fig0 & Hloop & H). injection H as <-.
  apply figure_plain_update_layout; [| plain_layout].
  revert Hloop. apply for_in_invariant; [| done].
  intros [i [gpu gpu_data]] t t' Hin Ht Hbody.
  apply bind_Ok_inv in Hbody as (color & _ & Hbody). injection Hbody as <-.
  apply figure_plain_add_trace; [done |]. apply sanitizes_plain_trace.
  cbn [forallb snd sanitizes_plain marker_color].
  rewrite sanitizes_plain_label_py, forallb_map_true by apply sanitizes_plain_label_py.
  apply elem_of_zip_r, elem_of_zip_r in Hin.
  rewrite Forall_forall in Hdata. by rewrite (Hdata gpu_data Hin).
Qed.

Lemma figures_plain g data name fig :
  (name, Ok fig) ∈ figures sqrt RandomState permutation g data → figure_plain fig.
Proof.
  unfold figures. rewrite !elem_of_cons, elem_of_nil.
  intros [H | [H | [H | [H | [H | [H | [H | [H | [H | []]]]]]]]]];
    injection H as _ H; symmetry in H.
  - by apply fig1_plain in H.
  - by apply fig2_plain in H.
  - by apply fig3_plain in H.
  - by apply fig4_plain in H.
  - by apply fig5_plain in H.
  - by apply fig6_plain in H.
  - by apply fig7_plain in H.
  - by apply fig8_plain in H.
  - by apply fig9_plain in H.
Qed.


End PlainFigures.




(** The table of three devices gets all nine charts. *)
Example three_devices_all_charts :
  map (λ name, bool_decide (is_Some (three_devices_charts !! name))) chart_names
  = replicate 9 true.
Proof. vm_compute. reflexivity. Qed.


(** * Further properties *)

(** ** The loader *)

Lemma lookup_foldr_delete_elem (m : gmap string column) (names : list string) (k : string) :
  k ∈ names → foldr delete m names !! k = None.
Proof.
  induction names as [| n names IH]; simpl; intros Hk.
  - by apply elem_of_nil in Hk.
  - destruct (decide (n = k)) as [-> | Hne]; [apply lookup_delete_eq |].
    rewrite lookup_delete_ne by done. apply IH.
    by apply elem_of_cons in Hk as [-> | Hk].
Qed.

Lemma lookup_foldr_delete_Some (m : gmap string column) (names : list string) k c :
  foldr delete m names !! k = Some c → m !! k = Some c.
Proof.
  induction names as [| n names IH]; simpl; [done |].
  intros H. apply lookup_delete_Some in H as [_ H]. by apply IH.
Qed.

(** The table that the loader computes the score on. *)
Lemma load_inv raw data :
  load_and_preprocess_data (Ok raw) = Some data →
  ∃ kept score,
    performance_score kept = Ok score
    ∧ data = setitem kept "performance_score" score
    ∧ nrows kept = nrows raw
    ∧ (∀ name, name ∈ columns_to_drop → cols kept !! name = None)
    ∧ (∀ name, name ∉ columns_to_drop → cols kept !! name = cols raw !! name).
Proof.
  unfold load_and_preprocess_data. cbn [mbind result_bind].
  set (existing := filter (λ col, has_column raw col = true) columns_to_drop).
  set (kept := match existing with [] => raw | _ => drop raw existing end).
  intros Hload.
  destruct (performance_score kept) as [score |] eqn:Hscore; [| discriminate].
  simpl in Hload. injection Hload as <-.
  exists kept, score. split; [done |]. split; [done |].
  split; [apply drop_existing_nrows |]. split; [| apply drop_existing_lookup].
  intros name Hname.
  destruct (cols raw !! name) as [c |] eqn:Hc.
  - assert (name ∈ existing) as Hin.
    { apply list_elem_of_filter. split; [| done].
      unfold has_column. apply bool_decide_eq_true_2. by rewrite Hc. }
    unfold kept. destruct existing as [| n names]; [by apply elem_of_nil in Hin |].
    unfold drop. cbn [cols]. by apply lookup_foldr_delete_elem.
  - unfold kept. destruct existing as [| n names]; [done |].
    unfold drop. cbn [cols].
    destruct (foldr delete (cols raw) (n :: names) !! name) as [c |] eqn:Hk; [| done].
    apply lookup_foldr_delete_Some in Hk. congruence.
Qed.

(** X1. The table that the loader returns has the rows of the table read,
    has none of the columns [battery_wh], [charger_watts] and [psu_watts],
    and has every other column of the table read unchanged, apart from
    [performance_score], which it sets. *)
Theorem loader_drops_unused_columns (raw data : DataFrame) :
  load_and_preprocess_data (Ok raw) = Some data →
  nrows data = nrows raw
  ∧ (∀ name, name ∈ columns_to_drop → cols data !! name = None)
  ∧ (∀ name, name ∉ columns_to_drop → name ≠ "performance_score" →
             cols data !! name = cols raw !! name).
Proof.
  intros (kept & score & _ & -> & Hn & Hdrop & Hkeep)%load_inv.
  unfold setitem. cbn [nrows cols]. split; [done |]. split.
  - intros name Hname. rewrite lookup_insert_ne; [by apply Hdrop |].
    intros <-. assert ("performance_score" ∉ columns_to_drop) by not_dropped. done.
  - intros name Hname Hne. rewrite lookup_insert_ne by done. by apply Hkeep.
Qed.


Lemma getitem_Some df name c : cols df !! name = Some c → getitem df name = Ok c.
Proof. unfold getitem. by intros ->. Qed.


(** X3. The loader keeps the table well formed: when every column of the
    table read has one entry per row, so has every column of the table
    returned, the new column [performance_score] included. *)
Theorem loader_keeps_well_formed (raw data : DataFrame) :
  wf_DataFrame raw →
  load_and_preprocess_data (Ok raw) = Some data →
  wf_DataFrame data.
Proof.
  intros Hwf (kept & score & Hscore & -> & Hn & Hdrop & Hkeep)%load_inv.
  assert (Hkept : ∀ name c, cols kept !! name = Some c → col_length c = nrows raw).
  { intros name c Hc. destruct (decide (name ∈ columns_to_drop)) as [Hin | Hout].
    - rewrite Hdrop in Hc by done. discriminate.
    - rewrite Hkeep in Hc by done. by apply (Hwf name). }
  intros name c. unfold setitem. cbn [cols nrows]. rewrite Hn.
  destruct (decide (name = "performance_score")) as [-> | Hne].
  - rewrite lookup_insert_eq. intros [= <-].
    apply performance_score_inv in Hscore
      as (ct & gt & cc & vr & rg & cb & H1 & H2 & H3 & H4 & H5 & H6 & ->).
    apply Hkept in H1, H2, H3, H4, H5, H6. simpl in *.
    rewrite !length_zip_with, !length_map. lia.
  - rewrite lookup_insert_ne by done. apply Hkept.
Qed.

(** X1, witness: the three devices with a column [psu_watts]. *)
Lemma loader_drops_unused_columns_witness :
  ∃ data,
    load_and_preprocess_data (Ok three_devices_psu) = Some data
    ∧ nrows data = 3
    ∧ cols data !! "psu_watts" = None
    ∧ cols data !! "price" = Some (NumCol [Some 1000; Some 2000; Some 3000]%Q).
Proof.
  assert (Hload : load_and_preprocess_data (Ok three_devices_psu)
                  = Some (default three_devices_psu
                            (load_and_preprocess_data (Ok three_devices_psu))))
    by (vm_compute; reflexivity).
  eexists. split; [exact Hload |].
  destruct (loader_drops_unused_columns _ _ Hload) as (Hn & Hdrop & Hkeep).
  split; [exact Hn |]. split.
  - apply Hdrop. unfold columns_to_drop. do 2 apply list_elem_of_further.
    apply list_elem_of_here.
  - rewrite Hkeep; [reflexivity | | discriminate].
    unfold columns_to_drop. rewrite !elem_of_cons, elem_of_nil.
    intros [H | [H | [H | []]]]; discriminate.
Defined.

(** X3, witness: the table of three devices. *)
Lemma loader_keeps_well_formed_witness : wf_DataFrame three_devices_loaded.
Proof.
  apply (loader_keeps_well_formed three_devices three_devices_loaded).
  - exact wf_three_devices.
  - vm_compute. reflexivity.
Defined.


(** ** The encoder *)

(** The outcome of the encoder on a list of values each of which is either
    encoded or rejected with [TypeError]. *)
Lemma mapM_result_outcome {A} (f : A → result (list token)) (ok : A → bool) (l : list A) :
  Forall (λ x, match f x with
               | Ok _ => ok x = true
               | Raise e => e = TypeError ∧ ok x = false
               end) l →
  match mapM_result f l with
  | Ok _ => forallb ok l = true
  | Raise e => e = TypeError ∧ forallb ok l = false
  end.
Proof.
  induction 1 as [| x l Hx _ IH]; simpl; [done |].
  destruct (f x) as [t | e]; [| by destruct Hx as [-> ->]].
  rewrite Hx. destruct (mapM_result f l) as [ts | e]; [done |].
  by destruct IH as [-> ->].
Qed.

Lemma json_dumps_outcome (v : pyval) :
  match json_dumps v with
  | Ok _ => json_encodable v = true
  | Raise e => e = TypeError ∧ json_encodable v = false
  end.
Proof.
  induction v as [v Hv | l IH | l IH | d IH] using pyval_nested_ind.
  - destruct v as [| [] | | | | [] | | | | | | |]; try discriminate; simpl; auto.
  - simpl. pose proof (mapM_result_outcome json_dumps json_encodable l IH) as H.
    destruct (mapM_result json_dumps l); simpl; done.
  - simpl. pose proof (mapM_result_outcome json_dumps json_encodable l IH) as H.
    destruct (mapM_result json_dumps l); simpl; done.
  - simpl.
    pose proof (mapM_result_outcome
      (λ kv, ts ← json_dumps (snd kv); Ok (key_token (fst kv) :: TColon :: ts))
      (λ kv, json_encodable (snd kv)) d) as H.
    destruct (mapM_result _ d); simpl; apply H;
      (eapply Forall_impl; [exact IH |]; intros [k x]; simpl;
       destruct (json_dumps x); simpl; done).
Qed.

(** X4. [json.dumps] writes a value exactly when the value holds no array,
    Series or Index and no numpy integer or boolean scalar; on every other
    value it raises [TypeError], and it raises nothing else. *)
Theorem json_dumps_accepts_iff (v : pyval) :
  ((∃ toks, json_dumps v = Ok toks) ↔ json_encodable v = true)
  ∧ (json_dumps v = Raise TypeError ↔ json_encodable v = false)
  ∧ (∀ e, json_dumps v = Raise e → e = TypeError).
Proof.
  pose proof (json_dumps_outcome v) as H.
  destruct (json_dumps v) as [toks | e] eqn:Hd.
  - rewrite H. split; [| split].
    + split; eauto.
    + split; discriminate.
    + discriminate.
  - destruct H as [-> H]. rewrite H. split; [| split].
    + split; [intros [? ?]; discriminate | discriminate].
    + done.
    + by intros e [= <-].
Qed.

Lemma mapM_result_ext_in {A B} (f g : A → result B) (l : list A) :
  Forall (λ x, f x = g x) l → mapM_result f l = mapM_result g l.
Proof.
  induction 1 as [| x l Hx _ IH]; simpl; [done | by rewrite Hx, IH].
Qed.

Lemma mapM_result_map {A B C} (f : B → result C) (g : A → B) (l : list A) :
  mapM_result f (map g l) = mapM_result (λ x, f (g x)) l.
Proof. induction l as [| x l IH]; simpl; [done | by rewrite IH]. Qed.

Lemma mapM_result_Ok_Forall {A B} (P : A → Prop) (f : A → result B) l ys :
  mapM_result f l = Ok ys → Forall (λ x, ∃ y, f x = Ok y) l.
Proof.
  revert ys. induction l as [| x l IH]; simpl; intros ys H; [constructor |].
  destruct (f x) as [y |] eqn:Hy; [| discriminate].
  destruct (mapM_result f l) as [ys' |] eqn:Hl; [| discriminate].
  constructor; eauto.
Qed.

(** X5. The sanitizer does not change what [json.dumps] writes for a value
    that [json.dumps] accepts as it is. *)
Theorem sanitize_keeps_encoding (v : pyval) (toks : list token) :
  json_dumps v = Ok toks → json_dumps (_sanitize v) = Ok toks.
Proof.
  revert toks.
  induction v as [v Hv | l IH | l IH | d IH] using pyval_nested_ind; intros toks.
  - destruct v; try done; simpl; discriminate.
  - simpl. intros H. apply bind_Ok_inv in H as (parts & Hparts & H).
    rewrite mapM_result_map.
    rewrite (mapM_result_ext_in _ json_dumps l), Hparts; [done |].
    pose proof (mapM_result_Ok_Forall (λ _, True) _ _ _ Hparts) as Hok.
    apply Forall_forall. intros x Hx.
    rewrite Forall_forall in IH, Hok. destruct (Hok x Hx) as [t Ht].
    rewrite Ht. by apply IH.
  - simpl. intros H. apply bind_Ok_inv in H as (parts & Hparts & H).
    rewrite mapM_result_map.
    rewrite (mapM_result_ext_in _ json_dumps l), Hparts; [done |].
    pose proof (mapM_result_Ok_Forall (λ _, True) _ _ _ Hparts) as Hok.
    apply Forall_forall. intros x Hx.
    rewrite Forall_forall in IH, Hok. destruct (Hok x Hx) as [t Ht].
    rewrite Ht. by apply IH.
  - simpl. intros H. apply bind_Ok_inv in H as (parts & Hparts & H).
    rewrite mapM_result_map.
    rewrite (mapM_result_ext_in _
      (λ kv, ts ← json_dumps (snd kv); Ok (key_token (fst kv) :: TColon :: ts)) d),
      Hparts; [done |].
    pose proof (mapM_result_Ok_Forall (λ _, True) _ _ _ Hparts) as Hok.
    apply Forall_forall. intros [k x] Hx. simpl.
    rewrite Forall_forall in IH, Hok. destruct (Hok (k, x) Hx) as [t Ht].
    simpl in Ht. apply bind_Ok_inv in Ht as (ts & Hts & _).
    pose proof (IH (k, x) Hx ts Hts) as Hs. simpl in Hs. by rewrite Hts, Hs.
Qed.

(** X5, witness: a tuple of an integer and a [numpy.float64] NaN. *)
Lemma sanitize_keeps_encoding_witness :
  json_dumps (_sanitize (PTuple [PInt 1; PNpScalar (NpFloat FNaN)]))
  = Ok [TLBracket; TInt 1; TComma; TNaN; TRBracket].
Proof. apply sanitize_keeps_encoding. reflexivity. Defined.

(** ** The statistics engine: keys and errors *)

Section StatisticsKeys.
Variable sqrt : Q → Q.

(** A loop whose body stores a value under the name of each column that
    the table has, and does nothing for the others, ends with a value for
    the keys it started with and for the columns of the list that the table
    has. *)
Lemma for_in_keys (data : DataFrame)
    (body : string → gmap string pyval → result (gmap string pyval))
    (l : list string) (stats stats' : gmap string pyval) :
  (∀ col s s', body col s = Ok s' →
     (has_column data col = true ∧ ∃ v, s' = <[col := v]> s)
     ∨ (has_column data col = false ∧ s' = s)) →
  for_in l body stats = Ok stats' →
  ∀ k, is_Some (stats' !! k)
       ↔ is_Some (stats !! k) ∨ (k ∈ l ∧ has_column data k = true).
Proof.
  intros Hbody. revert stats. induction l as [| col l IH]; simpl; intros stats Hrun k.
  - injection Hrun as <-. rewrite elem_of_nil. naive_solver.
  - apply bind_Ok_inv in Hrun as (s1 & Hs1 & Hrun).
    rewrite (IH s1 Hrun k), elem_of_cons.
    destruct (Hbody col stats s1 Hs1) as [[Hcol [v ->]] | [Hcol ->]].
    + destruct (decide (k = col)) as [-> | Hne].
      * rewrite lookup_insert_eq. naive_solver.
      * rewrite lookup_insert_ne by done. naive_solver.
    + split; [naive_solver |]. intros [? | [[-> | ?] ?]]; [auto | congruence | auto].
Qed.

Lemma categorical_entry_shape data col s s' :
  categorical_entry sqrt data col s = Ok s' →
  (has_column data col = true ∧ ∃ v, s' = <[col := v]> s)
  ∨ (has_column data col = false ∧ s' = s).
Proof.
  unfold categorical_entry. destruct (has_column data col); [| intros [= <-]; auto].
  intros H. apply bind_Ok_inv in H as (c & _ & H). injection H as <-. eauto.
Qed.

Lemma numerical_entry_shape data col s s' :
  numerical_entry sqrt data col s = Ok s' →
  (has_column data col = true ∧ ∃ v, s' = <[col := v]> s)
  ∨ (has_column data col = false ∧ s' = s).
Proof.
  unfold numerical_entry. destruct (has_column data col); [| intros [= <-]; auto].
  intros H. apply bind_Ok_inv in H as (c & _ & H).
  apply bind_Ok_inv in H as (q1 & _ & H).
  apply bind_Ok_inv in H as (q2 & _ & H).
  apply bind_Ok_inv in H as (q3 & _ & H). injection H as <-. eauto.
Qed.

(** X6. When the statistics engine returns, its result has an entry for
    exactly the listed columns, categorical or numerical, that the table
    has: a listed column that the table lacks is skipped, and a column that
    is not listed is left out. *)
Theorem statistics_keys (data : DataFrame) (stats : gmap string pyval) :
  get_descriptive_statistics sqrt (Some data) = Ok stats →
  ∀ col, is_Some (stats !! col)
         ↔ (col ∈ categorical_cols ∨ col ∈ numerical_cols)
           ∧ is_Some (cols data !! col).
Proof.
  unfold get_descriptive_statistics. intros H col.
  apply bind_Ok_inv in H as (s1 & H1 & H).
  apply bind_Ok_inv in H as (s2 & H2 & H). injection H as <-.
  rewrite (for_in_keys data _ _ _ _ (numerical_entry_shape data) H2 col).
  rewrite (for_in_keys data _ _ _ _ (categorical_entry_shape data) H1 col).
  rewrite lookup_empty. unfold has_column. rewrite !bool_decide_eq_true.
  split.
  - intros [[[? ?] | [? ?]] | [? ?]]; [done | auto | auto].
  - intros [[? | ?] ?]; auto.
Qed.




End StatisticsKeys.

(** X6, witness: the statistics of the three devices have an entry for the
    price and none for the model, a column that the table lacks. *)
Lemma statistics_keys_witness :
  ∃ stats,
    get_descriptive_statistics approx_sqrt (Some three_devices) = Ok stats
    ∧ is_Some (stats !! "price") ∧ ¬ is_Some (stats !! "model").
Proof.
  destruct (get_descriptive_statistics_numeric approx_sqrt three_devices
              three_devices_numeric) as (stats & Hrun & _).
  exists stats. split; [exact Hrun |].
  pose proof (statistics_keys approx_sqrt three_devices stats Hrun) as Hkeys.
  split.
  - apply Hkeys. split; [| by eexists].
    right. do 16 apply list_elem_of_further. apply list_elem_of_here.
  - intros [_ [c Hc]]%Hkeys. discriminate.
Defined.


(** ** The quartiles *)

Lemma lerp_linear a b t : (lerp a b t == a + (b - a) * t)%Q.
Proof. unfold lerp. destruct (Qle_bool (1 # 2) t); ring. Qed.

Lemma sorted_lookup_le (arr : list Q) i j x y :
  StronglySorted Qle arr → i ≤ j → arr !! i = Some x → arr !! j = Some y → (x <= y)%Q.
Proof.
  intros Hs Hij Hi Hj. destruct (decide (i = j)) as [-> | Hne].
  - rewrite Hi in Hj. injection Hj as <-. apply Qle_refl.
  - apply (StronglySorted_lookup Qle arr i j); [done | lia | done | done].
Qed.

Lemma Qfloor_nat_bounds (n1 : nat) (v : Q) :
  (0 <= v)%Q → (v <= Qnat n1)%Q →
  ∃ p : nat, Qfloor v = Z.of_nat p ∧ p ≤ n1
             ∧ (0 <= v - Qnat p)%Q ∧ (v - Qnat p < 1)%Q.
Proof.
  intros H0 Hn. pose proof (Qfloor_le v) as Hle. pose proof (Qlt_floor v) as Hlt.
  rewrite inject_Z_plus in Hlt. change (inject_Z 1) with 1%Q in Hlt.
  assert (0 <= Qfloor v)%Z as Hpos.
  { destruct (Z_lt_le_dec (Qfloor v) 0) as [Hneg | ?]; [| done]. exfalso.
    assert (Qfloor v <= -1)%Z as H by lia. rewrite Zle_Qle in H.
    change (inject_Z (-1)) with (-1)%Q in H. lra. }
  exists (Z.to_nat (Qfloor v)). rewrite Z2Nat.id by done. split; [done |].
  unfold Qnat in *. rewrite Z2Nat.id by done.
  split; [| split; lra].
  assert (inject_Z (Qfloor v) <= inject_Z (Z.of_nat n1))%Q as H by lra.
  rewrite <- Zle_Qle in H. lia.
Qed.

(** The quantile of a non-empty ascending array is the interpolation
    between the entries at the floor of the virtual index and next to it. *)
Lemma quantile_sorted_shape (arr : list Q) (n1 : nat) (q : Q) :
  length arr = S n1 → (0 <= q)%Q → (q <= 1)%Q →
  ∃ p a b g,
    p ≤ n1 ∧ arr !! p = Some a ∧ arr !! Nat.min (p + 1) n1 = Some b
    ∧ (0 <= g)%Q ∧ (g < 1)%Q ∧ (Qnat n1 * q == Qnat p + g)%Q
    ∧ quantile_sorted arr q = Some (lerp a b g).
Proof.
  intros Hlen H0 H1. unfold quantile_sorted. rewrite Hlen.
  assert (0 <= Qnat n1)%Q as Hn.
  { unfold Qnat. change 0%Q with (inject_Z 0). rewrite <- Zle_Qle. lia. }
  destruct (Qfloor_nat_bounds n1 (Qnat n1 * q)) as (p & Hp & Hpn & Hg0 & Hg1); [nra | nra |].
  rewrite Hp, Nat2Z.id.
  destruct (lookup_lt_is_Some_2 arr p) as [a Ha]; [lia |].
  destruct (lookup_lt_is_Some_2 arr (Nat.min (p + 1) n1)) as [b Hb]; [lia |].
  exists p, a, b, (Qnat n1 * q - Qnat p)%Q.
  rewrite Ha, Hb. simpl. repeat split; try done. ring.
Qed.

Lemma quantile_sorted_mono (arr : list Q) (q q' : Q) :
  StronglySorted Qle arr → arr ≠ [] →
  (0 <= q)%Q → (q <= q')%Q → (q' <= 1)%Q →
  ∃ r r', quantile_sorted arr q = Some r ∧ quantile_sorted arr q' = Some r'
          ∧ (r <= r')%Q.
Proof.
  intros Hs Hne H0 Hqq H1.
  destruct arr as [| x0 rest] eqn:Harr; [done |]. rewrite <- Harr in *.
  assert (length arr = S (length rest)) as Hlen by (by rewrite Harr).
  destruct (quantile_sorted_shape arr (length rest) q Hlen)
    as (p & a & b & g & Hp & Ha & Hb & Hg0 & Hg1 & Hv & ->); [lra | lra |].
  destruct (quantile_sorted_shape arr (length rest) q' Hlen)
    as (p' & a' & b' & g' & Hp' & Ha' & Hb' & Hg0' & Hg1' & Hv' & ->); [lra | lra |].
  eexists _, _. split; [done |]. split; [done |].
  assert (0 <= Qnat (length rest))%Q as Hn.
  { unfold Qnat. change 0%Q with (inject_Z 0). rewrite <- Zle_Qle. lia. }
  assert (Qnat p + g <= Qnat p' + g')%Q as Hle by (rewrite <- Hv, <- Hv'; nra).
  assert (a <= b)%Q as Hab by (apply (sorted_lookup_le arr p (Nat.min (p + 1) (length rest))); [done | lia | done | done]).
  assert (a' <= b')%Q as Hab' by (apply (sorted_lookup_le arr p' (Nat.min (p' + 1) (length rest))); [done | lia | done | done]).
  rewrite !lerp_linear.
  destruct (decide (p = p')) as [<- | Hpp].
  - rewrite Ha in Ha'. injection Ha' as <-. rewrite Hb in Hb'. injection Hb' as <-.
    assert (g <= g')%Q by lra. nra.
  - assert (p < p') as Hlt.
    { destruct (decide (p < p')) as [? | Hge]; [done |]. exfalso.
      assert (p' + 1 ≤ p) as Hge' by lia. apply Qnat_le in Hge'.
      rewrite Qnat_plus in Hge'. change (Qnat 1) with 1%Q in Hge'. lra. }
    assert (b <= a')%Q as Hba.
    { apply (sorted_lookup_le arr (Nat.min (p + 1) (length rest)) p'); [done | lia | done | done]. }
    nra.
Qed.

Lemma quantile_sorted_between (arr : list Q) (q : Q) :
  StronglySorted Qle arr → arr ≠ [] → (0 <= q)%Q → (q <= 1)%Q →
  ∃ r lo hi, quantile_sorted arr q = Some r ∧ lo ∈ arr ∧ hi ∈ arr
             ∧ (lo <= r)%Q ∧ (r <= hi)%Q.
Proof.
  intros Hs Hne H0 H1.
  destruct arr as [| x0 rest] eqn:Harr; [done |]. rewrite <- Harr in *.
  assert (length arr = S (length rest)) as Hlen by (by rewrite Harr).
  destruct (quantile_sorted_shape arr (length rest) q Hlen)
    as (p & a & b & g & Hp & Ha & Hb & Hg0 & Hg1 & Hv & ->); [lra | lra |].
  exists (lerp a b g), a, b. split; [done |].
  split; [by eapply list_elem_of_lookup_2 |]. split; [by eapply list_elem_of_lookup_2 |].
  assert (a <= b)%Q as Hab by (apply (sorted_lookup_le arr p (Nat.min (p + 1) (length rest))); [done | lia | done | done]).
  rewrite !lerp_linear. split; nra.
Qed.

Lemma foldl_Qmin_le (x : Q) (l : list Q) :
  (foldl Qmin x l <= x)%Q ∧ ∀ y, y ∈ l → (foldl Qmin x l <= y)%Q.
Proof.
  revert x. induction l as [| z l IH]; intros x; simpl.
  - split; [apply Qle_refl |]. intros y Hy. by apply elem_of_nil in Hy.
  - destruct (IH (Qmin x z)) as [H1 H2]. split.
    + eapply Qle_trans; [exact H1 | apply Q.le_min_l].
    + intros y [-> | Hy]%elem_of_cons; [| by apply H2].
      eapply Qle_trans; [exact H1 | apply Q.le_min_r].
Qed.

Lemma foldl_Qmax_ge (x : Q) (l : list Q) :
  (x <= foldl Qmax x l)%Q ∧ ∀ y, y ∈ l → (y <= foldl Qmax x l)%Q.
Proof.
  revert x. induction l as [| z l IH]; intros x; simpl.
  - split; [apply Qle_refl |]. intros y Hy. by apply elem_of_nil in Hy.
  - destruct (IH (Qmax x z)) as [H1 H2]. split.
    + eapply Qle_trans; [apply Q.le_max_l | exact H1].
    + intros y [-> | Hy]%elem_of_cons; [| by apply H2].
      eapply Qle_trans; [apply Q.le_max_r | exact H1].
Qed.

Lemma Qmin_list_le (l : list Q) (x : Q) :
  x ∈ l → ∃ lo, Qmin_list l = Some lo ∧ (lo <= x)%Q.
Proof.
  destruct l as [| z l]; [by intros ?%elem_of_nil |].
  intros Hx. eexists. split; [done |].
  destruct (foldl_Qmin_le z l) as [H1 H2].
  apply elem_of_cons in Hx as [-> | Hx]; [done | by apply H2].
Qed.

Lemma Qmax_list_ge (l : list Q) (x : Q) :
  x ∈ l → ∃ hi, Qmax_list l = Some hi ∧ (x <= hi)%Q.
Proof.
  destruct l as [| z l]; [by intros ?%elem_of_nil |].
  intros Hx. eexists. split; [done |].
  destruct (foldl_Qmax_ge z l) as [H1 H2].
  apply elem_of_cons in Hx as [-> | Hx]; [done | by apply H2].
Qed.

(** The three quartiles of a column with a value: in order, and between
    the smallest and the largest value. *)
Lemma quartiles_of_values (xs : list Q) :
  xs ≠ [] →
  ∃ lo a b c hi,
    Qmin_list xs = Some lo ∧ Qmax_list xs = Some hi
    ∧ quantile_sorted (sort_by Qle_bool xs) 0.25 = Some a
    ∧ quantile_sorted (sort_by Qle_bool xs) 0.5 = Some b
    ∧ quantile_sorted (sort_by Qle_bool xs) 0.75 = Some c
    ∧ (lo <= a)%Q ∧ (a <= b)%Q ∧ (b <= c)%Q ∧ (c <= hi)%Q.
Proof.
  intros Hne. destruct (sort_by_Qle_sorted xs) as [Hs Hp].
  assert (sort_by Qle_bool xs ≠ []) as Hne'.
  { intros H. rewrite H in Hp. by apply Permutation_nil_l in Hp. }
  destruct (quantile_sorted_mono _ 0.25 0.5 Hs Hne') as (a & b & Ha & Hb & Hab); [lra.. |].
  destruct (quantile_sorted_mono _ 0.5 0.75 Hs Hne') as (b' & c & Hb' & Hc & Hbc); [lra.. |].
  rewrite Hb in Hb'. injection Hb' as <-.
  destruct (quantile_sorted_between _ 0.25 Hs Hne') as (a' & x & _ & Ha' & Hx & _ & Hxa & _); [lra.. |].
  rewrite Ha in Ha'. injection Ha' as <-.
  destruct (quantile_sorted_between _ 0.75 Hs Hne') as (c' & _ & y & Hc' & _ & Hy & _ & Hcy); [lra.. |].
  rewrite Hc in Hc'. injection Hc' as <-.
  rewrite Hp in Hx, Hy.
  destruct (Qmin_list_le xs x Hx) as (lo & Hlo & Hlox).
  destruct (Qmax_list_ge xs y Hy) as (hi & Hhi & Hyhi).
  exists lo, a, b, c, hi. repeat split; try done; lra.
Qed.

Section Quartiles.
Variable sqrt : Q → Q.

(** X8. On a table whose numerical columns hold numbers, the record of
    every numerical column has its three quartiles in ascending order and
    between the minimum and the maximum of the column's values that are not
    missing, which are the [min] and [max] of its [describe] summary; a
    column with no value at all has three missing quartiles. *)
Theorem quartiles_ordered (data : DataFrame) :
  numerical_columns_numeric data →
  ∃ stats,
    get_descriptive_statistics sqrt (Some data) = Ok stats
    ∧ ∀ col l, col ∈ numerical_cols → cols data !! col = Some (NumCol l) →
        ∃ q1 q2 q3,
          stats !! col = Some (numerical_record (describe sqrt (NumCol l)) q1 q2 q3)
          ∧ (count l = 0 → q1 = None ∧ q2 = None ∧ q3 = None)
          ∧ (0 < count l →
             ∃ lo a b c hi,
               Qmin_list (dropna l) = Some lo ∧ Qmax_list (dropna l) = Some hi
               ∧ q1 = Some a ∧ q2 = Some b ∧ q3 = Some c
               ∧ (lo <= a)%Q ∧ (a <= b)%Q ∧ (b <= c)%Q ∧ (c <= hi)%Q).
Proof.
  intros Hnum.
  destruct (get_descriptive_statistics_numeric sqrt data Hnum) as (stats & Hrun & Hget).
  exists stats. split; [done |]. intros col l Hin Hcol.
  eexists _, _, _. split; [by apply Hget |]. split.
  - unfold count. intros Hz. apply nil_length_inv in Hz. by rewrite Hz.
  - unfold count. intros Hpos.
    destruct (quartiles_of_values (dropna l)) as (lo & a & b & c & hi & H);
      [by intros H; rewrite H in Hpos; simpl in Hpos; lia |].
    exists lo, a, b, c, hi. tauto.
Qed.

End Quartiles.

(** X8, witness: the prices of the three devices. *)
Lemma quartiles_ordered_witness :
  ∃ stats,
    get_descriptive_statistics approx_sqrt (Some three_devices) = Ok stats
    ∧ ∃ q1 q2 q3,
        stats !! "price"
        = Some (numerical_record
                  (describe approx_sqrt (NumCol [Some 1000; Some 2000; Some 3000]%Q))
                  q1 q2 q3)
        ∧ ∃ lo a b c hi,
            Qmin_list [1000; 2000; 3000]%Q = Some lo
            ∧ Qmax_list [1000; 2000; 3000]%Q = Some hi
            ∧ q1 = Some a ∧ q2 = Some b ∧ q3 = Some c
            ∧ (lo <= a)%Q ∧ (a <= b)%Q ∧ (b <= c)%Q ∧ (c <= hi)%Q.
Proof.
  destruct (quartiles_ordered approx_sqrt three_devices three_devices_numeric)
    as (stats & Hrun & Hq).
  exists stats. split; [exact Hrun |].
  destruct (Hq "price" [Some 1000; Some 2000; Some 3000]%Q)
    as (q1 & q2 & q3 & Hrec & _ & Hpos).
  - do 16 apply list_elem_of_further. apply list_elem_of_here.
  - reflexivity.
  - exists q1, q2, q3. split; [exact Hrec |]. apply Hpos. unfold count, dropna. simpl. lia.
Defined.

(** ** Counting values *)

Lemma occurrences_cons k x ks :
  occurrences k (x :: ks) = (if decide (x = k) then 1 else 0) + occurrences k ks.
Proof. unfold occurrences. rewrite filter_cons. by destruct (decide (x = k)). Qed.

Lemma sum_indicator (x : label) (ks : list label) :
  NoDup ks → x ∈ ks → sum_list_with (λ k, if decide (x = k) then 1 else 0) ks = 1.
Proof.
  induction 1 as [| k ks Hk Hnd IH]; [by intros ?%elem_of_nil |].
  simpl. intros [-> | Hin]%elem_of_cons.
  - rewrite decide_True by done. rewrite sum_list_with_zero; [done |].
    intros z Hz. rewrite decide_False; [done | by intros <-].
  - rewrite decide_False by (by intros ->). by rewrite IH.
Qed.

(** Every value is counted once, under its own key. *)
Lemma occurrences_total (keys ks : list label) :
  NoDup keys → (∀ x, x ∈ ks → x ∈ keys) →
  sum_list_with (λ k, occurrences k ks) keys = length ks.
Proof.
  intros Hnd. induction ks as [| x ks IH]; intros Hin.
  - apply sum_list_with_zero. by intros.
  - rewrite (sum_list_with_ext _ (λ k, (if decide (x = k) then 1 else 0) + occurrences k ks))
      by (intros k; apply occurrences_cons).
    rewrite sum_list_with_plus, sum_indicator; [| done | apply Hin, list_elem_of_here].
    rewrite IH; [done |]. intros z Hz. by apply Hin, list_elem_of_further.
Qed.

Lemma occurrences_rows_with k c : occurrences k (dropna (labels c)) = rows_with k c.
Proof.
  unfold occurrences, rows_with. induction (labels c) as [| [x |] l IH]; simpl; [done | |].
  - rewrite !filter_cons. destruct (decide (x = k)) as [-> | Hne].
    + rewrite decide_True by done. simpl. by rewrite IH.
    + rewrite decide_False by congruence. done.
  - rewrite filter_cons, decide_False by done. done.
Qed.

Lemma sum_list_with_map {A B} (f : B → nat) (g : A → B) (l : list A) :
  sum_list_with f (map g l) = sum_list_with (λ x, f (g x)) l.
Proof. induction l as [| x l IH]; simpl; [done | by rewrite IH]. Qed.

(** The counts of [value_counts] add up to the number of entries that are
    not missing. *)
Lemma value_counts_total c :
  sum_list_with snd (value_counts c) = count (labels c).
Proof.
  unfold value_counts. rewrite sort_by_Permutation, sum_list_with_map. simpl.
  apply occurrences_total; [apply NoDup_unique |]. intros x. by rewrite elem_of_unique.
Qed.

(** Every pair of [value_counts] is a value of the column with the number
    of its rows. *)
Lemma value_counts_entry c k n :
  (k, n) ∈ value_counts c → Some k ∈ labels c ∧ n = rows_with k c ∧ 0 < n.
Proof.
  unfold value_counts. rewrite sort_by_Permutation.
  intros (k' & [= -> ->] & Hk)%list_elem_of_fmap.
  apply elem_of_unique, elem_of_dropna in Hk.
  rewrite occurrences_rows_with. split; [done |]. split; [done |]. by apply rows_with_pos.
Qed.

Lemma value_counts_complete c k :
  Some k ∈ labels c → (k, rows_with k c) ∈ value_counts c.
Proof.
  intros Hk. unfold value_counts. rewrite sort_by_Permutation.
  apply list_elem_of_fmap. exists k. rewrite occurrences_rows_with. split; [done |].
  by apply elem_of_unique, elem_of_dropna.
Qed.

Lemma StronglySorted_weaken {A} (R R' : relation A) (l : list A) :
  (∀ a b, R a b → R' a b) → StronglySorted R l → StronglySorted R' l.
Proof.
  intros HR. induction 1 as [| x l Hl IH Hx]; constructor; [done |].
  eapply Forall_impl; [exact Hx |]. intros y. apply HR.
Qed.

(** [value_counts] lists the most frequent value first. *)
Lemma value_counts_sorted c :
  StronglySorted (λ a b : label * nat, snd b ≤ snd a) (value_counts c).
Proof.
  unfold value_counts.
  eapply StronglySorted_weaken; [| apply sort_by_StronglySorted].
  - intros a b H. simpl in H. by apply Nat.leb_le in H.
  - intros x y. destruct (Nat.le_ge_cases (snd y) (snd x)) as [H | H];
      [left | right]; by apply Nat.leb_le.
  - intros x y z. rewrite !Nat.leb_le. lia.
Qed.

Lemma length_value_counts c : length (value_counts c) = length (unique (dropna (labels c))).
Proof. by rewrite <- (length_map fst), value_counts_keys. Qed.

(** The first [n] pairs of a list in descending order are at least as
    large as every pair left out. *)
Lemma take_sorted_top {A} (R : relation A) (l : list A) (n : nat) x y :
  StronglySorted R l → x ∈ take n l → y ∈ l → y ∉ take n l → R x y.
Proof.
  intros Hs Hx Hy Hny.
  apply list_elem_of_lookup in Hx as [i Hi]. apply list_elem_of_lookup in Hy as [j Hj].
  pose proof (lookup_lt_Some _ _ _ Hi) as Hlt. rewrite length_take in Hlt.
  rewrite lookup_take_lt in Hi by lia.
  destruct (decide (j < n)) as [Hjn | Hjn].
  - exfalso. apply Hny. apply list_elem_of_lookup. exists j. by rewrite lookup_take_lt.
  - apply (StronglySorted_lookup R l i j); [done | lia | done | done].
Qed.

Lemma StronglySorted_take {A} (R : relation A) (l : list A) (n : nat) :
  StronglySorted R l → StronglySorted R (take n l).
Proof.
  intros Hs. revert n. induction Hs as [| x l Hl IH Hx]; intros [| n]; simpl;
    try constructor; [apply IH |].
  apply Forall_forall. intros y Hy. rewrite Forall_forall in Hx. apply Hx.
  eapply elem_of_sublist; [exact Hy | apply sublist_take].
Qed.


(** ** The records of the statistics engine *)

Lemma NoDup_categorical_cols : NoDup categorical_cols.
Proof. apply (bool_decide_unpack _). by vm_compute. Qed.

Lemma categorical_not_numerical col : col ∈ categorical_cols → col ∉ numerical_cols.
Proof.
  intros H1 H2.
  assert (Forall (λ c, c ∉ numerical_cols) categorical_cols) as Hall
    by (apply (bool_decide_unpack _); by vm_compute).
  rewrite Forall_forall in Hall. by apply (Hall col).
Qed.

(** A loop over distinct names whose body stores the record of a name, if
    it has one, ends with these records and touches no other key. *)
Lemma for_in_lookup (rec : string → option pyval)
    (body : string → gmap string pyval → result (gmap string pyval))
    (l : list string) (s s' : gmap string pyval) :
  NoDup l →
  (∀ col t t', body col t = Ok t' →
     t' = match rec col with Some v => <[col := v]> t | None => t end) →
  for_in l body s = Ok s' →
  ∀ k, s' !! k = if decide (k ∈ l)
                 then match rec k with Some v => Some v | None => s !! k end
                 else s !! k.
Proof.
  intros Hnd Hbody. revert s. induction Hnd as [| col l Hcol Hnd IH]; simpl; intros s Hrun k.
  - injection Hrun as <-. destruct (decide (k ∈ [])) as [Hk | _]; [| done].
    by apply elem_of_nil in Hk.
  - apply bind_Ok_inv in Hrun as (t & Ht & Hrun).
    rewrite (IH t Hrun k). apply Hbody in Ht. subst t.
    destruct (decide (k = col)) as [-> | Hne].
    + destruct (decide (col ∈ l)) as [? | _]; [done |].
      destruct (decide (col ∈ col :: l)) as [_ | Hn];
        [| exfalso; apply Hn, list_elem_of_here].
      destruct (rec col); [apply lookup_insert_eq | done].
    + destruct (decide (k ∈ l)) as [Hin | Hout];
        destruct (decide (k ∈ col :: l)) as [Hin' | Hout'].
      * destruct (rec k); [done |].
        destruct (rec col); [by apply lookup_insert_ne | done].
      * exfalso. by apply Hout', list_elem_of_further.
      * exfalso. apply elem_of_cons in Hin' as [? | ?]; done.
      * destruct (rec col); [by apply lookup_insert_ne | done].
Qed.

Section Records.
Variable sqrt : Q → Q.

Lemma categorical_entry_record data col t t' :
  categorical_entry sqrt data col t = Ok t' →
  t' = match categorical_record_of sqrt <$> cols data !! col with
       | Some v => <[col := v]> t
       | None => t
       end.
Proof.
  unfold categorical_entry, getitem. destruct (cols data !! col) as [c |] eqn:Hc.
  - rewrite (has_column_true _ _ _ Hc). simpl. by intros [= <-].
  - rewrite (has_column_false _ _ Hc). simpl. by intros [= <-].
Qed.

Lemma numerical_entry_record data col t t' :
  numerical_entry sqrt data col t = Ok t' →
  t' = match match cols data !! col with
             | Some (NumCol l) => Some (numerical_record_of sqrt l)
             | _ => None
             end with
       | Some v => <[col := v]> t
       | None => t
       end.
Proof.
  destruct (cols data !! col) as [[l | l] |] eqn:Hc.
  - rewrite (numerical_entry_NumCol sqrt _ _ _ _ Hc). by intros [= <-].
  - unfold numerical_entry, getitem.
    rewrite (has_column_true _ _ _ Hc), Hc. discriminate.
  - rewrite (numerical_entry_missing sqrt _ _ _ Hc). by intros [= <-].
Qed.

(** What the engine returns holds, for every column, the record of the
    column and nothing else. *)
Lemma statistics_records (data : DataFrame) (stats : gmap string pyval) :
  get_descriptive_statistics sqrt (Some data) = Ok stats →
  ∀ col, stats !! col = statistics_record sqrt data col.
Proof.
  unfold get_descriptive_statistics. intros H col.
  apply bind_Ok_inv in H as (s1 & H1 & H).
  apply bind_Ok_inv in H as (s2 & H2 & H). injection H as <-.
  rewrite (for_in_lookup _ _ _ _ _ NoDup_numerical_cols
             (numerical_entry_record data) H2 col).
  rewrite (for_in_lookup _ _ _ _ _ NoDup_categorical_cols
             (categorical_entry_record data) H1 col).
  rewrite lookup_empty. unfold statistics_record.
  destruct (decide (col ∈ categorical_cols)) as [Hc | Hc].
  - rewrite (bool_decide_eq_true_2 _ Hc).
    rewrite decide_False by (by apply categorical_not_numerical).
    by destruct (cols data !! col).
  - rewrite (bool_decide_eq_false_2 _ Hc).
    destruct (decide (col ∈ numerical_cols)) as [Hn | Hn].
    + rewrite (bool_decide_eq_true_2 _ Hn). by destruct (cols data !! col) as [[l | l] |].
    + rewrite (bool_decide_eq_false_2 _ Hn). by destruct (cols data !! col).
Qed.

(** X9. When the statistics engine returns, the record of a categorical
    column that the table has is tagged [categorical]; its [total_unique]
    is the number of distinct values of the column that are not missing;
    its [value_counts] holds ten of them, or all when they are fewer, each
    once and with the number of its rows, the most frequent first; and no
    value left out has more rows than a value listed. *)
Theorem categorical_record_top_ten (data : DataFrame) (stats : gmap string pyval)
    (col : string) (c : column) :
  get_descriptive_statistics sqrt (Some data) = Ok stats →
  col ∈ categorical_cols →
  cols data !! col = Some c →
  ∃ record top,
    stats !! col = Some record
    ∧ dict_get "type" record = Some (PStr "categorical")
    ∧ dict_get "value_counts" record = Some (counts_dict top)
    ∧ dict_get "total_unique" record
      = Some (PInt (Z.of_nat (length (unique (dropna (labels c))))))
    ∧ length top = Nat.min 10 (length (unique (dropna (labels c))))
    ∧ NoDup (map fst top)
    ∧ (∀ k n, (k, n) ∈ top → Some k ∈ labels c ∧ n = rows_with k c ∧ 0 < n)
    ∧ StronglySorted (λ a b : label * nat, snd b ≤ snd a) top
    ∧ (∀ k kv, Some k ∈ labels c → k ∉ map fst top → kv ∈ top →
               rows_with k c ≤ snd kv).
Proof.
  intros Hrun Hcat Hcol. pose proof (statistics_records data stats Hrun col) as Hrec.
  unfold statistics_record in Hrec.
  rewrite Hcol, (bool_decide_eq_true_2 _ Hcat) in Hrec.
  exists (categorical_record_of sqrt c), (take 10 (value_counts c)).
  split; [done |]. split; [done |]. split; [done |].
  split; [by rewrite <- length_value_counts |].
  split; [by rewrite length_take, length_value_counts |].
  split; [apply NoDup_value_counts |].
  split; [| split].
  - intros k n Hin. apply value_counts_entry.
    eapply elem_of_sublist; [exact Hin | apply sublist_take].
  - apply StronglySorted_take, value_counts_sorted.
  - intros k kv Hk Hout Hkv.
    apply (take_sorted_top (λ a b : label * nat, snd b ≤ snd a) (value_counts c) 10
             kv (k, rows_with k c)); [apply value_counts_sorted | done | |].
    + by apply value_counts_complete.
    + intros Hin. apply Hout. apply list_elem_of_fmap. by exists (k, rows_with k c).
Qed.
End Records.

(** X9, witness: the brands of the three devices. *)
Lemma categorical_record_top_ten_witness :
  ∃ stats record top,
    get_descriptive_statistics approx_sqrt (Some three_devices) = Ok stats
    ∧ stats !! "brand" = Some record
    ∧ dict_get "value_counts" record = Some (counts_dict top)
    ∧ length top = 2.
Proof.
  destruct (get_descriptive_statistics_numeric approx_sqrt three_devices
              three_devices_numeric) as (stats & Hrun & _).
  destruct (categorical_record_top_ten approx_sqrt three_devices stats "brand"
              (StrCol [Some "A"; Some "A"; Some "B"]) Hrun)
    as (record & top & Hrec & _ & Hvc & _ & Hlen & _).
  - apply list_elem_of_further, list_elem_of_here.
  - reflexivity.
  - exists stats, record, top. split; [exact Hrun |]. split; [exact Hrec |].
    split; [exact Hvc |]. exact Hlen.
Defined.

(** ** When the chart builder returns charts *)

Lemma for_in_Ok {S A} (l : list A) (body : A → S → result S) (s : S) :
  (∀ x t, x ∈ l → ∃ t', body x t = Ok t') → ∃ s', for_in l body s = Ok s'.
Proof.
  revert s. induction l as [| x l IH]; simpl; intros s Hbody; [eauto |].
  destruct (Hbody x s) as [t ->]; [apply list_elem_of_here |]. simpl.
  apply IH. intros y t' Hy. apply Hbody. by apply list_elem_of_further.
Qed.

Lemma mapM_result_returns {A B} (f : A → result B) (l : list A) :
  (∀ x, x ∈ l → ∃ y, f x = Ok y) → ∃ ys, mapM_result f l = Ok ys.
Proof.
  induction l as [| x l IH]; simpl; intros Hf; [eauto |].
  destruct (Hf x) as [y ->]; [apply list_elem_of_here |].
  destruct IH as [ys ->]; [| eauto].
  intros z Hz. apply Hf. by apply list_elem_of_further.
Qed.

Lemma mapM_result_Raise {A B} (f : A → result B) (l : list A) x e :
  x ∈ l → f x = Raise e → ∃ e', mapM_result f l = Raise e'.
Proof.
  induction l as [| y l IH]; simpl; intros Hin Hx; [by apply elem_of_nil in Hin |].
  apply elem_of_cons in Hin as [<- | Hin].
  - rewrite Hx. eauto.
  - destruct (f y); [| eauto]. destruct (IH Hin Hx) as [e' ->]. eauto.
Qed.

Lemma has_column_Some data name :
  has_column data name = true → ∃ c, cols data !! name = Some c.
Proof. unfold has_column. intros [c Hc]%bool_decide_eq_true. eauto. Qed.

Section Complete.
Variable sqrt : Q → Q.
Context {rng_state : Type}.
Variable RandomState : Z → rng_state.
Variable permutation : rng_state → nat → list nat.

Lemma fig1_Ok g data xs ys :
  cols data !! "performance_score" = Some xs → cols data !! "price" = Some ys →
  ∃ fig, fig1 RandomState permutation g data = Ok fig.
Proof.
  intros Hx Hy. unfold fig1.
  destruct (sample_within RandomState permutation g data
              (Nat.min 2000 (df_len data)) (Some 42%Z))
    as (idx & -> & _); [unfold df_len; lia |].
  cbn [mbind result_bind]. rewrite !getitem_fmap.
  rewrite (getitem_Some _ _ _ Hx), (getitem_Some _ _ _ Hy).
  cbn [mbind result_bind]. eauto.
Qed.

Lemma fig2_Ok data kc l :
  cols data !! "brand" = Some kc → cols data !! "price" = Some (NumCol l) →
  ∃ fig, fig2 data = Ok fig.
Proof.
  intros Hk Hv. unfold fig2.
  rewrite (getitem_Some _ _ _ Hk), (getitem_Some _ _ _ Hv).
  cbn [mbind result_bind groupby_mean]. eauto.
Qed.

Lemma fig3_Ok data os price :
  cols data !! "os" = Some os → cols data !! "price" = Some price →
  ∃ fig, fig3 data = Ok fig.
Proof.
  intros Ho Hp. unfold fig3. rewrite (getitem_Some _ _ _ Ho).
  cbn [mbind result_bind].
  match goal with
  | |- ∃ fig, (for_in ?l ?body ?s ≫= _) = _ =>
      destruct (for_in_Ok l body s) as [fig0 ->]; [| cbn [mbind result_bind]; eauto]
  end.
  intros os_name t _. unfold df_select. rewrite !getitem_fmap.
  rewrite (getitem_Some _ _ _ Ho). cbn [mbind result_bind].
  rewrite !getitem_fmap, (getitem_Some _ _ _ Hp). cbn [mbind result_bind]. eauto.
Qed.

Lemma fig4_Ok data price :
  cols data !! "price" = Some price → ∃ fig, fig4 data = Ok fig.
Proof.
  intros Hp. unfold fig4. rewrite (getitem_Some _ _ _ Hp).
  cbn [mbind result_bind]. eauto.
Qed.

Lemma fig5_Ok data dt :
  cols data !! "device_type" = Some dt → ∃ fig, fig5 data = Ok fig.
Proof.
  intros Hd. unfold fig5. rewrite (getitem_Some _ _ _ Hd).
  cbn [mbind result_bind]. eauto.
Qed.

(** The columns of the correlation matrix: those of the list that the
    table has. *)
Lemma available_cols_selected data :
  mapM_result (getitem data) (filter (λ col, has_column data col = true) numeric_cols)
  = Ok (map (λ col, default (NumCol []) (cols data !! col))
            (filter (λ col, has_column data col = true) numeric_cols)).
Proof.
  apply mapM_result_Ok. intros col [Hcol _]%list_elem_of_filter.
  apply has_column_Some in Hcol as [c Hc]. rewrite Hc. by apply getitem_Some.
Qed.

Lemma fig6_Ok data :
  (∀ name c, name ∈ numeric_cols → cols data !! name = Some c → ∃ l, c = NumCol l) →
  ∃ fig, fig6 sqrt data = Ok fig.
Proof.
  intros Hnum. unfold fig6. rewrite available_cols_selected.
  cbn [mbind result_bind]. unfold corr. rewrite mapM_result_map.
  match goal with
  | |- ∃ fig, ((mapM_result ?f ?l ≫= _) ≫= _) = _ =>
      destruct (mapM_result_returns f l) as [nums ->];
        [| cbn [mbind result_bind]; eauto]
  end.
  intros col [Hcol Hin]%list_elem_of_filter.
  apply has_column_Some in Hcol as [c Hc]. rewrite Hc. simpl.
  destruct (Hnum col c Hin Hc) as [l ->]. eauto.
Qed.

Lemma fig6_StrCol data name l :
  name ∈ numeric_cols → cols data !! name = Some (StrCol l) →
  ∃ e, fig6 sqrt data = Raise e.
Proof.
  intros Hin Hc. unfold fig6. rewrite available_cols_selected.
  cbn [mbind result_bind]. unfold corr. rewrite mapM_result_map.
  match goal with
  | |- ∃ e, ((mapM_result ?f ?l ≫= _) ≫= _) = _ =>
      destruct (mapM_result_Raise f l name ValueError) as [e' ->];
        [| | cbn [mbind result_bind]; eauto]
  end.
  - apply list_elem_of_filter. split; [by apply has_column_true with (StrCol l) | done].
  - by rewrite Hc.
Qed.

Lemma fig7_Ok data kc l :
  cols data !! "cpu_brand" = Some kc → cols data !! "price" = Some (NumCol l) →
  ∃ fig, fig7 data = Ok fig.
Proof.
  intros Hk Hv. unfold fig7.
  rewrite (getitem_Some _ _ _ Hk), (getitem_Some _ _ _ Hv).
  cbn [mbind result_bind groupby_mean]. eauto.
Qed.

Lemma fig8_Ok data kc l :
  cols data !! "release_year" = Some kc → cols data !! "price" = Some (NumCol l) →
  ∃ fig, fig8 data = Ok fig.
Proof.
  intros Hk Hv. unfold fig8, line_price_trend.
  rewrite (getitem_Some _ _ _ Hk), (getitem_Some _ _ _ Hv).
  cbn [mbind result_bind yearly_stats]. eauto.
Qed.

Lemma stacked_gpu_device_Ok data gb dt :
  cols data !! "gpu_brand" = Some gb → cols data !! "device_type" = Some dt →
  ∃ rows,
    stacked_gpu_device data
    = Ok (map fst (take 5 (value_counts gb)), map fst (value_counts dt), rows).
Proof.
  intros Hg Hd. unfold stacked_gpu_device.
  rewrite (getitem_Some _ _ _ Hg), (getitem_Some _ _ _ Hd).
  cbn [mbind result_bind].
  match goal with
  | |- ∃ rows, (mapM_result ?f ?l ≫= _) = _ =>
      destruct (mapM_result_returns f l) as [rows ->];
        [| cbn [mbind result_bind]; eauto]
  end.
  intros gpu _. unfold gpu_data. apply mapM_result_returns. intros device _.
  rewrite (getitem_Some _ _ _ Hg), (getitem_Some _ _ _ Hd).
  cbn [mbind result_bind]. eauto.
Qed.

Lemma fig9_Ok data gb dt :
  cols data !! "gpu_brand" = Some gb → cols data !! "device_type" = Some dt →
  ∃ fig, fig9 data = Ok fig.
Proof.
  intros Hg Hd. unfold fig9.
  destruct (stacked_gpu_device_Ok data gb dt Hg Hd) as [rows ->].
  cbn [mbind result_bind].
  match goal with
  | |- ∃ fig, (for_in ?l ?body ?s ≫= _) = _ =>
      destruct (for_in_Ok l body s) as [fig0 ->]; [| cbn [mbind result_bind]; eauto]
  end.
  intros [i [gpu row]] t Hin. apply elem_of_zip_l in Hin.
  apply elem_of_seq in Hin as [_ Hi]. rewrite length_map, length_take in Hi.
  destruct (lookup_lt_is_Some_2 colors_gpu i) as [color Hcolor];
    [unfold colors_gpu; simpl; lia |].
  rewrite Hcolor. cbn [mbind result_bind]. eauto.
Qed.

(** A block whose figures are all computed and serialized stores them
    all. *)
Lemma run_steps_Ok steps (charts0 : gmap string (list token)) :
  (∀ step, step ∈ steps → ∃ fig js, snd step = Ok fig ∧ _fig_json fig = Ok js) →
  ∃ charts, run_steps steps charts0 = (charts, None).
Proof.
  revert charts0. induction steps as [| [name fig] steps IH]; simpl; intros charts0 Hok.
  - eauto.
  - destruct (Hok (name, fig)) as (f & js & Hf & Hjs); [apply list_elem_of_here |].
    simpl in Hf. subst fig. unfold store_chart. cbn [mbind result_bind fst snd].
    rewrite Hjs. apply IH. intros step Hstep. apply Hok. by apply list_elem_of_further.
Qed.

Lemma required_column_Some data name :
  forallb (has_column data) required_columns = true → name ∈ required_columns →
  ∃ c, cols data !! name = Some c.
Proof.
  intros Hall Hin. apply has_column_Some.
  rewrite forallb_forall in Hall. by apply Hall, list_elem_of_In.
Qed.

Lemma numeric_col_NumCol data name c :
  forallb (λ name, match cols data !! name with
                   | Some (StrCol _) => false
                   | _ => true
                   end) numeric_cols = true →
  name ∈ numeric_cols → cols data !! name = Some c → ∃ l, c = NumCol l.
Proof.
  intros Hall Hin Hc. rewrite forallb_forall in Hall.
  specialize (Hall name (proj1 (list_elem_of_In _ _) Hin)). rewrite Hc in Hall.
  destruct c as [l | l]; [eauto | discriminate].
Qed.

Lemma figures_Ok g data :
  charts_computable data = true →
  ∀ step, step ∈ figures sqrt RandomState permutation g data →
          ∃ fig js, snd step = Ok fig ∧ _fig_json fig = Ok js.
Proof.
  unfold charts_computable. intros [Hreq Hnum]%andb_prop.
  assert (Hcol : ∀ name, name ∈ required_columns → ∃ c, cols data !! name = Some c)
    by (intros name; by apply required_column_Some).
  destruct (Hcol "performance_score") as [ps Hps]; [unfold required_columns; set_solver |].
  destruct (Hcol "price") as [price Hprice]; [unfold required_columns; set_solver |].
  destruct (Hcol "brand") as [brand Hbrand]; [unfold required_columns; set_solver |].
  destruct (Hcol "os") as [os Hos]; [unfold required_columns; set_solver |].
  destruct (Hcol "device_type") as [dt Hdt]; [unfold required_columns; set_solver |].
  destruct (Hcol "cpu_brand") as [cb Hcb]; [unfold required_columns; set_solver |].
  destruct (Hcol "release_year") as [ry Hry]; [unfold required_columns; set_solver |].
  destruct (Hcol "gpu_brand") as [gb Hgb]; [unfold required_columns; set_solver |].
  destruct (numeric_col_NumCol data "price" price Hnum) as [l ->];
    [unfold numeric_cols; set_solver | done |].
  intros step Hstep.
  assert (Hfig : ∃ fig, snd step = Ok fig).
  { unfold figures in Hstep. rewrite !elem_of_cons, elem_of_nil in Hstep.
    destruct Hstep as [-> | [-> | [-> | [-> | [-> | [-> | [-> | [-> | [-> | []]]]]]]]]];
      cbn [snd].
    - by apply fig1_Ok with ps (NumCol l).
    - by apply fig2_Ok with brand l.
    - by apply fig3_Ok with os (NumCol l).
    - by apply fig4_Ok with (NumCol l).
    - by apply fig5_Ok with dt.
    - apply fig6_Ok. intros name c. by apply numeric_col_NumCol.
    - by apply fig7_Ok with cb l.
    - by apply fig8_Ok with ry l.
    - by apply fig9_Ok with gb dt. }
  destruct Hfig as [fig Hfig]. exists fig.
  destruct (json_dumps_plain (_sanitize (to_plotly_json fig))) as [js Hjs].
  { apply figure_plain_sanitized.
    apply (figures_plain sqrt RandomState permutation g data (fst step)).
    rewrite <- Hfig. by destruct step. }
  by exists js.
Qed.

Lemma figures_raise g data :
  charts_computable data = false →
  ∃ chart e, (chart, Raise e) ∈ figures sqrt RandomState permutation g data.
Proof.
  unfold charts_computable. intros [Hreq | Hnum]%andb_false_iff.
  - assert (∃ name, name ∈ required_columns ∧ cols data !! name = None)
      as (name & Hin & Hmiss).
    { induction required_columns as [| name names IH]; [discriminate |].
      simpl in Hreq. apply andb_false_iff in Hreq as [Hname | Hrest].
      - exists name. split; [apply list_elem_of_here |].
        unfold has_column in Hname. apply bool_decide_eq_false in Hname.
        destruct (cols data !! name); [| done]. exfalso. by apply Hname.
      - destruct (IH Hrest) as (n & Hn & Hm). exists n.
        split; [by apply list_elem_of_further | done]. }
    by apply figures_missing with name.
  - assert (∃ name l, name ∈ numeric_cols ∧ cols data !! name = Some (StrCol l))
      as (name & l & Hin & Hc).
    { induction numeric_cols as [| name names IH]; [discriminate |].
      simpl in Hnum. apply andb_false_iff in Hnum as [Hname | Hrest].
      - destruct (cols data !! name) as [[l | l] |] eqn:Hc; try discriminate.
        exists name, l. split; [apply list_elem_of_here | done].
      - destruct (IH Hrest) as (n & l & Hn & Hm). exists n, l.
        split; [by apply list_elem_of_further | done]. }
    destruct (fig6_StrCol data name l Hin Hc) as [e He].
    exists "heatmap_correlation", e. unfold figures. rewrite He.
    do 5 apply list_elem_of_further. apply list_elem_of_here.
Qed.

(** The outcome of the builder on a loaded table. *)
Lemma create_plotly_charts_cases (g : rng_state) (data : DataFrame) :
  if charts_computable data
  then ∃ charts,
         create_plotly_charts sqrt RandomState permutation g (Some data) = Ok charts
         ∧ dom charts = list_to_set chart_names
  else create_plotly_charts sqrt RandomState permutation g (Some data) = Ok ∅.
Proof.
  unfold create_plotly_charts. rewrite try_block_steps.
  destruct (charts_computable data) eqn:Hc.
  - destruct (run_steps_Ok (figures sqrt RandomState permutation g data) ∅
                (figures_Ok g data Hc)) as [charts Hrun].
    rewrite Hrun. exists charts. split; [done |].
    apply run_steps_dom in Hrun. rewrite Hrun. set_solver.
  - destruct (figures_raise g data Hc) as (chart & e & Hstep).
    destruct (run_steps_raise _ _ _ ∅ Hstep) as [e' He'].
    destruct (run_steps _ ∅) as [charts [e'' |]]; [done | discriminate].
Qed.

(** X10. The chart builder returns all nine charts exactly on the tables
    on which every chart can be computed: the eight columns that the
    charts read without a test exist, and no column of the correlation
    matrix that the table has holds strings. On every other table it
    returns the empty mapping. *)
Theorem chart_builder_complete (g : rng_state) (data : DataFrame) :
  ∃ charts,
    create_plotly_charts sqrt RandomState permutation g (Some data) = Ok charts
    ∧ (charts_computable data = true → dom charts = list_to_set chart_names)
    ∧ (charts_computable data = false → charts = ∅).
Proof.
  pose proof (create_plotly_charts_cases g data) as H.
  destruct (charts_computable data).
  - destruct H as (charts & Hrun & Hdom). exists charts.
    split; [done |]. split; [done | discriminate].
  - exists ∅. split; [done |]. split; [discriminate | done].
Qed.
End Complete.

(** X10, witness: every chart of the three devices can be computed. *)
Lemma chart_builder_complete_witness :
  ∃ charts,
    create_plotly_charts approx_sqrt id reversing_permutation 0%Z (Some three_devices)
    = Ok charts
    ∧ dom charts = list_to_set chart_names.
Proof.
  destruct (chart_builder_complete approx_sqrt id reversing_permutation 0%Z three_devices)
    as (charts & Hrun & Hall & _).
  exists charts. split; [exact Hrun |]. apply Hall. vm_compute. reflexivity.
Defined.

(** ** The bar charts of mean prices *)

Lemma StronglySorted_app_2 {A} (R : relation A) (l k : list A) :
  StronglySorted R l → StronglySorted R k →
  (∀ x y, x ∈ l → y ∈ k → R x y) → StronglySorted R (l ++ k).
Proof.
  intros Hl Hk Hlk. induction Hl as [| x l Hl IH Hx]; simpl; [done |].
  constructor.
  - apply IH. intros a b Ha. apply Hlk. by apply list_elem_of_further.
  - apply Forall_app. split; [done |].
    apply Forall_forall. intros y Hy. apply Hlk; [apply list_elem_of_here | done].
Qed.

Lemma StronglySorted_map {A B} (R : relation A) (R' : relation B) (f : A → B) l :
  (∀ a b, R a b → R' (f a) (f b)) → StronglySorted R l → StronglySorted R' (map f l).
Proof.
  intros HR. induction 1 as [| x l Hl IH Hx]; simpl; constructor; [done |].
  apply Forall_forall. intros y (a & -> & Ha)%list_elem_of_fmap.
  rewrite Forall_forall in Hx. by apply HR, Hx.
Qed.

Lemma StronglySorted_all {A} (R : relation A) l :
  (∀ x y, x ∈ l → y ∈ l → R x y) → StronglySorted R l.
Proof.
  induction l as [| x l IH]; intros H; constructor.
  - apply IH. intros a b Ha Hb. apply H; by apply list_elem_of_further.
  - apply Forall_forall. intros y Hy.
    apply H; [apply list_elem_of_here | by apply list_elem_of_further].
Qed.

(** [sort_values] rearranges the entries. *)
Lemma sort_values_desc_Permutation (s : list (label * option Q)) :
  sort_values_desc s ≡ₚ s.
Proof.
  unfold sort_values_desc.
  rewrite sort_by_Permutation.
  induction s as [| [k [v |]] s IH]; simpl; [done | |].
  - rewrite filter_cons, decide_False by done. simpl. by rewrite IH.
  - rewrite filter_cons, decide_True by done.
    rewrite <- Permutation_middle. by rewrite IH.
Qed.

(** [sort_values(ascending=False)] puts the largest value first and the
    missing ones last. *)
Lemma sort_values_desc_sorted (s : list (label * option Q)) :
  StronglySorted (λ a b, price_desc (snd a) (snd b)) (sort_values_desc s).
Proof.
  unfold sort_values_desc. apply StronglySorted_app_2.
  - eapply StronglySorted_map; [| apply sort_by_StronglySorted].
    + intros a b H. simpl in *. by apply Qle_bool_iff in H.
    + intros x y. destruct (Qlt_le_dec (snd x) (snd y)) as [H | H].
      * right. apply Qle_bool_iff. lra.
      * left. by apply Qle_bool_iff.
    + intros x y z. rewrite !Qle_bool_iff. lra.
  - apply StronglySorted_all. intros x y _ [Hy _]%list_elem_of_filter.
    rewrite Hy. by destruct (snd x).
  - intros x y _ [Hy _]%list_elem_of_filter. rewrite Hy. by destruct (snd x).
Qed.

Lemma groupby_mean_NumCol kc vs :
  groupby_mean kc (NumCol vs) = Ok (map (λ k, (k, group_mean k kc vs)) (group_keys kc)).
Proof. reflexivity. Qed.

(** The sorted means: one entry per key of the column, with the mean of
    its rows. *)
Lemma sorted_means kc vs :
  let bars := sort_values_desc (map (λ k, (k, group_mean k kc vs)) (group_keys kc)) in
  NoDup (map fst bars)
  ∧ length bars = length (group_keys kc)
  ∧ (∀ k v, (k, v) ∈ bars ↔ Some k ∈ labels kc ∧ v = group_mean k kc vs)
  ∧ StronglySorted (λ a b, price_desc (snd a) (snd b)) bars.
Proof.
  intros bars.
  assert (Hp : bars ≡ₚ map (λ k, (k, group_mean k kc vs)) (group_keys kc))
    by apply sort_values_desc_Permutation.
  split; [| split; [| split]].
  - rewrite Hp, map_map. simpl. rewrite map_id. apply NoDup_group_keys.
  - by rewrite Hp, length_map.
  - intros k v. rewrite Hp. rewrite <- elem_of_group_keys. split.
    + by intros (k' & [= -> ->] & Hk)%list_elem_of_fmap.
    + intros [Hk ->]. apply list_elem_of_fmap. by exists k.
  - apply sort_values_desc_sorted.
Qed.

Lemma NoDup_map_fst_take {A B} (l : list (A * B)) n :
  NoDup (map fst l) → NoDup (map fst (take n l)).
Proof.
  intros H. change (map fst (take n l)) with (fst <$> take n l).
  rewrite fmap_take. eapply sublist_NoDup; [exact H | apply sublist_take].
Qed.

(** X11. The chart [bar_top_brands] has one bar per brand for ten brands,
    or for all when they are fewer: the bars are distinct brands of the
    table, each with the mean of the prices of its rows and the label of
    that mean in whole dollars, the highest mean first and a brand without
    a price last; and no brand left out has a higher mean than a brand
    shown. *)
Theorem bar_top_brands_highest_means (data : DataFrame) (kc : column)
    (vs : list (option Q)) :
  cols data !! "brand" = Some kc →
  cols data !! "price" = Some (NumCol vs) →
  ∃ fig bars,
    fig2 data = Ok fig
    ∧ trace_array fig 0 "x" = Some (map (λ kv, label_py (fst kv)) bars)
    ∧ trace_array fig 0 "y" = Some (map (λ kv, py_float (snd kv)) bars)
    ∧ trace_array fig 0 "text" = Some (map (λ kv, PStr (format_dollar (snd kv))) bars)
    ∧ length bars = Nat.min 10 (length (group_keys kc))
    ∧ NoDup (map fst bars)
    ∧ (∀ k v, (k, v) ∈ bars → Some k ∈ labels kc ∧ v = group_mean k kc vs)
    ∧ StronglySorted (λ a b, price_desc (snd a) (snd b)) bars
    ∧ (∀ k kv, Some k ∈ labels kc → k ∉ map fst bars → kv ∈ bars →
               price_desc (snd kv) (group_mean k kc vs)).
Proof.
  intros Hk Hv. unfold fig2.
  rewrite (getitem_Some _ _ _ Hk), (getitem_Some _ _ _ Hv).
  cbn [mbind result_bind]. rewrite groupby_mean_NumCol. cbn [mbind result_bind].
  destruct (sorted_means kc vs) as (Hnd & Hlen & Hin & Hs).
  set (all := sort_values_desc (map (λ k, (k, group_mean k kc vs)) (group_keys kc))) in *.
  eexists _, (take 10 all). split; [reflexivity |].
  split; [reflexivity |]. split; [reflexivity |]. split; [reflexivity |].
  split; [by rewrite length_take, Hlen |].
  split; [by apply NoDup_map_fst_take |].
  split; [| split].
  - intros k v Hkv. apply Hin. eapply elem_of_sublist; [exact Hkv | apply sublist_take].
  - by apply StronglySorted_take.
  - intros k kv Hkin Hout Hkv.
    apply (take_sorted_top (λ a b, price_desc (snd a) (snd b)) all 10
             kv (k, group_mean k kc vs)); [done | done | by apply Hin |].
    intros Hin'. apply Hout. apply list_elem_of_fmap. by exists (k, group_mean k kc vs).
Qed.

(** X12. The chart [bar_cpu_brand] has exactly one bar for every CPU
    brand of the table, with the mean of the prices of its rows, the
    highest mean first and a brand without a price last. *)
Theorem bar_cpu_brand_all_brands (data : DataFrame) (kc : column)
    (vs : list (option Q)) :
  cols data !! "cpu_brand" = Some kc →
  cols data !! "price" = Some (NumCol vs) →
  ∃ fig bars,
    fig7 data = Ok fig
    ∧ trace_array fig 0 "x" = Some (map (λ kv, label_py (fst kv)) bars)
    ∧ trace_array fig 0 "y" = Some (map (λ kv, py_float (snd kv)) bars)
    ∧ NoDup (map fst bars)
    ∧ (∀ k v, (k, v) ∈ bars ↔ Some k ∈ labels kc ∧ v = group_mean k kc vs)
    ∧ StronglySorted (λ a b, price_desc (snd a) (snd b)) bars.
Proof.
  intros Hk Hv. unfold fig7.
  rewrite (getitem_Some _ _ _ Hk), (getitem_Some _ _ _ Hv).
  cbn [mbind result_bind]. rewrite groupby_mean_NumCol. cbn [mbind result_bind].
  destruct (sorted_means kc vs) as (Hnd & Hlen & Hin & Hs).
  eexists _, _. split; [reflexivity |].
  split; [reflexivity |]. split; [reflexivity |]. done.
Qed.

(** X11, witness: the two brands of the three devices. *)
Lemma bar_top_brands_highest_means_witness :
  ∃ fig (bars : list (label * option Q)),
    fig2 three_devices = Ok fig
    ∧ trace_array fig 0 "y" = Some (map (λ kv, py_float (snd kv)) bars)
    ∧ length bars = 2.
Proof.
  destruct (bar_top_brands_highest_means three_devices
              (StrCol [Some "A"; Some "A"; Some "B"])
              [Some 1000; Some 2000; Some 3000]%Q eq_refl eq_refl)
    as (fig & bars & Hfig & _ & Hy & _ & Hlen & _).
  exists fig, bars. split; [exact Hfig |]. split; [exact Hy |].
  rewrite Hlen. vm_compute. reflexivity.
Defined.

(** X12, witness: the two CPU brands of the three devices. *)
Lemma bar_cpu_brand_all_brands_witness :
  ∃ fig (bars : list (label * option Q)),
    fig7 three_devices = Ok fig
    ∧ trace_array fig 0 "x" = Some (map (λ kv, label_py (fst kv)) bars)
    ∧ (LStr "AMD", Some 2000%Q) ∈ bars.
Proof.
  destruct (bar_cpu_brand_all_brands three_devices
              (StrCol [Some "Intel"; Some "AMD"; Some "Intel"])
              [Some 1000; Some 2000; Some 3000]%Q eq_refl eq_refl)
    as (fig & bars & Hfig & Hx & _ & _ & Hin & _).
  exists fig, bars. split; [exact Hfig |]. split; [exact Hx |].
  apply Hin. split; [| vm_compute; reflexivity].
  simpl. apply list_elem_of_further, list_elem_of_here.
Defined.

(** ** The box chart *)

Lemma select_nil_r {A} (mask : list bool) : select mask ([] : list A) = [].
Proof. by destruct mask. Qed.

Lemma select_map {A B} (f : A → B) (mask : list bool) (l : list A) :
  select mask (map f l) = map f (select mask l).
Proof.
  revert l. induction mask as [| b mask IH]; intros [| x l]; simpl; try done.
  destruct b; simpl; by rewrite IH.
Qed.

(** Selecting by [f] among the rows selected by [g] is selecting by [f]
    when [f] holds only where [g] does. *)
Lemma select_select {A B} (f g : A → bool) (ks : list A) (vs : list B) :
  (∀ k, f k = true → g k = true) →
  select (map f (select (map g ks) ks)) (select (map g ks) vs) = select (map f ks) vs.
Proof.
  intros Hfg. revert vs. induction ks as [| k ks IH]; intros [| v vs]; simpl; try done.
  - destruct (g k); simpl; [| by rewrite select_nil_r]. by destruct (f k).
  - destruct (g k) eqn:Hg; simpl.
    + destruct (f k); by rewrite IH.
    + destruct (f k) eqn:Hf; [| apply IH]. apply Hfg in Hf. congruence.
Qed.

Lemma labels_col_select mask c : labels (col_select mask c) = select mask (labels c).
Proof. destruct c; simpl; by rewrite select_map. Qed.

Lemma cells_col_select mask c : cells (col_select mask c) = select mask (cells c).
Proof. destruct c; simpl; by rewrite select_map. Qed.

Lemma zip_with_map_map {A} (op : bool → bool → bool) (f g : A → bool) (l : list A) :
  zip_with op (map f l) (map g l) = map (λ x, op (f x) (g x)) l.
Proof. induction l as [| x l IH]; simpl; [done | by rewrite IH]. Qed.

(** [isin] in terms of the labels of the column. *)
Lemma isin_labels c (vs : list label) :
  Forall canonical vs →
  isin c vs = map (λ x, bool_decide (x ∈ (Some <$> vs))) (labels c).
Proof.
  unfold isin. induction 1 as [| v vs Hv _ IH]; simpl.
  - rewrite <- length_labels. induction (labels c) as [| x l IHl]; simpl; [done |].
    by rewrite IHl.
  - rewrite IH, series_eq_labels by done. rewrite zip_with_map_map.
    apply map_ext. intros x.
    destruct (decide (x = Some v)) as [-> | Hne].
    + rewrite (bool_decide_eq_true_2 (Some v = Some v)) by done. simpl.
      symmetry. apply bool_decide_eq_true_2, list_elem_of_here.
    + rewrite (bool_decide_eq_false_2 (x = Some v)) by done. simpl.
      apply bool_decide_ext. rewrite elem_of_cons. naive_solver.
Qed.

(** A loop that adds one trace per element. *)
Lemma for_in_traces {A} (l : list A) (t : A → pyval)
    (body : A → Figure → result Figure) (fig : Figure) :
  (∀ x f, x ∈ l → body x f = Ok (add_trace f (t x))) →
  for_in l body fig = Ok (mkFigure (fig_data fig ++ map t l) (fig_layout fig)).
Proof.
  revert fig. induction l as [| x l IH]; simpl; intros fig Hbody.
  - rewrite app_nil_r. by destruct fig.
  - rewrite (Hbody x fig) by apply list_elem_of_here. cbn [mbind result_bind].
    rewrite IH by (intros y f Hy; apply Hbody; by apply list_elem_of_further).
    unfold add_trace. cbn [fig_data fig_layout]. by rewrite <- app_assoc.
Qed.

(** The box of an operating system among the most frequent ones. *)
Lemma box_of_os data os price os_list name :
  cols data !! "os" = Some os → cols data !! "price" = Some price →
  Forall canonical os_list → name ∈ os_list →
  let filtered_data := df_select data (isin os os_list) in
  (fos ← getitem filtered_data "os";
   let selected := df_select filtered_data (series_eq fos name) in
   getitem selected "price")
  = Ok (col_select (map (λ x, bool_decide (x = Some name)) (labels os)) price).
Proof.
  intros Ho Hp Hcan Hin. cbn zeta. unfold df_select. rewrite !getitem_fmap.
  rewrite (getitem_Some _ _ _ Ho). cbn [mbind result_bind].
  rewrite !getitem_fmap, (getitem_Some _ _ _ Hp). cbn [mbind result_bind]. f_equal.
  assert (canonical name) as Hname by (rewrite Forall_forall in Hcan; by apply Hcan).
  rewrite series_eq_labels, labels_col_select, isin_labels by done.
  destruct price as [l | l]; simpl; f_equal; apply select_select;
    intros k [= ->]%bool_decide_eq_true; apply bool_decide_eq_true_2;
    apply list_elem_of_fmap; eauto.
Qed.

(** X13. The chart [box_price_os] has one box for each of the eight
    operating systems with the most rows, or for all when they are fewer,
    in that order: the box carries the name of its operating system and
    the prices of exactly the rows of the table with that operating
    system, in the order of the rows; and no operating system left out has
    more rows than one shown. *)
Theorem box_price_os_boxes (data : DataFrame) (os price : column) :
  cols data !! "os" = Some os →
  cols data !! "price" = Some price →
  ∃ fig names,
    fig3 data = Ok fig
    ∧ length (fig_data fig) = length names
    ∧ length names = Nat.min 8 (length (unique (dropna (labels os))))
    ∧ NoDup names
    ∧ (∀ k, k ∈ names → Some k ∈ labels os)
    ∧ (∀ k k', k ∈ names → Some k' ∈ labels os → k' ∉ names →
               rows_with k' os ≤ rows_with k os)
    ∧ (∀ i name, names !! i = Some name →
         (fig_data fig !! i ≫= dict_get "name") = Some (label_py name)
         ∧ trace_array fig i "y"
           = Some (map item (group_values name (labels os) (cells price)))).
Proof.
  intros Ho Hp. unfold fig3. rewrite (getitem_Some _ _ _ Ho).
  cbn [mbind result_bind].
  set (names := map fst (take 8 (value_counts os))).
  assert (Hlab : ∀ k, k ∈ names → Some k ∈ labels os)
    by (intros k; apply elem_of_value_counts).
  assert (Hcan : Forall canonical names).
  { apply Forall_forall. intros k Hk. apply (labels_canonical os). by apply Hlab. }
  rewrite (for_in_traces names
    (λ name, go_Box [(KeyStr "y", Series_tolist
                        (col_select (map (λ x, bool_decide (x = Some name)) (labels os)) price));
                     (KeyStr "name", label_py name);
                     (KeyStr "boxpoints", PStr "outliers")])).
  2:{ intros name f Hin.
      pose proof (box_of_os data os price names name Ho Hp Hcan Hin) as Hbox.
      cbn zeta in Hbox. apply bind_Ok_inv in Hbox as (fos & Hfos & Hbox).
      rewrite Hfos. cbn [mbind result_bind]. rewrite Hbox. done. }
  cbn [mbind result_bind]. eexists _, names. split; [reflexivity |].
  unfold update_layout, go_Figure. cbn [fig_data fig_layout app].
  split; [by rewrite length_map |].
  split; [unfold names; by rewrite length_map, length_take, length_value_counts |].
  split; [apply NoDup_value_counts |]. split; [done |]. split.
  - intros k k' Hk Hk' Hout.
    apply list_elem_of_fmap in Hk as ([k0 n] & -> & Hkn). simpl.
    assert ((k0, n) ∈ value_counts os) as Hkn'
      by (eapply elem_of_sublist; [exact Hkn | apply sublist_take]).
    apply value_counts_entry in Hkn' as (_ & -> & _).
    apply (take_sorted_top (λ a b : label * nat, snd b ≤ snd a) (value_counts os) 8
             (k0, rows_with k0 os) (k', rows_with k' os));
      [apply value_counts_sorted | done | by apply value_counts_complete |].
    intros Hin'. apply Hout. apply list_elem_of_fmap. by exists (k', rows_with k' os).
  - intros i name Hi. unfold trace_array. cbn [fig_data].
    change (map ?f names) with (f <$> names). rewrite !list_lookup_fmap, Hi.
    cbn [fmap option_fmap option_map mbind option_bind].
    split; [reflexivity |].
    unfold Series_tolist, series_tolist. rewrite cells_col_select. reflexivity.
Qed.

(** X13, witness: the two operating systems of the three devices. *)
Lemma box_price_os_boxes_witness :
  ∃ fig (names : list label),
    fig3 three_devices = Ok fig
    ∧ length (fig_data fig) = length names
    ∧ length names = 2.
Proof.
  destruct (box_price_os_boxes three_devices
              (StrCol [Some "X"; Some "X"; Some "Y"])
              (NumCol [Some 1000; Some 2000; Some 3000]%Q) eq_refl eq_refl)
    as (fig & names & Hfig & Hlen & Hnames & _).
  exists fig, names. split; [exact Hfig |]. split; [exact Hlen |].
  rewrite Hnames. vm_compute. reflexivity.
Defined.

(** ** Rounding *)

Lemma round_half_even_bounds q :
  (round_half_even q = Qfloor q ∧ (q - inject_Z (Qfloor q) <= 1 # 2)%Q)
  ∨ (round_half_even q = (Qfloor q + 1)%Z ∧ (1 # 2 <= q - inject_Z (Qfloor q))%Q).
Proof.
  unfold round_half_even.
  destruct (Qcompare_spec (q - inject_Z (Qfloor q)) (1 # 2)) as [H | H | H].
  - destruct (Z.even (Qfloor q)); [left | right]; split; try done; lra.
  - left. split; [done | lra].
  - right. split; [done | lra].
Qed.

(** Rounding half to even is monotone. *)
Lemma round_half_even_mono q q' : (q <= q')%Q → (round_half_even q <= round_half_even q')%Z.
Proof.
  intros Hle. pose proof (Qfloor_resp_le _ _ Hle) as Hf.
  destruct (Z.eq_dec (Qfloor q) (Qfloor q')) as [Heq | Hne].
  - unfold round_half_even. rewrite <- Heq.
    destruct (Qcompare_spec (q - inject_Z (Qfloor q)) (1 # 2)) as [H | H | H];
      destruct (Qcompare_spec (q' - inject_Z (Qfloor q)) (1 # 2)) as [H' | H' | H'];
      try lia; try lra; destruct (Z.even (Qfloor q)); lia.
  - destruct (round_half_even_bounds q) as [[-> _] | [-> _]];
      destruct (round_half_even_bounds q') as [[-> _] | [-> _]]; lia.
Qed.

Lemma round_half_even_inject_Z z : round_half_even (inject_Z z) = z.
Proof.
  unfold round_half_even. rewrite Qfloor_Z.
  destruct (Qcompare_spec (inject_Z z - inject_Z z) (1 # 2)) as [H | H | H]; [lra | done | lra].
Qed.

Lemma scale_pos decimals : (0 < inject_Z (10 ^ Z.of_nat decimals))%Q.
Proof. change 0%Q with (inject_Z 0). rewrite <- Zlt_Qlt. apply Z.pow_pos_nonneg; lia. Qed.

(** [round] is monotone and keeps the whole numbers. *)
Lemma round_dp_mono decimals q q' : (q <= q')%Q → (round_dp decimals q <= round_dp decimals q')%Q.
Proof.
  intros Hle. unfold round_dp. pose proof (scale_pos decimals) as Hs.
  set (s := inject_Z (10 ^ Z.of_nat decimals)) in *.
  assert (round_half_even (q * s) <= round_half_even (q' * s))%Z as Hr
    by (apply round_half_even_mono; nra).
  rewrite Zle_Qle in Hr. apply Qle_shift_div_l; [done |].
  unfold Qdiv. rewrite <- Qmult_assoc, (Qmult_comm (/ s)), Qmult_inv_r by lra. lra.
Qed.

Lemma round_dp_inject_Z decimals z : (round_dp decimals (inject_Z z) == inject_Z z)%Q.
Proof.
  unfold round_dp. pose proof (scale_pos decimals) as Hs.
  rewrite <- inject_Z_mult, round_half_even_inject_Z, inject_Z_mult.
  field. lra.
Qed.

Lemma round_dp_between decimals (lo hi : Z) q :
  (inject_Z lo <= q)%Q → (q <= inject_Z hi)%Q →
  (inject_Z lo <= round_dp decimals q)%Q ∧ (round_dp decimals q <= inject_Z hi)%Q.
Proof.
  intros Hlo Hhi. split.
  - rewrite <- (round_dp_inject_Z decimals lo). by apply round_dp_mono.
  - rewrite <- (round_dp_inject_Z decimals hi). by apply round_dp_mono.
Qed.

(** ** The pie chart and the heat map *)

(** X14. The chart [pie_device_type] has one slice for every device type
    of the table, none twice, with the number of rows of that type, the
    most frequent first; the slices add up to the number of rows whose
    device type is not missing. *)
Theorem pie_device_type_slices (data : DataFrame) (dt : column) :
  cols data !! "device_type" = Some dt →
  ∃ fig slices,
    fig5 data = Ok fig
    ∧ trace_array fig 0 "labels" = Some (map (λ kv, label_py (fst kv)) slices)
    ∧ trace_array fig 0 "values" = Some (map (λ kv, PInt (Z.of_nat (snd kv))) slices)
    ∧ NoDup (map fst slices)
    ∧ (∀ k n, (k, n) ∈ slices ↔ Some k ∈ labels dt ∧ n = rows_with k dt)
    ∧ StronglySorted (λ a b : label * nat, snd b ≤ snd a) slices
    ∧ sum_list_with snd slices = count (labels dt).
Proof.
  intros Hd. unfold fig5. rewrite (getitem_Some _ _ _ Hd). cbn [mbind result_bind].
  eexists _, (value_counts dt). split; [reflexivity |].
  split; [reflexivity |]. split; [reflexivity |].
  split; [rewrite value_counts_keys; apply NoDup_unique |].
  split; [| split; [apply value_counts_sorted | apply value_counts_total]].
  intros k n. split.
  - intros H. apply value_counts_entry in H. tauto.
  - intros [Hk ->]. by apply value_counts_complete.
Qed.

Lemma corr_pair_coefficient (sqrt : Q → Q) x y : coefficient (corr_pair sqrt x y).
Proof.
  unfold corr_pair. destruct (omap _ (zip x y)) as [| p pairs]; [done |].
  destruct (Qeq_bool _ 0); [done |]. simpl. split.
  - apply Q.le_max_l.
  - apply Q.max_lub; [done | apply Q.le_min_l].
Qed.

Lemma round_coefficient v : coefficient v → coefficient (round_dp 3 <$> v).
Proof.
  destruct v as [r |]; [| done]. simpl. intros [Hlo Hhi].
  apply (round_dp_between 3 (-1) 1 r); done.
Qed.

Section HeatMap.
Variable sqrt : Q → Q.

(** X15. On a table whose columns of the correlation matrix hold numbers,
    the chart [heatmap_correlation] shows a square matrix with one row and
    one column for every listed column that the table has, in the order of
    the list: every entry is missing or a number between -1 and 1, also
    after rounding to three decimals, and the annotation text is an array
    that the sanitizer turns into the same nested list. *)
Theorem heatmap_correlation_square (data : DataFrame) :
  (∀ name c, name ∈ numeric_cols → cols data !! name = Some c → ∃ l, c = NumCol l) →
  ∃ fig names z text,
    fig6 sqrt data = Ok fig
    ∧ names = filter (λ col, has_column data col = true) numeric_cols
    ∧ trace_array fig 0 "x" = Some (map PStr names)
    ∧ trace_array fig 0 "y" = Some (map PStr names)
    ∧ trace_array fig 0 "z" = Some (map (λ row, PList (map py_float row)) z)
    ∧ length z = length names
    ∧ Forall (λ row, length row = length names ∧ Forall coefficient row) z
    ∧ (fig_data fig !! 0 ≫= dict_get "text") = Some (PNdarray text)
    ∧ _sanitize (PNdarray text) = PList (map (λ row, PList (map py_float row)) z).
Proof.
  intros Hnum. unfold fig6. rewrite available_cols_selected.
  cbn [mbind result_bind]. unfold corr. rewrite mapM_result_map.
  set (names := filter (λ col, has_column data col = true) numeric_cols).
  set (numbers := λ col, match default (NumCol []) (cols data !! col) with
                         | NumCol l => l
                         | StrCol _ => []
                         end).
  rewrite (mapM_result_Ok _ numbers names).
  2:{ intros col [Hcol Hin]%list_elem_of_filter.
      apply has_column_Some in Hcol as [c Hc]. unfold numbers. rewrite Hc. simpl.
      by destruct (Hnum col c Hin Hc) as [l ->]. }
  cbn [mbind result_bind].
  eexists _, names, _, _. split; [reflexivity |]. split; [done |].
  split; [reflexivity |]. split; [reflexivity |]. split; [reflexivity |].
  split; [by rewrite !length_map |]. split; [| split; [reflexivity |]].
  - apply Forall_forall. intros row (row' & -> & Hrow)%list_elem_of_fmap.
    apply list_elem_of_fmap in Hrow as (x & -> & _).
    split; [by rewrite !length_map |].
    apply Forall_forall. intros v (v' & -> & Hv)%list_elem_of_fmap.
    apply list_elem_of_fmap in Hv as (y & -> & _).
    apply round_coefficient, corr_pair_coefficient.
  - cbn [_sanitize tolist]. rewrite map_map. f_equal. apply map_ext. intros row.
    cbn [tolist]. rewrite map_map. done.
Qed.
End HeatMap.

(** X14, witness: the device types of the three devices. *)
Lemma pie_device_type_slices_witness :
  ∃ fig (slices : list (label * nat)),
    fig5 three_devices = Ok fig
    ∧ trace_array fig 0 "values" = Some (map (λ kv, PInt (Z.of_nat (snd kv))) slices)
    ∧ sum_list_with snd slices = 3.
Proof.
  destruct (pie_device_type_slices three_devices
              (StrCol [Some "Laptop"; Some "Desktop"; Some "Laptop"]) eq_refl)
    as (fig & slices & Hfig & _ & Hv & _ & _ & _ & Hsum).
  exists fig, slices. split; [exact Hfig |]. split; [exact Hv |].
  rewrite Hsum. vm_compute. reflexivity.
Defined.

Lemma three_devices_correlated name c :
  name ∈ numeric_cols → cols three_devices !! name = Some c → ∃ l, c = NumCol l.
Proof.
  intros Hin Hc. unfold numeric_cols in Hin.
  repeat (apply elem_of_cons in Hin as [-> | Hin]);
    try (vm_compute in Hc; first [discriminate | injection Hc as <-; eauto]).
  by apply elem_of_nil in Hin.
Qed.

(** X15, witness: the correlation matrix of the three devices. *)
Lemma heatmap_correlation_square_witness :
  ∃ fig (names : list string) (z : list (list (option Q))),
    fig6 approx_sqrt three_devices = Ok fig
    ∧ trace_array fig 0 "x" = Some (map PStr names)
    ∧ length z = length names
    ∧ Forall (λ row, length row = length names ∧ Forall coefficient row) z.
Proof.
  destruct (heatmap_correlation_square approx_sqrt three_devices three_devices_correlated)
    as (fig & names & z & text & Hfig & _ & Hx & _ & _ & Hlen & Hrows & _).
  exists fig, names, z. split; [exact Hfig |]. split; [exact Hx |].
  split; [exact Hlen | exact Hrows].
Defined.

(** ** The routes *)









Section RecordsEncoded.
Variable sqrt : Q → Q.







End RecordsEncoded.



Section ChartsRoute.
Variable sqrt : Q → Q.
Context {rng_state : Type}.
Variable RandomState : Z → rng_state.
Variable permutation : rng_state → nat → list nat.

(** X17. The route [/api/charts] answers with status 200 and the nine
    charts on a table on which every chart can be computed, and with
    status 500 and the message [No charts available] otherwise, the table
    being unavailable or not; the handler of the route is never
    entered. *)
Theorem get_charts_response (g : rng_state) :
  get_charts sqrt RandomState permutation g None
  = (DocError (Message "No charts available"), 500%Z)
  ∧ ∀ data,
      if charts_computable data
      then ∃ charts,
             dom charts = list_to_set chart_names
             ∧ get_charts sqrt RandomState permutation g (Some data)
               = (DocCharts charts, 200%Z)
      else get_charts sqrt RandomState permutation g (Some data)
           = (DocError (Message "No charts available"), 500%Z).
Proof.
  split; [reflexivity |]. intros data.
  pose proof (create_plotly_charts_cases sqrt RandomState permutation g data) as H.
  unfold get_charts. destruct (charts_computable data).
  - destruct H as (charts & -> & Hdom). exists charts. split; [done |].
    cbn [mbind result_bind]. rewrite bool_decide_eq_false_2; [done |].
    intros Hsize%map_size_empty_iff. subst charts.
    assert ("hist_price" ∈ dom (∅ : gmap string (list token))) as Hin
      by (rewrite Hdom; unfold chart_names; set_solver).
    by rewrite dom_empty, elem_of_empty in Hin.
  - rewrite H. reflexivity.
Qed.
End ChartsRoute.

(** ** The summary *)










